(** * Connect Four: board state machine and move-selection engine

    A shallow embedding of [Connect4Board.py] and [Connect4Solver.py].

    Python integers are [Z]; Python lists are [list] read and written
    through [getitem]/[setitem], which follow Python's indexing (negative
    indices count from the end, anything else out of range raises
    [IndexError]); the [Counter] of chips per column is a [gmap Z Z] whose
    missing keys read as 0.  Methods that mutate run in a small state and
    exception monad whose state survives a raised exception, so that
    "raises without mutating" is a statement about the final state. *)

From Stdlib Require Import ZArith List Lia Bool.
From stdpp Require Import base gmap list.
Import ListNotations.
Open Scope Z_scope.

(** ** Python values and exceptions *)

Inductive Exn : Type :=
| ValueError (column : Z)   (* "Tried to place chip in full column " + str(column) *)
| IndexError.

Definition Result (A : Type) : Type := (Exn + A)%type.

Definition rbind {A B : Type} (r : Result A) (k : A -> Result B) : Result B :=
  match r with
  | inl e => inl e
  | inr a => k a
  end.

Notation "x <~ r ; k" := (rbind r (fun x => k))
  (at level 20, r at level 100, k at level 200, only parsing).

(** [a and b] on fallible operands: [b] is not evaluated when [a] is false. *)
Definition and_then (a b : Result bool) : Result bool :=
  x <~ a ; if x then b else inr false.

(** State and exception monad: the state reached is returned in both cases. *)
Definition M (S A : Type) : Type := S -> S * Result A.

Definition ret {S A : Type} (a : A) : M S A := fun s => (s, inr a).

Definition raise {S A : Type} (e : Exn) : M S A := fun s => (s, inl e).

Definition bind {S A B : Type} (m : M S A) (k : A -> M S B) : M S B :=
  fun s =>
    match m s with
    | (s', inr a) => k a s'
    | (s', inl e) => (s', inl e)
    end.

Definition lift {S A : Type} (r : Result A) : M S A := fun s => (s, r).

Definition get_state {S : Type} : M S S := fun s => (s, inr s).

Definition modify {S : Type} (f : S -> S) : M S unit := fun s => (f s, inr tt).

Notation "x <- m ; k" := (bind m (fun x => k))
  (at level 20, m at level 100, k at level 200, only parsing).

(** Python's index normalisation for a sequence of length [len]. *)
Definition py_index (len : nat) (i : Z) : option nat :=
  if (0 <=? i) && (i <? Z.of_nat len) then Some (Z.to_nat i)
  else if (- Z.of_nat len <=? i) && (i <? 0) then Some (Z.to_nat (i + Z.of_nat len))
  else None.

Definition getitem {A : Type} (l : list A) (i : Z) : Result A :=
  match py_index (length l) i with
  | Some n => match l !! n with
              | Some x => inr x
              | None => inl IndexError
              end
  | None => inl IndexError
  end.

Definition setitem {A : Type} (l : list A) (i : Z) (x : A) : Result (list A) :=
  match py_index (length l) i with
  | Some n => inr (<[n := x]> l)
  | None => inl IndexError
  end.

(** [range(lo, hi)] *)
Definition range (lo hi : Z) : list Z :=
  map (fun k => lo + Z.of_nat k) (seq 0 (Z.to_nat (hi - lo))).

(** A [Counter]: missing keys read as 0 and reading does not insert. *)
Definition counter_get (c : gmap Z Z) (k : Z) : Z := default 0 (c !! k).

Definition counter_incr (c : gmap Z Z) (k : Z) : gmap Z Z :=
  <[k := counter_get c k + 1]> c.

(** ** Connect4Board.py *)

Inductive Colour : Type := EMPTY | RED | YELLOW.

#[global] Instance Colour_eq_dec : EqDecision Colour.
Proof. solve_decision. Defined.

Abbreviation Coord := (Z * Z)%type.
Abbreviation Line := (list (Z * Z)).
Abbreviation Grid := (list (list Colour)).

Definition ROWS : Z := 6.
Definition COLUMNS : Z := 7.

Definition horizontal_lines : list Line :=
  flat_map (fun row =>
    map (fun starting_col =>
           [(row, starting_col); (row, starting_col + 1);
            (row, starting_col + 2); (row, starting_col + 3)])
        (range 0 (COLUMNS - 3)))
    (range 0 ROWS).

Definition vertical_lines : list Line :=
  flat_map (fun col =>
    map (fun starting_row =>
           [(starting_row, col); (starting_row + 1, col);
            (starting_row + 2, col); (starting_row + 3, col)])
        (range 0 (ROWS - 3)))
    (range 0 COLUMNS).

Definition diagonal_falling_lines : list Line :=
  flat_map (fun starting_row =>
    map (fun starting_col =>
           [(starting_row, starting_col); (starting_row + 1, starting_col + 1);
            (starting_row + 2, starting_col + 2); (starting_row + 3, starting_col + 3)])
        (range 0 (COLUMNS - 3)))
    (range 0 (ROWS - 3)).

Definition diagonal_rising_lines : list Line :=
  flat_map (fun starting_row =>
    map (fun starting_col =>
           [(starting_row, starting_col); (starting_row - 1, starting_col + 1);
            (starting_row - 2, starting_col + 2); (starting_row - 3, starting_col + 3)])
        (range 0 (COLUMNS - 3)))
    (range 4 ROWS).

Definition generate_winning_lines : list Line :=
  horizontal_lines ++ vertical_lines ++ diagonal_falling_lines ++ diagonal_rising_lines.

(** [list.remove(x)]: drops the first occurrence (the caller has tested
    [x in line], so the [ValueError] of an absent element cannot occur). *)
Fixpoint list_remove (x : Coord) (line : Line) : Line :=
  match line with
  | [] => []
  | y :: rest => if bool_decide (y = x) then rest else y :: list_remove x rest
  end.

(** Reads the class attribute [Connect4Board.WINNING_LINES], here [WL]. *)
Definition generate_winning_lines_for_positions (WL : list Line) (row column : Z)
  : list Line :=
  flat_map (fun line =>
              if bool_decide ((row, column) ∈ line)
              then [list_remove (row, column) line]
              else [])
           WL.

(** What lives for the whole process: the two class attributes, [None]
    until the first board is constructed, and the list object that is the
    default value of [__init__]'s [available_moves] parameter, created
    once when the class body is executed. *)
Record Process : Type := mkProcess {
  WINNING_LINES : option (list Line);
  WINNING_LINES_BY_POSITION : option (list (list (list Line)));
  default_available_moves : list bool
}.

Definition process_start : Process :=
  {| WINNING_LINES := None;
     WINNING_LINES_BY_POSITION := None;
     default_available_moves := replicate (Z.to_nat COLUMNS) true |}.

(** [self.available_moves] is a reference: to the shared default list when
    the constructor got none, to a list of the board's own otherwise. *)
Inductive ListRef : Type :=
| DefaultArg
| Own (l : list bool).

Record Connect4Board : Type := mkBoard {
  moves_made : Z;
  last_move : Z * Z;
  winner : Colour;
  board : Grid;
  column_chip_count : gmap Z Z;
  available_moves : ListRef;
  winning_lines : list Line;
  winning_lines_by_positions : list (list (list Line))
}.

Definition deref (p : Process) (r : ListRef) : list bool :=
  match r with
  | DefaultArg => default_available_moves p
  | Own l => l
  end.

Definition set_default_available_moves (l : list bool) (p : Process) : Process :=
  {| WINNING_LINES := WINNING_LINES p;
     WINNING_LINES_BY_POSITION := WINNING_LINES_BY_POSITION p;
     default_available_moves := l |}.

(** The lazy initialisation at the end of [__init__]. *)
Definition init_static (p : Process) : Process :=
  let WL := match WINNING_LINES p with
            | Some l => l
            | None => generate_winning_lines
            end in
  let WLP := match WINNING_LINES_BY_POSITION p with
             | Some t => t
             | None =>
                 map (fun i => map (fun j => generate_winning_lines_for_positions WL i j)
                                   (range 0 COLUMNS))
                     (range 0 ROWS)
             end in
  {| WINNING_LINES := Some WL;
     WINNING_LINES_BY_POSITION := Some WLP;
     default_available_moves := default_available_moves p |}.

Definition empty_grid : Grid :=
  map (fun _ => map (fun _ => EMPTY) (range 0 COLUMNS)) (range 0 ROWS).

Definition zero_counter : gmap Z Z :=
  list_to_map (map (fun col => (col, 0)) (range 0 COLUMNS)).

(** [__init__]; an argument that is [None] here was not passed, or was
    passed as Python's [None] for [board] and [column_chip_count]. *)
Definition __init__ (moves_made : Z) (last_move : Z * Z) (board : option Grid)
    (column_chip_count : option (gmap Z Z)) (available_moves : option (list bool))
  : M Process Connect4Board :=
  fun p =>
    let p' := init_static p in
    (p', inr {| moves_made := moves_made;
                last_move := last_move;
                winner := EMPTY;
                board := match board with Some g => g | None => empty_grid end;
                column_chip_count :=
                  match column_chip_count with Some c => c | None => zero_counter end;
                available_moves :=
                  match available_moves with Some l => Own l | None => DefaultArg end;
                winning_lines := default [] (WINNING_LINES p');
                winning_lines_by_positions := default [] (WINNING_LINES_BY_POSITION p') |}).

(** [Connect4Board()] *)
Definition new_board : M Process Connect4Board := __init__ 0 (-1, -1) None None None.

Definition __deepcopy__ (self : Connect4Board) : M Process Connect4Board :=
  fun p =>
    let last_move := (fst (last_move self), snd (last_move self)) in
    let new_board := map (fun row => map (fun col => col) row) (board self) in
    let new_column_chip_count := column_chip_count self in
    let new_available_moves := map (fun available => available)
                                   (deref p (available_moves self)) in
    __init__ (moves_made self) last_move (Some new_board)
             (Some new_column_chip_count) (Some new_available_moves) p.

Definition move_available (p : Process) (self : Connect4Board) (column : Z) : Result bool :=
  getitem (deref p (available_moves self)) column.

Definition grid_get (g : Grid) (row col : Z) : Result Colour :=
  r <~ getitem g row ; getitem r col.

Definition grid_set (g : Grid) (row col : Z) (c : Colour) : Result Grid :=
  r <~ getitem g row ;
  r' <~ setitem r col c ;
  setitem g row r'.

(** [board[line[k][0]][line[k][1]] == colour] *)
Definition cell_is (g : Grid) (line : Line) (k : Z) (colour : Colour) : Result bool :=
  pos <~ getitem line k ;
  c <~ grid_get g (fst pos) (snd pos) ;
  inr (bool_decide (c = colour)).

Fixpoint scan_lines_from_last_move (g : Grid) (last_move_colour : Colour)
    (lines : list Line) : Result Colour :=
  match lines with
  | [] => inr EMPTY
  | line :: rest =>
      hit <~ and_then (cell_is g line 0 last_move_colour)
               (and_then (cell_is g line 1 last_move_colour)
                         (cell_is g line 2 last_move_colour)) ;
      if hit then inr last_move_colour
      else scan_lines_from_last_move g last_move_colour rest
  end.

Definition check_winner_from_last_move (self : Connect4Board) : Result Colour :=
  if bool_decide (last_move self = (-1, -1)) then inr EMPTY
  else
    let last_row := fst (last_move self) in
    let last_col := snd (last_move self) in
    last_move_colour <~ grid_get (board self) last_row last_col ;
    by_row <~ getitem (winning_lines_by_positions self) last_row ;
    lines <~ getitem by_row last_col ;
    scan_lines_from_last_move (board self) last_move_colour lines.

(** [board[line[j]] == board[line[k]]] *)
Definition cells_equal (g : Grid) (line : Line) (j k : Z) : Result bool :=
  pj <~ getitem line j ;
  cj <~ grid_get g (fst pj) (snd pj) ;
  pk <~ getitem line k ;
  ck <~ grid_get g (fst pk) (snd pk) ;
  inr (bool_decide (cj = ck)).

Definition cell_not_empty (g : Grid) (line : Line) : Result bool :=
  p0 <~ getitem line 0 ;
  c0 <~ grid_get g (fst p0) (snd p0) ;
  inr (negb (bool_decide (c0 = EMPTY))).

Fixpoint scan_lines_from_board (g : Grid) (lines : list Line) : Result Colour :=
  match lines with
  | [] => inr EMPTY
  | line :: rest =>
      hit <~ and_then (cell_not_empty g line)
               (and_then (cells_equal g line 0 1)
                  (and_then (cells_equal g line 1 2) (cells_equal g line 2 3))) ;
      if hit then (p0 <~ getitem line 0 ; grid_get g (fst p0) (snd p0))
      else scan_lines_from_board g rest
  end.

Definition check_winner_from_board (self : Connect4Board) : Result Colour :=
  scan_lines_from_board (board self) (winning_lines self).

(** Field assignments on [self]. *)
Definition set_board (g : Grid) (b : Connect4Board) : Connect4Board :=
  mkBoard (moves_made b) (last_move b) (winner b) g (column_chip_count b)
          (available_moves b) (winning_lines b) (winning_lines_by_positions b).

Definition set_column_chip_count (c : gmap Z Z) (b : Connect4Board) : Connect4Board :=
  mkBoard (moves_made b) (last_move b) (winner b) (board b) c
          (available_moves b) (winning_lines b) (winning_lines_by_positions b).

Definition set_available_moves (r : ListRef) (b : Connect4Board) : Connect4Board :=
  mkBoard (moves_made b) (last_move b) (winner b) (board b) (column_chip_count b)
          r (winning_lines b) (winning_lines_by_positions b).

Definition set_moves_made (n : Z) (b : Connect4Board) : Connect4Board :=
  mkBoard n (last_move b) (winner b) (board b) (column_chip_count b)
          (available_moves b) (winning_lines b) (winning_lines_by_positions b).

Definition set_last_move (m : Z * Z) (b : Connect4Board) : Connect4Board :=
  mkBoard (moves_made b) m (winner b) (board b) (column_chip_count b)
          (available_moves b) (winning_lines b) (winning_lines_by_positions b).

Definition set_winner (w : Colour) (b : Connect4Board) : Connect4Board :=
  mkBoard (moves_made b) (last_move b) w (board b) (column_chip_count b)
          (available_moves b) (winning_lines b) (winning_lines_by_positions b).

(** The state a method of a board runs in: the process and [self]. *)
Definition Self : Type := (Process * Connect4Board)%type.

Definition on_self (f : Connect4Board -> Connect4Board) : M Self unit :=
  modify (fun s => (fst s, f (snd s))).

(** [self.available_moves[column] = False], written through the reference. *)
Definition close_column (column : Z) : M Self unit :=
  fun s =>
    let '(p, self) := s in
    match setitem (deref p (available_moves self)) column false with
    | inl e => (s, inl e)
    | inr l =>
        match available_moves self with
        | DefaultArg => ((set_default_available_moves l p, self), inr tt)
        | Own _ => ((p, set_available_moves (Own l) self), inr tt)
        end
    end.

Definition __update_column_availability (column : Z) : M Self unit :=
  _ <- on_self (fun self =>
         set_column_chip_count (counter_incr (column_chip_count self) column) self) ;
  s <- get_state ;
  if counter_get (column_chip_count (snd s)) column =? ROWS
  then close_column column
  else ret tt.

Definition place_chip (player : Colour) (column : Z) : M Self unit :=
  s <- get_state ;
  let row_placed_at := ROWS - counter_get (column_chip_count (snd s)) column - 1 in
  if row_placed_at <? 0 then raise (ValueError column)
  else
    g <- lift (grid_set (board (snd s)) row_placed_at column player) ;
    _ <- on_self (set_board g) ;
    _ <- __update_column_availability column ;
    _ <- on_self (fun self => set_moves_made (moves_made self + 1) self) ;
    _ <- on_self (set_last_move (row_placed_at, column)) ;
    s' <- get_state ;
    w <- lift (check_winner_from_last_move (snd s')) ;
    on_self (set_winner w).

Definition still_playing (self : Connect4Board) : bool :=
  if negb (bool_decide (winner self = EMPTY)) || (moves_made self =? ROWS * COLUMNS)
  then false else true.

Definition get_winner (self : Connect4Board) : Colour := winner self.

Definition get_colour_at_position (self : Connect4Board) (row column : Z) : Result Colour :=
  grid_get (board self) row column.

Definition get_moves_made (self : Connect4Board) : Z := moves_made self.

(** ** Connect4Solver.py *)

Definition __alternate_colour (initial_colour : Colour) : Colour :=
  if bool_decide (initial_colour = RED) then YELLOW else RED.

Definition __player_value (player : Colour) : Z :=
  if bool_decide (player = RED) then 1 else -1.

(** A method call [b.m(...)] on a local variable [b] of the solver: the
    board after the call is returned, and is lost when the call raises. *)
Definition call (b : Connect4Board) (m : M Self unit) : M Process Connect4Board :=
  fun p =>
    match m (p, b) with
    | ((p', b'), inr _) => (p', inr b')
    | ((p', _), inl e) => (p', inl e)
    end.

(** [game.move_available(col)] from the solver. *)
Definition ask_move_available (game : Connect4Board) (col : Z) : M Process bool :=
  fun p => (p, move_available p game col).

(** The loop [col = 0; while col < Board.COLUMNS: ...; col += 1] runs its
    body on the columns of [range(COLUMNS)] in order; [cols] is what is
    left of them. *)
Fixpoint solveNaive_loop (game : Connect4Board) (player : Colour) (cols : list Z)
  : M Process Z :=
  match cols with
  | [] => ret (-1)
  | col :: rest =>
      available <- ask_move_available game col ;
      if available then
        new_board <- __deepcopy__ game ;
        new_board <- call new_board (place_chip player col) ;
        let winner := get_winner new_board in
        if negb (bool_decide (winner = EMPTY)) then ret col
        else solveNaive_loop game player rest
      else solveNaive_loop game player rest
  end.

Definition solveNaive (game : Connect4Board) (player : Colour) : M Process Z :=
  solveNaive_loop game player (range 0 COLUMNS).

(** [max(values)] and [min(values)] of a list that is not empty. *)
Definition py_max (values : list Z) : Z :=
  match values with
  | [] => 0
  | v :: rest => fold_left Z.max rest v
  end.

Definition py_min (values : list Z) : Z :=
  match values with
  | [] => 0
  | v :: rest => fold_left Z.min rest v
  end.

(** What [place_chip_recursive] does once its [while] loop is left. *)
Definition node_value (player : Colour) (values : list Z) : Z :=
  if bool_decide (values = []) then 0
  else if __player_value player =? 1 then py_max values
  else py_min values.

(** The [while] loop of [place_chip_recursive], which is left at the first
    column that is not available.  [recurse] is the call one level down;
    it is [None] when [depth > 1] is false. *)
Fixpoint place_chip_recursive_loop
    (recurse : option (Connect4Board -> Colour -> M Process Z))
    (game : Connect4Board) (player : Colour) (cols : list Z) (values : list Z)
  : M Process Z :=
  match cols with
  | [] => ret (node_value player values)
  | col :: rest =>
      available <- ask_move_available game col ;
      if available then
        new_board <- __deepcopy__ game ;
        new_board <- call new_board (place_chip player col) ;
        let winner := get_winner new_board in
        value <- match recurse with
                 | Some deeper =>
                     if bool_decide (winner = EMPTY)
                     then deeper new_board (__alternate_colour player)
                     else ret (__player_value winner)
                 | None =>
                     if bool_decide (winner = EMPTY) then ret 0
                     else ret (__player_value winner)
                 end ;
        let values := values ++ [value] in
        if value =? __player_value player then ret value
        else place_chip_recursive_loop recurse game player rest values
      else ret (node_value player values)
  end.

(** [levels] is [depth - 1] when [depth > 1] and 0 otherwise: the number of
    times the search can still descend. *)
Fixpoint place_chip_recursive_levels (levels : nat) (game : Connect4Board)
    (player : Colour) : M Process Z :=
  place_chip_recursive_loop
    match levels with
    | O => None
    | S levels' => Some (place_chip_recursive_levels levels')
    end
    game player (range 0 COLUMNS) [].

Definition place_chip_recursive (game : Connect4Board) (player : Colour) (depth : Z)
  : M Process Z :=
  place_chip_recursive_levels (Z.to_nat (depth - 1)) game player.

(** Entries of the list [solve_minimax] returns: integers from the search
    and the float [-inf * player_value] of a closed column. *)
Inductive Value : Type :=
| NegInf
| Num (z : Z)
| PosInf.

Definition neg_inf_times (player_value : Z) : Value :=
  if 0 <? player_value then NegInf else PosInf.

Fixpoint solve_minimax_loop (game : Connect4Board) (player : Colour) (depth : Z)
    (cols : list Z) (minimax_values : list Value) : M Process (list Value) :=
  match cols with
  | [] => ret minimax_values
  | col :: rest =>
      available <- ask_move_available game col ;
      if negb available then
        solve_minimax_loop game player depth rest
          (minimax_values ++ [neg_inf_times (__player_value player)])
      else
        new_board <- __deepcopy__ game ;
        new_board <- call new_board (place_chip player col) ;
        value <- place_chip_recursive new_board (__alternate_colour player) depth ;
        solve_minimax_loop game player depth rest (minimax_values ++ [Num value])
  end.

Definition solve_minimax (game : Connect4Board) (player : Colour) (depth : Z)
  : M Process (list Value) :=
  solve_minimax_loop game player depth (range 0 COLUMNS) [].

(** ** Running a game *)

(** A sequence of [place_chip] calls on one board. *)
Fixpoint place_chips (moves : list (Colour * Z)) : M Self unit :=
  match moves with
  | [] => ret tt
  | (player, column) :: rest =>
      _ <- place_chip player column ;
      place_chips rest
  end.

(** [Connect4Board()] followed by the given placements. *)
Definition play_moves (moves : list (Colour * Z)) : M Process Connect4Board :=
  b <- new_board ;
  call b (place_chips moves).

(** ** Vocabulary of the properties *)

Definition in_range (q : Coord) : Prop :=
  0 <= fst q < ROWS /\ 0 <= snd q < COLUMNS.

Definition in_rangeb (q : Coord) : bool :=
  (0 <=? fst q) && (fst q <? ROWS) && (0 <=? snd q) && (snd q <? COLUMNS).

(** A grid of 6 rows of 7 cells. *)
Definition shaped (g : Grid) : Prop :=
  length g = Z.to_nat ROWS /\ Forall (fun row => length row = Z.to_nat COLUMNS) g.

(** The colour at a coordinate, [EMPTY] where the grid has no such cell. *)
Definition cell (g : Grid) (q : Coord) : Colour :=
  match grid_get g (fst q) (snd q) with
  | inr c => c
  | inl _ => EMPTY
  end.

(** All four cells of [line] hold [colour]. *)
Definition line_of (g : Grid) (colour : Colour) (line : Line) : bool :=
  forallb (fun q => bool_decide (cell g q = colour)) line.

(** Some generated winning line through [q] is entirely of [colour]. *)
Definition line_through (g : Grid) (colour : Colour) (q : Coord) : bool :=
  existsb (fun line => bool_decide (q ∈ line) && line_of g colour line)
          generate_winning_lines.

(** The four cells of [line] hold one colour, which is not [EMPTY]. *)
Definition full_line (g : Grid) (line : Line) : bool :=
  match line with
  | q :: _ => negb (bool_decide (cell g q = EMPTY)) && line_of g (cell g q) line
  | [] => false
  end.

(** The colour the full scan answers: that of the first full line. *)
Definition first_full_line (g : Grid) (lines : list Line) : Colour :=
  match find (full_line g) lines with
  | Some (q :: _) => cell g q
  | _ => EMPTY
  end.

(** A line of four coordinates of the board. *)
Definition line4_okb (line : Line) : bool :=
  (length line =? 4)%nat && forallb in_rangeb line.

(** The table [WINNING_LINES_BY_POSITION] built from [generate_winning_lines]. *)
Definition lines_by_position : list (list (list Line)) :=
  map (fun i => map (fun j => generate_winning_lines_for_positions generate_winning_lines i j)
                    (range 0 COLUMNS))
      (range 0 ROWS).

Definition static_ready (p : Process) : Prop :=
  WINNING_LINES p = Some generate_winning_lines /\
  WINNING_LINES_BY_POSITION p = Some lines_by_position.

(** A process in which the class body has run and boards may or may not
    have been constructed yet. *)
Definition process_ok (p : Process) : Prop :=
  length (default_available_moves p) = Z.to_nat COLUMNS /\
  ((WINNING_LINES p = None /\ WINNING_LINES_BY_POSITION p = None) \/ static_ready p).

Definition heights_sum (c : gmap Z Z) : Z :=
  fold_right Z.add 0 (map (counter_get c) (range 0 COLUMNS)).

(** [column] is one of the seven columns and [move_available] answers [True]. *)
Definition legal (p : Process) (b : Connect4Board) (column : Z) : Prop :=
  0 <= column < COLUMNS /\ move_available p b column = inr true.

(** Well-formed board of a process. *)
Record board_ok (p : Process) (b : Connect4Board) : Prop := mkBoardOk {
  ok_shape : shaped (board b);
  ok_avail_length : length (deref p (available_moves b)) = Z.to_nat COLUMNS;
  ok_heights : forall c, 0 <= c < COLUMNS -> 0 <= counter_get (column_chip_count b) c <= ROWS;
  ok_open : forall c, 0 <= c < COLUMNS -> move_available p b c = inr true ->
                      counter_get (column_chip_count b) c < ROWS;
  ok_keys : forall c, ~ 0 <= c < COLUMNS -> counter_get (column_chip_count b) c = 0;
  ok_moves : moves_made b = heights_sum (column_chip_count b);
  ok_last : last_move b = (-1, -1) \/ in_range (last_move b);
  ok_lines : winning_lines b = generate_winning_lines;
  ok_by_position : winning_lines_by_positions b = lines_by_position
}.

(** A column is closed only when it is full: true of a board nobody else
    closes columns for. *)
Definition closed_only_when_full (p : Process) (b : Connect4Board) : Prop :=
  forall c, 0 <= c < COLUMNS -> move_available p b c = inr false ->
            counter_get (column_chip_count b) c = ROWS.

(** The grid after [board[row][column] = player] at an in-range cell. *)
Definition grid_with (g : Grid) (q : Coord) (player : Colour) : Grid :=
  match grid_set g (fst q) (snd q) player with
  | inr g' => g'
  | inl _ => g
  end.

(** The cell a chip dropped in [column] lands on. *)
Definition landing (b : Connect4Board) (column : Z) : Coord :=
  (ROWS - counter_get (column_chip_count b) column - 1, column).

(** Dropping [player]'s chip in [column] completes a generated winning line. *)
Definition immediate_win (b : Connect4Board) (player : Colour) (column : Z) : bool :=
  negb (bool_decide (player = EMPTY)) &&
  line_through (grid_with (board b) (landing b column) player) player (landing b column).


(** What a legal [place_chip] does to the availability list: the column is
    closed when its sixth chip lands, through the board's reference. *)
Definition close_after (p : Process) (b : Connect4Board) (column : Z) : Process * ListRef :=
  if counter_get (column_chip_count b) column + 1 =? ROWS then
    match available_moves b with
    | DefaultArg =>
        (set_default_available_moves
           (<[Z.to_nat column := false]> (default_available_moves p)) p,
         DefaultArg)
    | Own l => (p, Own (<[Z.to_nat column := false]> l))
    end
  else (p, available_moves b).

(** The process and board after a legal [place_chip]. *)
Definition placed (p : Process) (b : Connect4Board) (player : Colour) (column : Z) : Self :=
  (fst (close_after p b column),
   {| moves_made := moves_made b + 1;
      last_move := landing b column;
      winner := if immediate_win b player column then player else EMPTY;
      board := grid_with (board b) (landing b column) player;
      column_chip_count := counter_incr (column_chip_count b) column;
      available_moves := snd (close_after p b column);
      winning_lines := winning_lines b;
      winning_lines_by_positions := winning_lines_by_positions b |}).

(** Boards of a process that come from [Connect4Board()] by legal
    placements.  With [in_play] the placements are those of a game: none
    is made once [still_playing()] is false.  The list of open columns of
    such a board is the constructor's default list, which every board
    built with [Connect4Board()] shares: [reachable_shared] is another of
    them closing one of its columns. *)
Inductive reachable (in_play : bool) : Process -> Connect4Board -> Prop :=
| reachable_new p p' b :
    process_ok p ->
    new_board p = (p', inr b) ->
    reachable in_play p' b
| reachable_place p b player column p' b' :
    reachable in_play p b ->
    legal p b column ->
    (in_play = true -> still_playing b = true) ->
    place_chip player column (p, b) = ((p', b'), inr tt) ->
    reachable in_play p' b'
| reachable_shared p b column :
    reachable in_play p b ->
    0 <= column < COLUMNS ->
    reachable in_play
      (set_default_available_moves
         (<[Z.to_nat column := false]> (default_available_moves p)) p)
      b.

(** The board [copy.deepcopy(b)] returns in process [p]. *)
Definition copy_of (p : Process) (b : Connect4Board) : Connect4Board :=
  {| moves_made := moves_made b;
     last_move := last_move b;
     winner := EMPTY;
     board := board b;
     column_chip_count := column_chip_count b;
     available_moves := Own (deref p (available_moves b));
     winning_lines := default [] (WINNING_LINES (init_static p));
     winning_lines_by_positions := default [] (WINNING_LINES_BY_POSITION (init_static p)) |}.

(** [move_available] answers [True]. *)
Definition is_open (p : Process) (b : Connect4Board) (column : Z) : bool :=
  match move_available p b column with
  | inr true => true
  | _ => false
  end.

(** The first column, in ascending order, that is open and wins at once for
    [player]; -1 when there is none. *)
Definition first_winning_column (p : Process) (b : Connect4Board) (player : Colour) : Z :=
  match find (fun c => is_open p b c && immediate_win b player c) (range 0 COLUMNS) with
  | Some c => c
  | None => -1
  end.

(** The placements of [moves] are all legal when made in this order from
    state [s]; with [in_play], each is made while [still_playing()]. *)
Fixpoint legal_from (in_play : bool) (moves : list (Colour * Z)) (s : Self) : bool :=
  match moves with
  | [] => true
  | (player, column) :: rest =>
      (0 <=? column) && (column <? COLUMNS) && is_open (fst s) (snd s) column &&
      (negb in_play || still_playing (snd s)) &&
      match place_chip player column s with
      | (s', inr _) => legal_from in_play rest s'
      | (_, inl _) => false
      end
  end.

(** The state in which the first [Connect4Board()] of a process leaves it. *)
Definition first_board : Process * Result Connect4Board := new_board process_start.

Definition legal_game (in_play : bool) (moves : list (Colour * Z)) : bool :=
  match first_board with
  | (p, inr b) => legal_from in_play moves (p, b)
  | (_, inl _) => false
  end.

(** A second [Connect4Board()] made in a process whose first board has
    had [moves] placed on it. *)
Definition second_board_after (moves : list (Colour * Z)) : M Process Connect4Board :=
  b1 <- new_board ;
  _ <- call b1 (place_chips moves) ;
  new_board.

(** Games used as examples. *)
Definition red_wins_bottom_row : list (Colour * Z) :=
  [(RED, 0); (YELLOW, 0); (RED, 1); (YELLOW, 1); (RED, 2); (YELLOW, 2); (RED, 3)].

Definition three_in_a_row (k : Z) : list (Colour * Z) :=
  [(RED, k); (RED, k + 1); (RED, k + 2)].

Definition fill_column_0 : list (Colour * Z) :=
  [(YELLOW, 0); (RED, 0); (YELLOW, 0); (RED, 0); (YELLOW, 0); (RED, 0)].

(** RED ends on the rising diagonal (3,0) (2,1) (1,2) (0,3). *)
Definition red_rising_diagonal : list (Colour * Z) :=
  [(YELLOW, 0); (YELLOW, 0); (RED, 0);
   (RED, 1); (YELLOW, 1); (RED, 1); (RED, 1);
   (YELLOW, 2); (RED, 2); (YELLOW, 2); (YELLOW, 2); (RED, 2);
   (RED, 3); (YELLOW, 3); (RED, 3); (RED, 3); (YELLOW, 3); (RED, 3)].

(** ** The rest of Connect4Board.py *)

(** A Python [str] is the list of its code points.  [Colour.value], with
    the characters the source file holds between the quotes. *)
Definition value (c : Colour) : list Z :=
  match c with
  | EMPTY => [226; 353; 171]
  | RED => [240; 376; 8221; 180]
  | YELLOW => [240; 376; 376; 161]
  end.

Definition newline : list Z := [10].

(** The inner loop of [__str__] over the columns [js] of row [i]. *)
Fixpoint str_cells (g : Grid) (i : Z) (js : list Z) (board_string : list Z)
  : Result (list Z) :=
  match js with
  | [] => inr board_string
  | j :: rest =>
      c <~ grid_get g i j ;
      str_cells g i rest (board_string ++ value c)
  end.

(** The outer loop of [__str__] over the rows [rows]. *)
Fixpoint str_rows (g : Grid) (rows : list Z) (board_string : list Z) : Result (list Z) :=
  match rows with
  | [] => inr board_string
  | i :: rest =>
      s <~ str_cells g i (range 0 COLUMNS) board_string ;
      str_rows g rest (s ++ newline)
  end.

Definition __str__ (self : Connect4Board) : Result (list Z) :=
  str_rows (board self) (range 0 ROWS) [].

(** The text of a grid: its rows in order, each followed by a newline. *)
Definition render (g : Grid) : list Z :=
  concat (map (fun row => concat (map value row) ++ newline) g).

(** The four directions a winning line can run in, as (row, column) steps. *)
Definition directions : list (Z * Z) := [(0, 1); (1, 0); (1, 1); (-1, 1)].

(** The four cells from [start] in steps of [d]. *)
Definition run_of_four (start : Coord) (d : Z * Z) : Line :=
  [start;
   (fst start + fst d, snd start + snd d);
   (fst start + 2 * fst d, snd start + 2 * snd d);
   (fst start + 3 * fst d, snd start + 3 * snd d)].

Definition straight_runb (line : Line) : bool :=
  match line with
  | start :: _ => existsb (fun d => bool_decide (line = run_of_four start d)) directions
  | [] => false
  end && forallb in_rangeb line && bool_decide (NoDup line).

(** No chip floats: the cells above a column's stack are empty. *)
Definition above_stack_empty (b : Connect4Board) : Prop :=
  forall q, in_range q -> fst q < ROWS - counter_get (column_chip_count b) (snd q) ->
            cell (board b) q = EMPTY.

(** ** The rest of Connect4Solver.py *)

Definition DEPTH : Z := 5.
Definition SCORE_TWO : Z := 1.
Definition SCORE_THREE : Z := 5.

(** What the scoring functions can raise: an exception of the board, or
    the TypeError of iterating [game.WINNING_LINES] while it is [None]. *)
Inductive SolverExn : Type :=
| BoardExn (e : Exn)
| TypeError.

Definition M2 (S A : Type) : Type := S -> S * (SolverExn + A).

Definition ret2 {S A : Type} (a : A) : M2 S A := fun s => (s, inr a).

Definition bind2 {S A B : Type} (m : M2 S A) (k : A -> M2 S B) : M2 S B :=
  fun s =>
    match m s with
    | (s', inr a) => k a s'
    | (s', inl e) => (s', inl e)
    end.

Notation "x <-- m ; k" := (bind2 m (fun x => k))
  (at level 20, m at level 100, k at level 200, only parsing).

Definition of_result {A : Type} (r : Result A) : SolverExn + A :=
  match r with
  | inl e => inl (BoardExn e)
  | inr a => inr a
  end.

Definition of_board {S A : Type} (m : M S A) : M2 S A :=
  fun s => let '(s', r) := m s in (s', of_result r).

(** The inner [for position in line] of [get_score]; [None] when the loop
    is left by [break], so that its [else] branch is skipped. *)
Fixpoint count_matching (game : Connect4Board) (player : Colour) (line : Line)
    (matching_colour_chips_in_line : Z) : Result (option Z) :=
  match line with
  | [] => inr (Some matching_colour_chips_in_line)
  | position :: rest =>
      c <~ get_colour_at_position game (fst position) (snd position) ;
      if bool_decide (c = __alternate_colour player) then inr None
      else
        c' <~ get_colour_at_position game (fst position) (snd position) ;
        if bool_decide (c' = player)
        then count_matching game player rest (matching_colour_chips_in_line + 1)
        else count_matching game player rest matching_colour_chips_in_line
  end.

Fixpoint get_score_loop (game : Connect4Board) (player : Colour) (lines : list Line)
    (score : Z) : Result Z :=
  match lines with
  | [] => inr score
  | line :: rest =>
      m <~ count_matching game player line 0 ;
      match m with
      | None => get_score_loop game player rest score
      | Some matching =>
          let score := if matching =? 2 then score + SCORE_TWO else score in
          let score := if matching =? 3 then score + SCORE_THREE else score in
          get_score_loop game player rest score
      end
  end.

(** [game.WINNING_LINES] is the class attribute, read when the call is made. *)
Definition get_score (game : Connect4Board) (player : Colour) : M2 Process Z :=
  fun p =>
    match WINNING_LINES p with
    | None => (p, inl TypeError)
    | Some lines => (p, of_result (get_score_loop game player lines 0))
    end.

Fixpoint solve_scoring_loop (game : Connect4Board) (player : Colour) (cols : list Z)
    (scores : list Z) : M2 Process (list Z) :=
  match cols with
  | [] => ret2 scores
  | col :: rest =>
      available <-- of_board (ask_move_available game col) ;
      if available then
        new_board <-- of_board (__deepcopy__ game) ;
        new_board <-- of_board (call new_board (place_chip player col)) ;
        s <-- get_score new_board player ;
        scores <-- (fun p => (p, of_result (setitem scores col s))) ;
        solve_scoring_loop game player rest scores
      else solve_scoring_loop game player rest scores
  end.

Definition solve_scoring (game : Connect4Board) (player : Colour) : M2 Process (list Z) :=
  solve_scoring_loop game player (range 0 COLUMNS) (replicate (Z.to_nat COLUMNS) 0).

(** What a line is worth to [player] on grid [g]: nothing when it holds a
    chip of the other colour, 1 with exactly two of the player's chips,
    5 with exactly three. *)
Definition count_colour (g : Grid) (c : Colour) (line : Line) : Z :=
  Z.of_nat (length (filter (fun q => cell g q = c) line)).

Definition line_worth (g : Grid) (player : Colour) (line : Line) : Z :=
  if 0 <? count_colour g (__alternate_colour player) line then 0
  else if count_colour g player line =? 2 then SCORE_TWO
  else if count_colour g player line =? 3 then SCORE_THREE
  else 0.

Definition lines_worth (g : Grid) (player : Colour) (lines : list Line) : Z :=
  fold_right Z.add 0 (map (line_worth g player) lines).

(** The order of the entries of [solve_minimax]'s list, floats included. *)
Definition value_leb (a b : Value) : bool :=
  match a, b with
  | NegInf, _ => true
  | _, PosInf => true
  | Num x, Num y => x <=? y
  | _, _ => false
  end.

Definition value_eqb (a b : Value) : bool := value_leb a b && value_leb b a.

(** [max(minimax)] and [min(minimax)]: the first extreme entry of a list
    that is not empty. *)
Definition max_value (values : list Value) : Value :=
  match values with
  | [] => NegInf
  | v :: rest => fold_left (fun m x => if value_leb x m then m else x) rest v
  end.

Definition min_value (values : list Value) : Value :=
  match values with
  | [] => PosInf
  | v :: rest => fold_left (fun m x => if value_leb m x then m else x) rest v
  end.

(** The loop that collects [optimal_moves]: the columns whose entry equals
    [best]. *)
Fixpoint optimal_moves_loop (minimax : list Value) (best : Value) (cols : list Z)
    (optimal_moves : list Z) : Result (list Z) :=
  match cols with
  | [] => inr optimal_moves
  | col :: rest =>
      v <~ getitem minimax col ;
      if value_eqb v best
      then optimal_moves_loop minimax best rest (optimal_moves ++ [col])
      else optimal_moves_loop minimax best rest optimal_moves
  end.

(** [solveBoard] up to its first three stages: the immediate win, the
    block, and the minimax values with their best columns.  What follows
    when several columns tie (scores combined in floating point, distance
    to the centre, [random.choice]) is [tie_break]. *)
Definition solveBoard
    (tie_break : Connect4Board -> Colour -> list Z -> M Process Z)
    (game : Connect4Board) (player : Colour) : M Process Z :=
  win_now <- solveNaive game player ;
  if negb (win_now =? -1) then ret win_now
  else
    lose_next_turn <- solveNaive game (__alternate_colour player) ;
    if negb (lose_next_turn =? -1) then ret lose_next_turn
    else
      minimax <- solve_minimax game player DEPTH ;
      optimal_moves <-
        lift (optimal_moves_loop minimax
                (if bool_decide (player = RED) then max_value minimax
                 else min_value minimax)
                (range 0 COLUMNS) []) ;
      if (length optimal_moves =? 1)%nat
      then lift (getitem optimal_moves 0)
      else tie_break game player optimal_moves.

(** The loop of [play] that reads a column until it is a valid one, on the
    integers typed in; [None] when none of them is valid. *)
Fixpoint read_column (p : Process) (game : Connect4Board) (inputs : list Z)
  : Result (option (Z * list Z)) :=
  match inputs with
  | [] => inr None
  | input_col :: rest =>
      valid <~ and_then (inr (input_col >=? 0))
                 (and_then (inr (input_col <? COLUMNS))
                           (move_available p game input_col)) ;
      if valid then inr (Some (input_col, rest))
      else read_column p game rest
  end.

(** The score [solve_scoring] gives a column. *)
Definition column_score (p : Process) (b : Connect4Board) (player : Colour) (c : Z) : Z :=
  if is_open p b c
  then lines_worth (grid_with (board b) (landing b c) player) player generate_winning_lines
  else 0.

(** What is asked of the call one level down. *)
Definition deeper_total (p : Process)
    (recurse : option (Connect4Board -> Colour -> M Process Z)) : Prop :=
  forall deeper, recurse = Some deeper ->
    forall nb pl, board_ok p nb ->
      exists v, deeper nb pl p = (p, inr v) /\ -1 <= v <= 1.

(** What [solve_minimax] holds for column [c]. *)
Definition minimax_entry (p : Process) (b : Connect4Board) (player : Colour) (depth : Z)
    (c : Z) (x : Value) : Prop :=
  if is_open p b c then
    exists nb v,
      (new_board <- __deepcopy__ b ; call new_board (place_chip player c)) p = (p, inr nb) /\
      place_chip_recursive nb (__alternate_colour player) depth p = (p, inr v) /\
      x = Num v /\ (v = -1 \/ v = 0 \/ v = 1)
  else x = (if bool_decide (player = RED) then NegInf else PosInf).


(** ** Four in a row on the board itself *)

(** The 42 cells of the board. *)
Definition all_cells : list Coord :=
  flat_map (fun r => map (fun c => (r, c)) (range 0 COLUMNS)) (range 0 ROWS).

(** Every run of four cells that fits on the board, in the four
    directions: what Connect Four counts as a winning line, whether or not
    [generate_winning_lines] returns it. *)
Definition runs_of_four : list Line :=
  flat_map (fun start =>
              flat_map (fun d =>
                          if forallb in_rangeb (run_of_four start d)
                          then [run_of_four start d]
                          else [])
                       directions)
           all_cells.

(** Some run of four through [q] is entirely of [colour], a player's. *)
Definition four_in_a_row (g : Grid) (colour : Colour) (q : Coord) : bool :=
  negb (bool_decide (colour = EMPTY)) &&
  existsb (fun line => bool_decide (q ∈ line) && line_of g colour line) runs_of_four.

(** Dropping [player]'s chip in [column] makes four in a row. *)
Definition completes_four (b : Connect4Board) (player : Colour) (column : Z) : bool :=
  four_in_a_row (grid_with (board b) (landing b column) player) player (landing b column).

(** Dropping [player]'s chip in [column] completes one of the lines that
    [generate_winning_lines] returns. *)
Definition completes_generated_line (b : Connect4Board) (player : Colour) (column : Z)
  : Prop :=
  player <> EMPTY /\
  exists line,
    line ∈ generate_winning_lines /\ landing b column ∈ line /\
    forall q, q ∈ line ->
              cell (grid_with (board b) (landing b column) player) q = player.

(** A game of alternating legal moves, RED first, that leaves YELLOW the
    cells (2,1), (1,2), (0,3) and an open column 0 of height 2. *)
Definition missed_diagonal_game : list (Colour * Z) :=
  [(RED, 0); (YELLOW, 1); (RED, 1); (YELLOW, 1); (RED, 2); (YELLOW, 1);
   (RED, 3); (YELLOW, 2); (RED, 2); (YELLOW, 2); (RED, 3); (YELLOW, 2);
   (RED, 3); (YELLOW, 3); (RED, 3); (YELLOW, 3); (RED, 0)].
(** ** Python lists *)

Lemma py_index_nonneg (len : nat) (i : Z) :
  0 <= i < Z.of_nat len -> py_index len i = Some (Z.to_nat i).
Proof.
  intros [H0 H1]. unfold py_index.
  apply Z.leb_le in H0. apply Z.ltb_lt in H1. now rewrite H0, H1.
Qed.

Lemma py_index_outside (len : nat) (i : Z) :
  i >= Z.of_nat len \/ i < - Z.of_nat len -> py_index len i = None.
Proof.
  intros H. unfold py_index.
  destruct (Z.leb_spec 0 i), (Z.ltb_spec i (Z.of_nat len)),
    (Z.leb_spec (- Z.of_nat len) i), (Z.ltb_spec i 0); simpl; try reflexivity; lia.
Qed.

Lemma getitem_nonneg {A : Type} (l : list A) (i : Z) :
  0 <= i < Z.of_nat (length l) ->
  exists x, l !! Z.to_nat i = Some x /\ getitem l i = inr x.
Proof.
  intros H. unfold getitem. rewrite py_index_nonneg by exact H.
  destruct (l !! Z.to_nat i) as [x|] eqn:E.
  - exists x. split; reflexivity.
  - apply lookup_ge_None in E. lia.
Qed.

Lemma getitem_outside {A : Type} (l : list A) (i : Z) :
  i >= Z.of_nat (length l) \/ i < - Z.of_nat (length l) -> getitem l i = inl IndexError.
Proof. intros H. unfold getitem. now rewrite py_index_outside. Qed.

Lemma setitem_nonneg {A : Type} (l : list A) (i : Z) (x : A) :
  0 <= i < Z.of_nat (length l) -> setitem l i x = inr (<[Z.to_nat i := x]> l).
Proof. intros H. unfold setitem. now rewrite py_index_nonneg. Qed.

Lemma setitem_outside {A : Type} (l : list A) (i : Z) (x : A) :
  i >= Z.of_nat (length l) \/ i < - Z.of_nat (length l) -> setitem l i x = inl IndexError.
Proof. intros H. unfold setitem. now rewrite py_index_outside. Qed.

Lemma getitem_inv {A : Type} (l : list A) (i : Z) (x : A) :
  getitem l i = inr x -> x ∈ l.
Proof.
  unfold getitem. destruct (py_index (length l) i) as [n|]; [|discriminate].
  destruct (l !! n) as [y|] eqn:E; [|discriminate].
  intros [= <-]. eapply list_elem_of_lookup_2; eauto.
Qed.

(** ** Grids *)

Lemma shaped_row (g : Grid) (r : Z) :
  shaped g -> 0 <= r < ROWS ->
  exists row, g !! Z.to_nat r = Some row /\ getitem g r = inr row /\
              length row = Z.to_nat COLUMNS.
Proof.
  intros [Hlen Hrows] Hr.
  destruct (getitem_nonneg g r) as (row & Hl & Hg).
  { rewrite Hlen. unfold ROWS in *. lia. }
  exists row. repeat split; try assumption.
  rewrite Forall_forall in Hrows. apply Hrows.
  eapply list_elem_of_lookup_2; eauto.
Qed.

Lemma grid_get_cell (g : Grid) (q : Coord) :
  shaped g -> in_range q -> grid_get g (fst q) (snd q) = inr (cell g q).
Proof.
  intros Hs [Hr Hc]. unfold cell, grid_get.
  destruct (shaped_row g (fst q) Hs Hr) as (row & _ & -> & Hlen). simpl.
  destruct (getitem_nonneg row (snd q)) as (x & _ & ->); [|reflexivity].
  rewrite Hlen. unfold COLUMNS in *. lia.
Qed.

Lemma grid_with_spec (g : Grid) (q : Coord) (player : Colour) :
  shaped g -> in_range q ->
  grid_set g (fst q) (snd q) player = inr (grid_with g q player) /\
  shaped (grid_with g q player) /\
  cell (grid_with g q player) q = player /\
  (forall q', in_range q' -> q' <> q -> cell (grid_with g q player) q' = cell g q').
Proof.
  intros Hs Hq. pose proof Hq as [Hr Hc].
  destruct (shaped_row g (fst q) Hs Hr) as (row & Hrow & Hget & Hlen).
  assert (Hc' : 0 <= snd q < Z.of_nat (length row)).
  { rewrite Hlen. unfold COLUMNS in *. lia. }
  assert (Hr' : 0 <= fst q < Z.of_nat (length g)).
  { destruct Hs as [-> _]. unfold ROWS in *. lia. }
  assert (Eset : grid_set g (fst q) (snd q) player =
                 inr (<[Z.to_nat (fst q) := <[Z.to_nat (snd q) := player]> row]> g)).
  { unfold grid_set. rewrite Hget. simpl. rewrite setitem_nonneg by exact Hc'. simpl.
    now rewrite setitem_nonneg by exact Hr'. }
  unfold grid_with. rewrite Eset.
  set (g' := <[Z.to_nat (fst q) := <[Z.to_nat (snd q) := player]> row]> g).
  assert (Hs' : shaped g').
  { destruct Hs as [Hl Hf]. split.
    - unfold g'. now rewrite length_insert.
    - unfold g'. rewrite Forall_forall in *. intros x Hx.
      apply list_elem_of_lookup_1 in Hx as [i Hi].
      destruct (decide (i = Z.to_nat (fst q))) as [->|Hne].
      + rewrite list_lookup_insert_eq in Hi by lia. injection Hi as <-.
        now rewrite length_insert.
      + rewrite list_lookup_insert_ne in Hi by congruence.
        apply Hf. eapply list_elem_of_lookup_2; eauto. }
  split; [reflexivity|]. split; [exact Hs'|].
  assert (Hcell : forall q', in_range q' ->
            cell g' q' = if bool_decide (q' = q) then player else cell g q').
  { intros q' Hq'. pose proof Hq' as [Hr1 Hc1].
    assert (E1 := grid_get_cell g' q' Hs' Hq').
    assert (E2 := grid_get_cell g q' Hs Hq').
    unfold grid_get in E1, E2.
    destruct (shaped_row g' (fst q') Hs' Hr1) as (row1 & Hrow1 & Hget1 & Hlen1).
    destruct (shaped_row g (fst q') Hs Hr1) as (row2 & Hrow2 & Hget2 & Hlen2).
    rewrite Hget1 in E1. rewrite Hget2 in E2. simpl in E1, E2.
    destruct (getitem_nonneg row1 (snd q')) as (x1 & Hx1 & Gx1).
    { rewrite Hlen1. unfold COLUMNS in *. lia. }
    destruct (getitem_nonneg row2 (snd q')) as (x2 & Hx2 & Gx2).
    { rewrite Hlen2. unfold COLUMNS in *. lia. }
    rewrite Gx1 in E1. rewrite Gx2 in E2.
    injection E1 as <-. injection E2 as <-.
    unfold g' in Hrow1.
    destruct (decide (fst q' = fst q)) as [Ef|Ef].
    - rewrite Ef in Hrow1, Hrow2.
      rewrite list_lookup_insert_eq in Hrow1 by lia.
      injection Hrow1 as <-. rewrite Hrow in Hrow2. injection Hrow2 as <-.
      destruct (decide (snd q' = snd q)) as [Es|Es].
      + rewrite Es in Hx1. rewrite list_lookup_insert_eq in Hx1 by lia.
        injection Hx1 as <-.
        rewrite bool_decide_eq_true_2; [reflexivity|].
        destruct q, q'; simpl in *; congruence.
      + rewrite list_lookup_insert_ne in Hx1 by lia.
        rewrite Hx2 in Hx1. injection Hx1 as <-.
        rewrite bool_decide_eq_false_2; [reflexivity|]. congruence.
    - rewrite list_lookup_insert_ne in Hrow1 by lia.
      rewrite Hrow2 in Hrow1. injection Hrow1 as <-.
      rewrite Hx2 in Hx1. injection Hx1 as <-.
      rewrite bool_decide_eq_false_2; [reflexivity|]. congruence. }
  split.
  - rewrite Hcell by exact Hq. now rewrite bool_decide_eq_true_2.
  - intros q' Hq' Hne. rewrite Hcell by exact Hq'. now rewrite bool_decide_eq_false_2.
Qed.

(** ** The generated lines *)

Lemma in_rangeb_spec (q : Coord) : in_rangeb q = true <-> in_range q.
Proof.
  unfold in_rangeb, in_range. rewrite !andb_true_iff, !Z.leb_le, !Z.ltb_lt. tauto.
Qed.

Lemma generate_winning_lines_ok :
  forall line, line ∈ generate_winning_lines ->
               length line = 4%nat /\ (forall q, q ∈ line -> in_range q).
Proof.
  assert (H : forallb line4_okb generate_winning_lines = true) by (vm_compute; reflexivity).
  rewrite forallb_forall in H. intros line Hl.
  apply list_elem_of_In in Hl. specialize (H line Hl).
  unfold line4_okb in H. apply andb_true_iff in H as [H1 H2].
  apply Nat.eqb_eq in H1. split; [exact H1|].
  intros q Hq. rewrite forallb_forall in H2. apply in_rangeb_spec, H2.
  now apply list_elem_of_In.
Qed.

Lemma in_range_cases (q : Coord) :
  in_range q ->
  exists r c, q = (Z.of_nat r, Z.of_nat c) /\ (r < 6)%nat /\ (c < 7)%nat.
Proof.
  intros [Hr Hc]. unfold ROWS, COLUMNS in *.
  exists (Z.to_nat (fst q)), (Z.to_nat (snd q)).
  destruct q as [r c]; simpl in *. rewrite !Z2Nat.id by lia.
  repeat split; lia.
Qed.

Lemma lines_by_position_lookup (q : Coord) :
  in_range q ->
  (by_row <~ getitem lines_by_position (fst q) ; getitem by_row (snd q)) =
  inr (generate_winning_lines_for_positions generate_winning_lines (fst q) (snd q)).
Proof.
  intros Hq. destruct (in_range_cases q Hq) as (r & c & -> & Hr & Hc).
  do 6 (destruct r as [|r]; [do 7 (destruct c as [|c]; [vm_compute; reflexivity|]); lia|]).
  lia.
Qed.

Lemma list_remove_length (x : Coord) (line : Line) :
  x ∈ line -> S (length (list_remove x line)) = length line.
Proof.
  induction line as [|y rest IH]; intros Hx.
  - inversion Hx.
  - simpl. destruct (bool_decide_reflect (y = x)) as [->|Hne]; [reflexivity|].
    simpl. f_equal. apply IH. inversion Hx; subst; [congruence|assumption].
Qed.

Lemma list_remove_subset (x : Coord) (line : Line) (q : Coord) :
  q ∈ list_remove x line -> q ∈ line.
Proof.
  induction line as [|y rest IH]; simpl; [trivial|].
  destruct (bool_decide (y = x)).
  - intros H. now apply list_elem_of_further.
  - intros H. inversion H; subst.
    + apply list_elem_of_here.
    + apply list_elem_of_further. now apply IH.
Qed.

Lemma line_of_remove (g : Grid) (colour : Colour) (x : Coord) (line : Line) :
  x ∈ line -> cell g x = colour ->
  line_of g colour (list_remove x line) = line_of g colour line.
Proof.
  intros Hx Hc. unfold line_of.
  induction line as [|y rest IH]; [inversion Hx|].
  simpl. destruct (bool_decide_reflect (y = x)) as [->|Hne].
  - rewrite (bool_decide_eq_true_2 _ Hc). reflexivity.
  - simpl. f_equal. apply IH. inversion Hx; subst; [congruence|assumption].
Qed.

Lemma lines_for_position_ok (q : Coord) :
  forall line,
    line ∈ generate_winning_lines_for_positions generate_winning_lines (fst q) (snd q) ->
    length line = 3%nat /\ (forall q', q' ∈ line -> in_range q').
Proof.
  unfold generate_winning_lines_for_positions.
  intros line Hl. apply list_elem_of_In, in_flat_map in Hl as (l0 & Hl0 & Hin).
  apply list_elem_of_In in Hl0.
  destruct (bool_decide_reflect ((fst q, snd q) ∈ l0)) as [Hq|Hq]; [|inversion Hin].
  destruct Hin as [<-|[]].
  destruct (generate_winning_lines_ok l0 Hl0) as [Hlen Hr]. split.
  - pose proof (list_remove_length _ _ Hq). lia.
  - intros q' Hq'. apply Hr. eapply list_remove_subset; eauto.
Qed.

Lemma lines_for_position_exists (g : Grid) (colour : Colour) (q : Coord) (WL : list Line) :
  cell g q = colour ->
  existsb (line_of g colour) (generate_winning_lines_for_positions WL (fst q) (snd q)) =
  existsb (fun line => bool_decide (q ∈ line) && line_of g colour line) WL.
Proof.
  intros Hc. unfold generate_winning_lines_for_positions.
  induction WL as [|l0 rest IH]; [reflexivity|].
  simpl. rewrite existsb_app, IH. f_equal.
  replace (fst q, snd q) with q by (now destruct q).
  destruct (bool_decide_reflect (q ∈ l0)) as [Hq|Hq]; simpl; [|reflexivity].
  rewrite orb_false_r. now apply line_of_remove.
Qed.

(** ** The two win checks on a well-shaped grid *)

Ltac solve_elem :=
  repeat first [apply list_elem_of_here | apply list_elem_of_further].

Lemma cell_is_spec (g : Grid) (line : Line) (k : Z) (colour : Colour) (q : Coord) :
  shaped g -> getitem line k = inr q -> in_range q ->
  cell_is g line k colour = inr (bool_decide (cell g q = colour)).
Proof.
  intros Hs Hk Hq. unfold cell_is. rewrite Hk. simpl.
  now rewrite grid_get_cell.
Qed.

Lemma scan_lines_from_last_move_spec (g : Grid) (colour : Colour) (lines : list Line) :
  shaped g ->
  (forall line, line ∈ lines -> length line = 3%nat /\ (forall q, q ∈ line -> in_range q)) ->
  scan_lines_from_last_move g colour lines =
  inr (if existsb (line_of g colour) lines then colour else EMPTY).
Proof.
  intros Hs. induction lines as [|line rest IH]; intros Hok; [reflexivity|].
  destruct (Hok line (list_elem_of_here _ _)) as [Hlen Hr].
  destruct line as [|q0 [|q1 [|q2 [|]]]]; try discriminate.
  assert (Hq0 : in_range q0) by (apply Hr; solve_elem).
  assert (Hq1 : in_range q1) by (apply Hr; solve_elem).
  assert (Hq2 : in_range q2) by (apply Hr; solve_elem).
  cbn [scan_lines_from_last_move].
  rewrite (cell_is_spec g _ 0 colour q0 Hs) by (reflexivity || assumption).
  rewrite (cell_is_spec g _ 1 colour q1 Hs) by (reflexivity || assumption).
  rewrite (cell_is_spec g _ 2 colour q2 Hs) by (reflexivity || assumption).
  cbn [and_then rbind].
  rewrite IH by (intros l Hl; apply Hok; now apply list_elem_of_further).
  cbn [existsb line_of forallb].
  destruct (bool_decide (cell g q0 = colour)), (bool_decide (cell g q1 = colour)),
    (bool_decide (cell g q2 = colour)); reflexivity.
Qed.

Lemma check_winner_from_last_move_spec (b : Connect4Board) :
  shaped (board b) -> winning_lines_by_positions b = lines_by_position ->
  in_range (last_move b) ->
  check_winner_from_last_move b =
  inr (if line_through (board b) (cell (board b) (last_move b)) (last_move b)
       then cell (board b) (last_move b) else EMPTY).
Proof.
  intros Hs Ht Hq. unfold check_winner_from_last_move.
  rewrite bool_decide_eq_false_2.
  2:{ intros E. rewrite E in Hq. destruct Hq as [Hq _]. simpl in Hq. lia. }
  rewrite grid_get_cell by assumption. cbn [rbind].
  rewrite Ht. pose proof (lines_by_position_lookup _ Hq) as Hl.
  destruct (getitem lines_by_position (fst (last_move b))) as [e|by_row]; [discriminate|].
  cbn [rbind] in Hl |- *. rewrite Hl. cbn [rbind].
  rewrite scan_lines_from_last_move_spec by (assumption || apply lines_for_position_ok).
  unfold line_through. now rewrite lines_for_position_exists.
Qed.

Lemma scan_lines_from_board_spec (g : Grid) (lines : list Line) :
  shaped g ->
  (forall line, line ∈ lines -> length line = 4%nat /\ (forall q, q ∈ line -> in_range q)) ->
  scan_lines_from_board g lines = inr (first_full_line g lines).
Proof.
  intros Hs. unfold first_full_line.
  induction lines as [|line rest IH]; intros Hok; [reflexivity|].
  destruct (Hok line (list_elem_of_here _ _)) as [Hlen Hr].
  destruct line as [|q0 [|q1 [|q2 [|q3 [|]]]]]; try discriminate.
  assert (Hq0 : in_range q0) by (apply Hr; solve_elem).
  assert (Hq1 : in_range q1) by (apply Hr; solve_elem).
  assert (Hq2 : in_range q2) by (apply Hr; solve_elem).
  assert (Hq3 : in_range q3) by (apply Hr; solve_elem).
  cbn [scan_lines_from_board find].
  unfold cell_not_empty, cells_equal.
  change (getitem [q0; q1; q2; q3] 0) with (@inr Exn _ q0).
  change (getitem [q0; q1; q2; q3] 1) with (@inr Exn _ q1).
  change (getitem [q0; q1; q2; q3] 2) with (@inr Exn _ q2).
  change (getitem [q0; q1; q2; q3] 3) with (@inr Exn _ q3).
  cbn [rbind]. rewrite !grid_get_cell by assumption. cbn [rbind].
  rewrite IH by (intros l Hl; apply Hok; now apply list_elem_of_further).
  cbn [full_line line_of forallb].
  rewrite (bool_decide_eq_true_2 (cell g q0 = cell g q0)) by reflexivity.
  destruct (bool_decide_reflect (cell g q0 = EMPTY)) as [E0|E0]; cbn; [reflexivity|].
  destruct (bool_decide_reflect (cell g q0 = cell g q1)) as [E1|E1]; cbn.
  2:{ rewrite bool_decide_eq_false_2 by congruence. reflexivity. }
  rewrite (bool_decide_eq_true_2 (cell g q1 = cell g q0)) by congruence.
  destruct (bool_decide_reflect (cell g q1 = cell g q2)) as [E2|E2]; cbn.
  2:{ rewrite (bool_decide_eq_false_2 (cell g q2 = cell g q0)) by congruence. reflexivity. }
  rewrite (bool_decide_eq_true_2 (cell g q2 = cell g q0)) by congruence.
  destruct (bool_decide_reflect (cell g q2 = cell g q3)) as [E3|E3]; cbn.
  2:{ rewrite (bool_decide_eq_false_2 (cell g q3 = cell g q0)) by congruence. reflexivity. }
  rewrite (bool_decide_eq_true_2 (cell g q3 = cell g q0)) by congruence. reflexivity.
Qed.

Lemma check_winner_from_board_spec (b : Connect4Board) :
  shaped (board b) -> winning_lines b = generate_winning_lines ->
  check_winner_from_board b = inr (first_full_line (board b) generate_winning_lines).
Proof.
  intros Hs Hl. unfold check_winner_from_board. rewrite Hl.
  apply scan_lines_from_board_spec; [assumption|apply generate_winning_lines_ok].
Qed.

(** ** One legal placement *)

Lemma counter_get_incr (c : gmap Z Z) (k k' : Z) :
  counter_get (counter_incr c k) k' =
  if decide (k = k') then counter_get c k + 1 else counter_get c k'.
Proof.
  unfold counter_incr, counter_get at 1. rewrite lookup_insert.
  destruct (decide (k = k')); reflexivity.
Qed.

Lemma heights_sum_unfold (c : gmap Z Z) :
  heights_sum c =
  counter_get c 0 + (counter_get c 1 + (counter_get c 2 + (counter_get c 3 +
  (counter_get c 4 + (counter_get c 5 + (counter_get c 6 + 0)))))).
Proof. reflexivity. Qed.

Lemma heights_sum_incr (c : gmap Z Z) (column : Z) :
  0 <= column < COLUMNS ->
  heights_sum (counter_incr c column) = heights_sum c + 1.
Proof.
  intros H. rewrite !heights_sum_unfold, !counter_get_incr.
  unfold COLUMNS in H.
  assert (column = 0 \/ column = 1 \/ column = 2 \/ column = 3 \/
          column = 4 \/ column = 5 \/ column = 6) as Hc by lia.
  repeat destruct Hc as [->|Hc]; try subst column;
    repeat (destruct (decide _); try lia).
Qed.

Lemma landing_in_range (p : Process) (b : Connect4Board) (column : Z) :
  board_ok p b -> legal p b column -> in_range (landing b column).
Proof.
  intros Hok [Hc Ha]. unfold landing, in_range. simpl.
  pose proof (ok_heights p b Hok column Hc).
  pose proof (ok_open p b Hok column Hc Ha).
  unfold ROWS in *. lia.
Qed.

Lemma move_available_nonneg (p : Process) (b : Connect4Board) (column : Z) :
  length (deref p (available_moves b)) = Z.to_nat COLUMNS -> 0 <= column < COLUMNS ->
  exists a, deref p (available_moves b) !! Z.to_nat column = Some a /\
            move_available p b column = inr a.
Proof.
  intros Hl Hc. unfold move_available. apply getitem_nonneg.
  rewrite Hl. unfold COLUMNS in *. lia.
Qed.

Lemma place_chip_legal (p : Process) (b : Connect4Board) (player : Colour) (column : Z) :
  board_ok p b -> legal p b column ->
  place_chip player column (p, b) = (placed p b player column, inr tt).
Proof.
  intros Hok Hlegal. pose proof Hlegal as [Hc Ha].
  pose proof (landing_in_range p b column Hok Hlegal) as Hq.
  destruct (grid_with_spec (board b) (landing b column) player (ok_shape p b Hok) Hq)
    as (Hset & Hs' & Hcell & _).
  unfold place_chip, bind, get_state, lift, on_self, modify, raise.
  cbn [fst snd].
  assert (Hset' : grid_set (board b) (ROWS - counter_get (column_chip_count b) column - 1)
                    column player
                  = inr (grid_with (board b) (landing b column) player)) by exact Hset.
  destruct (Z.ltb_spec (ROWS - counter_get (column_chip_count b) column - 1) 0) as [Hneg|_].
  { destruct Hq as [Hq _]. unfold landing in Hq. simpl in Hq. lia. }
  rewrite Hset'.
  unfold __update_column_availability, bind, get_state, on_self, modify, ret.
  cbn [fst snd set_board set_column_chip_count column_chip_count].
  rewrite counter_get_incr. destruct (decide (column = column)) as [_|]; [|congruence].
  assert (Hlen : 0 <= column < Z.of_nat (length (deref p (available_moves b)))).
  { rewrite (ok_avail_length p b Hok). unfold COLUMNS in *. lia. }
  assert (Hw : forall b1,
             board b1 = grid_with (board b) (landing b column) player ->
             last_move b1 = landing b column ->
             winning_lines_by_positions b1 = winning_lines_by_positions b ->
             check_winner_from_last_move b1 =
             inr (if immediate_win b player column then player else EMPTY)).
  { intros b1 Hb Hm Ht.
    rewrite check_winner_from_last_move_spec.
    - rewrite Hb, Hm, Hcell. unfold immediate_win.
      destruct (bool_decide_reflect (player = EMPTY)) as [->|Hne]; cbn [negb andb].
      + now destruct (line_through _ _ _).
      + reflexivity.
    - now rewrite Hb.
    - rewrite Ht. apply (ok_by_position p b Hok).
    - now rewrite Hm. }
  unfold placed, close_after.
  destruct (Z.eqb_spec (counter_get (column_chip_count b) column + 1) ROWS) as [E|E].
  - unfold close_column. cbn [available_moves set_board set_column_chip_count].
    rewrite setitem_nonneg by exact Hlen.
    destruct (available_moves b) eqn:Eref; cbn [fst snd];
      rewrite Hw by reflexivity;
      unfold set_winner, set_last_move, set_moves_made, set_available_moves,
        set_column_chip_count, set_board;
      cbn [moves_made last_move winner board column_chip_count available_moves
           winning_lines winning_lines_by_positions deref];
      rewrite ?Eref; reflexivity.
  - cbn [fst snd]. rewrite Hw by reflexivity. reflexivity.
Qed.

Lemma move_available_closed (p : Process) (b : Connect4Board) (column c : Z) :
  length (deref p (available_moves b)) = Z.to_nat COLUMNS ->
  0 <= column < COLUMNS -> 0 <= c < COLUMNS ->
  getitem (<[Z.to_nat column := false]> (deref p (available_moves b))) c =
  if decide (column = c) then inr false else move_available p b c.
Proof.
  intros Hl Hcol Hc. unfold move_available, getitem.
  rewrite length_insert, Hl.
  rewrite py_index_nonneg by (unfold COLUMNS in *; lia).
  destruct (decide (column = c)) as [->|Hne].
  - rewrite list_lookup_insert_eq; [reflexivity|]. rewrite Hl. unfold COLUMNS in *. lia.
  - rewrite list_lookup_insert_ne by lia. reflexivity.
Qed.

Lemma deref_placed (p : Process) (b : Connect4Board) (player : Colour) (column : Z) :
  deref (fst (placed p b player column)) (available_moves (snd (placed p b player column))) =
  if counter_get (column_chip_count b) column + 1 =? ROWS
  then <[Z.to_nat column := false]> (deref p (available_moves b))
  else deref p (available_moves b).
Proof.
  unfold placed, close_after. cbn [fst snd available_moves].
  destruct (counter_get (column_chip_count b) column + 1 =? ROWS); [|reflexivity].
  destruct (available_moves b); reflexivity.
Qed.

Lemma placed_ok (p : Process) (b : Connect4Board) (player : Colour) (column : Z) :
  board_ok p b -> legal p b column ->
  board_ok (fst (placed p b player column)) (snd (placed p b player column)).
Proof.
  intros Hok Hlegal. pose proof Hlegal as [Hc Ha].
  pose proof (landing_in_range p b column Hok Hlegal) as Hq.
  destruct (grid_with_spec (board b) (landing b column) player (ok_shape p b Hok) Hq)
    as (_ & Hs' & _ & _).
  pose proof (ok_heights p b Hok column Hc) as Hh.
  pose proof (ok_open p b Hok column Hc Ha) as Ho.
  assert (Hl' : length (deref (fst (placed p b player column))
                          (available_moves (snd (placed p b player column))))
                = Z.to_nat COLUMNS).
  { rewrite deref_placed.
    destruct (_ =? _); rewrite ?length_insert; apply (ok_avail_length p b Hok). }
  constructor.
  - exact Hs'.
  - exact Hl'.
  - intros c Hcr. cbn [placed snd column_chip_count]. rewrite counter_get_incr.
    pose proof (ok_heights p b Hok c Hcr). destruct (decide (column = c)); lia.
  - intros c Hcr. unfold move_available. rewrite deref_placed.
    cbn [placed snd column_chip_count]. rewrite counter_get_incr.
    pose proof (ok_heights p b Hok c Hcr) as Hhc.
    destruct (Z.eqb_spec (counter_get (column_chip_count b) column + 1) ROWS) as [E|E].
    + rewrite move_available_closed by (assumption || apply (ok_avail_length p b Hok)).
      destruct (decide (column = c)); [discriminate|]. apply (ok_open p b Hok c Hcr).
    + intros Hav. destruct (decide (column = c)) as [<-|_]; [lia|].
      now apply (ok_open p b Hok c Hcr).
  - intros c Hcr. cbn [placed snd column_chip_count]. rewrite counter_get_incr.
    destruct (decide (column = c)) as [<-|_]; [contradiction|].
    now apply (ok_keys p b Hok).
  - cbn [placed snd moves_made column_chip_count].
    rewrite heights_sum_incr by exact Hc. now rewrite (ok_moves p b Hok).
  - right. exact Hq.
  - apply (ok_lines p b Hok).
  - apply (ok_by_position p b Hok).
Qed.

(** ** Boards reached by legal placements *)

Lemma init_static_ready (p : Process) : process_ok p -> static_ready (init_static p).
Proof.
  intros [_ [[H1 H2]|[H1 H2]]]; unfold static_ready, init_static; cbn;
    rewrite H1, H2; split; reflexivity.
Qed.

Lemma init_static_ok (p : Process) : process_ok p -> process_ok (init_static p).
Proof.
  intros H. split.
  - apply H.
  - right. now apply init_static_ready.
Qed.

Lemma init_static_idle (p : Process) : static_ready p -> init_static p = p.
Proof. intros [H1 H2]. destruct p. cbn in *. unfold init_static. cbn. now rewrite H1, H2. Qed.

Lemma counter_get_zero (c : Z) : 0 <= c < COLUMNS -> counter_get zero_counter c = 0.
Proof.
  unfold COLUMNS. intros H.
  assert (c = 0 \/ c = 1 \/ c = 2 \/ c = 3 \/ c = 4 \/ c = 5 \/ c = 6) as Hc by lia.
  repeat destruct Hc as [->|Hc]; try subst c; reflexivity.
Qed.

Lemma counter_get_zero_any (c : Z) : counter_get zero_counter c = 0.
Proof.
  unfold counter_get. destruct (zero_counter !! c) as [v|] eqn:E; [|reflexivity].
  cbn. unfold zero_counter in E. apply elem_of_list_to_map_2 in E.
  apply list_elem_of_In, in_map_iff in E as (k & Ek & _). congruence.
Qed.

Lemma new_board_spec (p : Process) :
  process_ok p ->
  exists b, new_board p = (init_static p, inr b) /\ board_ok (init_static p) b /\
            winner b = EMPTY /\ last_move b = (-1, -1) /\ board b = empty_grid /\
            column_chip_count b = zero_counter /\ moves_made b = 0 /\
            available_moves b = DefaultArg.
Proof.
  intros Hp. destruct (init_static_ready p Hp) as [H1 H2].
  eexists. split; [reflexivity|]. split; [|repeat split].
  constructor.
  - cbn. split; [reflexivity|]. repeat constructor.
  - cbn. apply Hp.
  - intros c Hc. cbn. rewrite counter_get_zero by exact Hc. unfold ROWS. lia.
  - intros c Hc _. cbn. rewrite counter_get_zero by exact Hc. unfold ROWS. lia.
  - intros c _. cbn. apply counter_get_zero_any.
  - reflexivity.
  - now left.
  - cbn [winning_lines]. now rewrite H1.
  - cbn [winning_lines_by_positions]. now rewrite H2.
Qed.

Lemma board_ok_shared (p : Process) (b : Connect4Board) (column : Z) :
  board_ok p b -> 0 <= column < COLUMNS ->
  board_ok (set_default_available_moves
              (<[Z.to_nat column := false]> (default_available_moves p)) p) b.
Proof.
  intros Hok Hc.
  set (p' := set_default_available_moves _ p).
  assert (Hd : deref p' (available_moves b) =
               match available_moves b with
               | DefaultArg => <[Z.to_nat column := false]> (deref p (available_moves b))
               | Own l => l
               end).
  { destruct (available_moves b); reflexivity. }
  constructor; try apply Hok.
  - rewrite Hd. pose proof (ok_avail_length p b Hok) as Hl.
    destruct (available_moves b); [now rewrite length_insert|exact Hl].
  - intros c Hcr. unfold move_available at 1. rewrite Hd.
    destruct (available_moves b) eqn:E.
    + rewrite <- E.
      rewrite move_available_closed by (assumption || apply (ok_avail_length p b Hok)).
      destruct (decide (column = c)); [discriminate|]. apply (ok_open p b Hok c Hcr).
    + intros Hav. apply (ok_open p b Hok c Hcr). unfold move_available. now rewrite E.
Qed.

Lemma process_ok_placed (p : Process) (b : Connect4Board) (player : Colour) (column : Z) :
  process_ok p -> static_ready p ->
  process_ok (fst (placed p b player column)) /\ static_ready (fst (placed p b player column)).
Proof.
  intros Hp Hr. unfold placed, close_after. cbn [fst].
  destruct (_ =? _); [|now split].
  destruct (available_moves b); cbn [fst]; [|now split].
  split; [split|]; cbn.
  - rewrite length_insert. apply Hp.
  - now right.
  - exact Hr.
Qed.

Lemma reachable_ok (in_play : bool) (p : Process) (b : Connect4Board) :
  reachable in_play p b -> board_ok p b /\ process_ok p /\ static_ready p.
Proof.
  induction 1 as [p p' b Hp Hnew | p b player column p' b' Hreach IH Hlegal _ Hplace
                 | p b column Hreach IH Hc].
  - destruct (new_board_spec p Hp) as (b0 & E & Hok & _).
    rewrite E in Hnew. injection Hnew as <- <-.
    split; [exact Hok|]. split; [now apply init_static_ok|now apply init_static_ready].
  - destruct IH as (Hok & Hp & Hr).
    rewrite place_chip_legal in Hplace by assumption.
    injection Hplace as Hp' Hb'.
    pose proof (placed_ok p b player column Hok Hlegal) as Hok'.
    pose proof (process_ok_placed p b player column Hp Hr) as [Hp1 Hp2].
    unfold placed in Hok', Hp1, Hp2. cbn [fst snd] in Hok', Hp1, Hp2.
    rewrite Hp', Hb' in Hok'. rewrite Hp' in Hp1, Hp2.
    split; [exact Hok'|]. split; assumption.
  - destruct IH as (Hok & Hp & Hr). split; [now apply board_ok_shared|].
    split; [split|]; cbn.
    + rewrite length_insert. apply Hp.
    + now right.
    + exact Hr.
Qed.

(** ** Agreement of the two win checks during a game *)

Lemma line_of_cells (g : Grid) (colour : Colour) (line : Line) :
  line_of g colour line = true <-> forall q, q ∈ line -> cell g q = colour.
Proof.
  unfold line_of. rewrite forallb_forall. split.
  - intros H q Hq. apply list_elem_of_In in Hq. apply H in Hq.
    now apply bool_decide_eq_true_1 in Hq.
  - intros H q Hq. apply bool_decide_eq_true_2, H. now apply list_elem_of_In.
Qed.

Lemma line_of_ext (g g' : Grid) (colour : Colour) (line : Line) :
  (forall q, q ∈ line -> cell g' q = cell g q) ->
  line_of g' colour line = line_of g colour line.
Proof.
  intros H. unfold line_of. induction line as [|q rest IH]; [reflexivity|].
  cbn [forallb]. rewrite H by apply list_elem_of_here.
  f_equal. apply IH. intros q' Hq'. apply H. now apply list_elem_of_further.
Qed.

Lemma full_line_colour (g : Grid) (line : Line) :
  full_line g line = true ->
  exists colour, colour <> EMPTY /\ line_of g colour line = true /\
                 match line with q :: _ => cell g q = colour | [] => False end.
Proof.
  destruct line as [|q rest]; [discriminate|]. cbn [full_line].
  intros H. apply andb_true_iff in H as [H1 H2].
  exists (cell g q). repeat split; try assumption.
  apply negb_true_iff in H1. now apply bool_decide_eq_false_1 in H1.
Qed.

Lemma full_line_after (g : Grid) (q : Coord) (player : Colour) (line : Line) :
  shaped g -> in_range q -> (forall q', q' ∈ line -> in_range q') ->
  full_line g line = false ->
  full_line (grid_with g q player) line =
  negb (bool_decide (player = EMPTY)) &&
  (bool_decide (q ∈ line) && line_of (grid_with g q player) player line).
Proof.
  intros Hs Hq Hr Hnot.
  destruct (grid_with_spec g q player Hs Hq) as (_ & _ & Hcell & Hother).
  set (g' := grid_with g q player) in *.
  destruct (bool_decide_reflect (q ∈ line)) as [Hin|Hout].
  - destruct (full_line g' line) eqn:Ef.
    + destruct (full_line_colour g' line Ef) as (colour & Hne & Hall & _).
      rewrite line_of_cells in Hall.
      assert (colour = player) as -> by (now rewrite <- (Hall q Hin)).
      rewrite bool_decide_eq_false_2 by exact Hne. cbn. symmetry.
      now apply line_of_cells.
    + destruct (bool_decide_reflect (player = EMPTY)) as [E|E]; [reflexivity|]. cbn.
      destruct (line_of g' player line) eqn:El; [|reflexivity].
      exfalso. destruct line as [|q0 rest]; [inversion Hin|].
      cbn [full_line] in Ef.
      assert (Hq0 : cell g' q0 = player).
      { apply (proj1 (line_of_cells g' player (q0 :: rest)) El), list_elem_of_here. }
      rewrite Hq0, El in Ef. rewrite bool_decide_eq_false_2 in Ef by exact E.
      discriminate.
  - cbn [andb]. rewrite andb_false_r. rewrite <- Hnot.
    assert (Hsame : forall q', q' ∈ line -> cell g' q' = cell g q').
    { intros q' Hq'. apply Hother; [now apply Hr|]. intros ->. contradiction. }
    destruct line as [|q0 rest]; [reflexivity|]. cbn [full_line].
    rewrite (Hsame q0) by apply list_elem_of_here.
    f_equal. now apply line_of_ext.
Qed.

Lemma find_none_all {A : Type} (f : A -> bool) (l : list A) :
  find f l = None <-> forall x, x ∈ l -> f x = false.
Proof.
  induction l as [|a l IH]; cbn.
  - split; [intros _ x Hx; inversion Hx|reflexivity].
  - destruct (f a) eqn:E.
    + split; [discriminate|]. intros H. rewrite H in E by apply list_elem_of_here.
      discriminate.
    + rewrite IH. split.
      * intros H x Hx. inversion Hx; subst; [exact E|now apply H].
      * intros H x Hx. apply H. now apply list_elem_of_further.
Qed.

Lemma first_full_line_empty (g : Grid) (lines : list Line) :
  first_full_line g lines = EMPTY -> forall line, line ∈ lines -> full_line g line = false.
Proof.
  unfold first_full_line. intros H. apply find_none_all.
  destruct (find (full_line g) lines) as [line|] eqn:E; [|reflexivity].
  apply find_some in E as [_ Ef].
  destruct (full_line_colour g line Ef) as (colour & Hne & _ & Hq).
  destruct line as [|q rest]; [contradiction|]. congruence.
Qed.

Lemma first_full_line_after (b : Connect4Board) (player : Colour) (column : Z) :
  shaped (board b) -> in_range (landing b column) ->
  first_full_line (board b) generate_winning_lines = EMPTY ->
  first_full_line (grid_with (board b) (landing b column) player) generate_winning_lines =
  if immediate_win b player column then player else EMPTY.
Proof.
  intros Hs Hq Hnone.
  pose proof (first_full_line_empty _ _ Hnone) as Hno.
  set (g' := grid_with (board b) (landing b column) player).
  assert (Hfull : forall line, line ∈ generate_winning_lines ->
            full_line g' line =
            negb (bool_decide (player = EMPTY)) &&
            (bool_decide (landing b column ∈ line) && line_of g' player line)).
  { intros line Hl. apply full_line_after; try assumption.
    - apply (generate_winning_lines_ok line Hl).
    - now apply Hno. }
  unfold immediate_win, line_through. fold g'. unfold first_full_line.
  destruct (find (full_line g') generate_winning_lines) as [line|] eqn:E.
  - apply find_some in E as [Hin Ef]. apply list_elem_of_In in Hin.
    pose proof Ef as Ef'. rewrite (Hfull line Hin) in Ef'.
    apply andb_true_iff in Ef' as [Hne Hthrough].
    rewrite Hne. cbn [andb].
    assert (Hex : existsb (fun line0 => bool_decide (landing b column ∈ line0) &&
                                        line_of g' player line0)
                          generate_winning_lines = true).
    { apply existsb_exists. exists line. split; [now apply list_elem_of_In|exact Hthrough]. }
    rewrite Hex. apply andb_true_iff in Hthrough as [_ Hall].
    rewrite line_of_cells in Hall.
    destruct line as [|q0 rest]; [discriminate|]. apply Hall, list_elem_of_here.
  - rewrite find_none_all in E.
    destruct (negb (bool_decide (player = EMPTY))) eqn:Hne; [|reflexivity]. cbn [andb].
    destruct (existsb _ generate_winning_lines) eqn:Hex; [|reflexivity].
    apply existsb_exists in Hex as (line & Hin & Hthrough).
    apply list_elem_of_In in Hin.
    pose proof (E line Hin) as Ef. rewrite (Hfull line Hin), Hthrough in Ef.
    discriminate.
Qed.

Lemma placed_check_last (p : Process) (b : Connect4Board) (player : Colour) (column : Z) :
  board_ok p b -> legal p b column ->
  check_winner_from_last_move (snd (placed p b player column)) =
  inr (winner (snd (placed p b player column))).
Proof.
  intros Hok Hlegal.
  pose proof (landing_in_range p b column Hok Hlegal) as Hq.
  destruct (grid_with_spec (board b) (landing b column) player (ok_shape p b Hok) Hq)
    as (_ & Hs' & Hcell & _).
  rewrite check_winner_from_last_move_spec; cbn [placed snd board last_move winner
    winning_lines_by_positions]; try assumption; [|apply (ok_by_position p b Hok)].
  rewrite Hcell. unfold immediate_win.
  destruct (bool_decide_reflect (player = EMPTY)) as [->|Hne]; cbn [negb andb].
  - now destruct (line_through _ _ _).
  - reflexivity.
Qed.

Lemma still_playing_winner (b : Connect4Board) :
  still_playing b = true -> winner b = EMPTY /\ moves_made b <> ROWS * COLUMNS.
Proof.
  unfold still_playing.
  destruct (bool_decide_reflect (winner b = EMPTY)) as [E|E]; cbn; [|discriminate].
  destruct (Z.eqb_spec (moves_made b) (ROWS * COLUMNS)); [discriminate|]. now split.
Qed.

Lemma in_play_agreement (p : Process) (b : Connect4Board) :
  reachable true p b ->
  check_winner_from_last_move b = inr (winner b) /\
  first_full_line (board b) generate_winning_lines = winner b.
Proof.
  induction 1 as [p p' b Hp Hnew | p b player column p' b' Hreach IH Hlegal Hplay Hplace
                 | p b column Hreach IH Hc].
  - destruct (new_board_spec p Hp) as (b0 & E & Hok & Hw & Hl & Hg & _).
    rewrite E in Hnew. injection Hnew as <- <-. split.
    + unfold check_winner_from_last_move. now rewrite Hl, Hw.
    + rewrite Hg, Hw. vm_compute. reflexivity.
  - destruct (reachable_ok _ _ _ Hreach) as (Hok & _).
    destruct IH as [_ IH].
    destruct (still_playing_winner b (Hplay eq_refl)) as [Hw _].
    rewrite place_chip_legal in Hplace by assumption.
    injection Hplace as Hp' Hb'. subst b'. split.
    + now apply (placed_check_last p b player column).
    + cbn [board winner]. apply first_full_line_after.
      * apply (ok_shape p b Hok).
      * now apply (landing_in_range p b column).
      * now rewrite IH.
  - exact IH.
Qed.

(** ** Deep copies *)

Lemma map_same {A : Type} (l : list A) : map (fun x => x) l = l.
Proof. induction l as [|a l IH]; cbn; [reflexivity|now rewrite IH]. Qed.

Lemma deepcopy_spec (p : Process) (b : Connect4Board) :
  __deepcopy__ b p = (init_static p, inr (copy_of p b)).
Proof.
  unfold __deepcopy__, __init__, copy_of. rewrite map_same.
  replace (map (fun row : list Colour => map (fun col => col) row) (board b)) with (board b).
  2:{ induction (board b) as [|row g IH]; cbn; [reflexivity|].
      now rewrite map_same, <- IH. }
  now destruct (last_move b).
Qed.

Lemma copy_of_ok (p : Process) (b : Connect4Board) :
  static_ready p -> board_ok p b -> board_ok p (copy_of p b).
Proof.
  intros Hr Hok. rewrite <- (init_static_idle p Hr) at 1.
  destruct Hr as [H1 H2].
  constructor; try apply Hok.
  - cbn [copy_of winning_lines]. rewrite init_static_idle by now split. now rewrite H1.
  - cbn [copy_of winning_lines_by_positions].
    rewrite init_static_idle by now split. now rewrite H2.
Qed.

Lemma copy_of_placed_process (p : Process) (b : Connect4Board) (player : Colour) (column : Z) :
  fst (placed p (copy_of p b) player column) = p.
Proof.
  unfold placed, close_after. cbn [fst copy_of available_moves].
  now destruct (_ =? _).
Qed.

(** ** solveNaive *)

Lemma range_cons (lo hi : Z) : lo < hi -> range lo hi = lo :: range (lo + 1) hi.
Proof.
  intros H. unfold range.
  replace (Z.to_nat (hi - lo)) with (S (Z.to_nat (hi - (lo + 1)))) by lia.
  cbn [seq map]. f_equal; [lia|].
  rewrite <- seq_shift, map_map. apply map_ext. intros k. lia.
Qed.

Lemma range_nil (lo hi : Z) : hi <= lo -> range lo hi = [].
Proof. intros H. unfold range. now replace (Z.to_nat (hi - lo)) with O by lia. Qed.

Lemma find_range_first (f : Z -> bool) (lo hi : Z) :
  match find f (range lo hi) with
  | Some r => lo <= r < hi /\ f r = true /\ (forall c, lo <= c < r -> f c = false)
  | None => forall c, lo <= c < hi -> f c = false
  end.
Proof.
  remember (Z.to_nat (hi - lo)) as n eqn:En. revert lo En.
  induction n as [|n IH]; intros lo En.
  - rewrite range_nil by lia. cbn. intros c Hc. lia.
  - rewrite range_cons by lia. cbn [find].
    destruct (f lo) eqn:E.
    + repeat split; try lia. exact E.
    + specialize (IH (lo + 1) ltac:(lia)).
      destruct (find f (range (lo + 1) hi)) as [r|].
      * destruct IH as (Hr & Hf & Hmin). repeat split; try lia; [exact Hf|].
        intros c Hc. destruct (Z.eq_dec c lo) as [->|Hne]; [exact E|]. apply Hmin. lia.
      * intros c Hc. destruct (Z.eq_dec c lo) as [->|Hne]; [exact E|]. apply IH. lia.
Qed.

Lemma immediate_win_copy (p : Process) (b : Connect4Board) (player : Colour) (column : Z) :
  immediate_win (copy_of p b) player column = immediate_win b player column.
Proof. reflexivity. Qed.

Lemma immediate_win_player (b : Connect4Board) (player : Colour) (column : Z) :
  immediate_win b player column = true -> player <> EMPTY.
Proof.
  unfold immediate_win. intros H. apply andb_true_iff in H as [H _].
  apply negb_true_iff in H. now apply bool_decide_eq_false_1 in H.
Qed.

(** One hypothetical move of the solver: clone, place, read the winner. *)
Lemma clone_and_place (p : Process) (b : Connect4Board) (player : Colour) (column : Z) :
  static_ready p -> board_ok p b -> legal p b column ->
  (new_board <- __deepcopy__ b ; call new_board (place_chip player column)) p =
  (p, inr (snd (placed p (copy_of p b) player column))).
Proof.
  intros Hr Hok [Hc Ha]. unfold bind. rewrite deepcopy_spec.
  rewrite init_static_idle by exact Hr. unfold call.
  rewrite place_chip_legal.
  - pose proof (copy_of_placed_process p b player column) as E.
    destruct (placed p (copy_of p b) player column) as [p' b']. cbn in E. now subst.
  - now apply copy_of_ok.
  - split; [exact Hc|]. exact Ha.
Qed.

Lemma solveNaive_loop_spec (p : Process) (b : Connect4Board) (player : Colour)
    (cols : list Z) :
  static_ready p -> board_ok p b -> (forall c, c ∈ cols -> 0 <= c < COLUMNS) ->
  solveNaive_loop b player cols p =
  (p, inr match find (fun c => is_open p b c && immediate_win b player c) cols with
          | Some c => c
          | None => -1
          end).
Proof.
  intros Hr Hok. induction cols as [|col rest IH]; intros Hcols; [reflexivity|].
  assert (Hc : 0 <= col < COLUMNS) by apply Hcols, list_elem_of_here.
  assert (IH' := IH (fun c Hin => Hcols c (list_elem_of_further _ _ _ Hin))).
  cbn [solveNaive_loop find]. unfold bind at 1, ask_move_available at 1. unfold is_open at 1.
  destruct (move_available_nonneg p b col (ok_avail_length p b Hok) Hc) as (a & _ & Ea).
  rewrite Ea. destruct a; cbn [andb]; [|exact IH'].
  pose proof (clone_and_place p b player col Hr Hok (conj Hc Ea)) as Hclone.
  unfold bind in Hclone |- *.
  destruct (__deepcopy__ b p) as [p1 [e|nb]]; [discriminate|].
  destruct (call nb (place_chip player col) p1) as [p2 [e|nb']]; [discriminate|].
  injection Hclone as -> ->.
  unfold get_winner. cbn [placed snd winner]. rewrite immediate_win_copy.
  destruct (immediate_win b player col) eqn:Ew.
  - rewrite bool_decide_eq_false_2 by (now apply immediate_win_player in Ew).
    reflexivity.
  - cbn. exact IH'.
Qed.

Lemma range_elem (lo hi c : Z) : c ∈ range lo hi -> lo <= c < hi.
Proof.
  unfold range. intros H. apply list_elem_of_In, in_map_iff in H as (k & <- & Hk).
  apply in_seq in Hk. lia.
Qed.

Lemma solveNaive_spec (p : Process) (b : Connect4Board) (player : Colour) :
  static_ready p -> board_ok p b ->
  solveNaive b player p = (p, inr (first_winning_column p b player)).
Proof.
  intros Hr Hok. unfold solveNaive, first_winning_column.
  apply solveNaive_loop_spec; try assumption. intros c. apply range_elem.
Qed.

(** ** Games played from a fresh process *)

Lemma process_start_ok : process_ok process_start.
Proof. split; [reflexivity|]. left. split; reflexivity. Qed.

Lemma is_open_true (p : Process) (b : Connect4Board) (column : Z) :
  is_open p b column = true <-> move_available p b column = inr true.
Proof.
  unfold is_open. destruct (move_available p b column) as [e|[|]]; split;
    congruence || reflexivity.
Qed.

Lemma place_chips_reachable (in_play : bool) (moves : list (Colour * Z)) :
  forall p b, reachable in_play p b -> legal_from in_play moves (p, b) = true ->
  exists p' b', place_chips moves (p, b) = ((p', b'), inr tt) /\ reachable in_play p' b'.
Proof.
  induction moves as [|[player column] rest IH]; intros p b Hreach Hlegal.
  - exists p, b. split; [reflexivity|exact Hreach].
  - cbn [legal_from fst snd] in Hlegal.
    repeat (apply andb_true_iff in Hlegal as [Hlegal ?]).
    destruct (place_chip player column (p, b)) as [[p1 b1] [e|[]]] eqn:E;
      [discriminate|].
    assert (Hstep : reachable in_play p1 b1).
    { eapply reachable_place; [exact Hreach| |  |exact E].
      - split; [lia|now apply is_open_true].
      - intros ->. cbn in *. assumption. }
    destruct (IH p1 b1 Hstep) as (p' & b' & Erun & Hreach'); [assumption|].
    exists p', b'. split; [|exact Hreach'].
    cbn [place_chips]. unfold bind. now rewrite E.
Qed.

Lemma legal_game_reachable (in_play : bool) (moves : list (Colour * Z)) :
  legal_game in_play moves = true ->
  exists p b, play_moves moves process_start = (p, inr b) /\ reachable in_play p b.
Proof.
  unfold legal_game, first_board, play_moves, bind. intros Hlegal.
  destruct (new_board process_start) as [p0 [e|b0]] eqn:E; [discriminate|].
  assert (Hreach : reachable in_play p0 b0).
  { eapply reachable_new; [apply process_start_ok|exact E]. }
  destruct (place_chips_reachable in_play moves p0 b0 Hreach Hlegal)
    as (p & b & Erun & Hr).
  exists p, b. split; [|exact Hr]. unfold call. now rewrite Erun.
Qed.

(** [place_chip] leaves in [winner] what the incremental check answers on
    the board it leaves, whatever the board it started from. *)
Lemma place_chip_winner (p : Process) (b : Connect4Board) (player : Colour) (column : Z)
    (p' : Process) (b' : Connect4Board) :
  place_chip player column (p, b) = ((p', b'), inr tt) ->
  check_winner_from_last_move b' = inr (winner b').
Proof.
  unfold place_chip, bind, get_state, lift, raise, on_self, modify. cbn [fst snd].
  destruct (_ <? 0); cbn beta; [discriminate|].
  destruct (grid_set _ _ _ _) as [e|g]; [discriminate|]. cbn [fst snd].
  destruct (__update_column_availability column (p, set_board g b))
    as [[p1 b1] [e|[]]]; [discriminate|].
  cbn [fst snd].
  destruct (check_winner_from_last_move _) as [e|w] eqn:E; [discriminate|].
  intros [= <- <-]. cbn [winner set_winner]. rewrite <- E. reflexivity.
Qed.

(** ** Heights and open columns *)

(** What holds of the heights on every reachable board, other boards of
    the process included in the picture. *)
Lemma reachable_heights (in_play : bool) (p : Process) (b : Connect4Board) :
  reachable in_play p b ->
  moves_made b = heights_sum (column_chip_count b) /\
  (forall c, 0 <= c < COLUMNS -> 0 <= counter_get (column_chip_count b) c <= ROWS) /\
  (forall c, 0 <= c < COLUMNS -> move_available p b c = inr true ->
             counter_get (column_chip_count b) c < ROWS).
Proof.
  intros Hreach. destruct (reachable_ok _ _ _ Hreach) as (Hok & _).
  split; [apply (ok_moves p b Hok)|]. split; [apply (ok_heights p b Hok)|].
  apply (ok_open p b Hok).
Qed.

Lemma placed_closed_only_when_full
    (p : Process) (b : Connect4Board) (player : Colour) (column : Z) :
  board_ok p b -> legal p b column -> closed_only_when_full p b ->
  closed_only_when_full (fst (placed p b player column)) (snd (placed p b player column)).
Proof.
  intros Hok [Hc Ha] Hinv c Hcr. unfold move_available. rewrite deref_placed.
  cbn [placed snd column_chip_count]. rewrite counter_get_incr.
  destruct (Z.eqb_spec (counter_get (column_chip_count b) column + 1) ROWS) as [E|E].
  - rewrite move_available_closed by (assumption || apply (ok_avail_length p b Hok)).
    destruct (decide (column = c)) as [<-|_]; [intros _; exact E|]. now apply Hinv.
  - destruct (decide (column = c)) as [<-|_]; [|now apply Hinv].
    fold (move_available p b column). rewrite Ha. discriminate.
Qed.

Lemma place_chips_closed_only_when_full (moves : list (Colour * Z)) :
  forall p b p' b',
    board_ok p b -> closed_only_when_full p b ->
    legal_from false moves (p, b) = true ->
    place_chips moves (p, b) = ((p', b'), inr tt) ->
    board_ok p' b' /\ closed_only_when_full p' b'.
Proof.
  induction moves as [|[player column] rest IH]; intros p b p' b' Hok Hinv Hlegal Hrun.
  - injection Hrun as <- <-. now split.
  - cbn [legal_from fst snd] in Hlegal.
    repeat (apply andb_true_iff in Hlegal as [Hlegal ?]).
    assert (Hl : legal p b column) by (split; [lia|now apply is_open_true]).
    cbn [place_chips] in Hrun. unfold bind in Hrun.
    rewrite place_chip_legal in * by assumption.
    destruct (placed p b player column) as [p1 b1] eqn:E.
    apply (IH p1 b1); try assumption.
    + pose proof (placed_ok p b player column Hok Hl) as Hok1. now rewrite E in Hok1.
    + pose proof (placed_closed_only_when_full p b player column Hok Hl Hinv) as Hinv1.
      now rewrite E in Hinv1.
Qed.

(** On the first board of a process, reached by legal placements while no
    other board is in use, a column is open exactly when its height is
    below 6. *)
Lemma first_board_open_iff (moves : list (Colour * Z)) (p : Process) (b : Connect4Board) :
  legal_game false moves = true ->
  play_moves moves process_start = (p, inr b) ->
  forall c, 0 <= c < COLUMNS ->
            (move_available p b c = inr true <-> counter_get (column_chip_count b) c < ROWS).
Proof.
  unfold legal_game, first_board, play_moves, bind.
  destruct (new_board_spec process_start process_start_ok)
    as (b0 & E0 & Hok0 & _ & _ & _ & Hcnt & _ & Ha0).
  rewrite E0. intros Hlegal Hrun c Hc. unfold call in Hrun.
  destruct (place_chips moves (init_static process_start, b0)) as [[p1 b1] [e|[]]] eqn:E;
    [discriminate|]. injection Hrun as <- <-.
  assert (Hinv0 : closed_only_when_full (init_static process_start) b0).
  { intros c0 Hc0. unfold move_available. rewrite Ha0. unfold COLUMNS in Hc0.
    assert (c0 = 0 \/ c0 = 1 \/ c0 = 2 \/ c0 = 3 \/ c0 = 4 \/ c0 = 5 \/ c0 = 6) as H by lia.
    repeat destruct H as [->|H]; try subst c0; vm_compute; discriminate. }
  destruct (place_chips_closed_only_when_full moves _ _ _ _ Hok0 Hinv0 Hlegal E)
    as [Hok1 Hinv1].
  split; [apply (ok_open p1 b1 Hok1 c Hc)|]. intros Hlt.
  destruct (move_available_nonneg p1 b1 c (ok_avail_length p1 b1 Hok1) Hc) as (a & _ & Ea).
  destruct a; [exact Ea|]. pose proof (Hinv1 c Hc Ea). lia.
Qed.

(** ** The minimax recursion *)

(** The loop of [place_chip_recursive] is left at once when column 0 is
    not available, whatever the other columns are. *)
Lemma place_chip_recursive_first_column_full
    (p : Process) (b : Connect4Board) (player : Colour) (depth : Z) :
  move_available p b 0 = inr false ->
  place_chip_recursive b player depth p = (p, inr 0).
Proof.
  intros Ha. unfold place_chip_recursive.
  destruct (Z.to_nat (depth - 1)); cbn [place_chip_recursive_levels];
    rewrite (range_cons 0 COLUMNS) by (unfold COLUMNS; lia);
    cbn [place_chip_recursive_loop]; unfold bind, ask_move_available;
    rewrite Ha; reflexivity.
Qed.

Lemma player_value_cases (player : Colour) :
  __player_value player = 1 \/ __player_value player = -1.
Proof. destruct player; [right|left|right]; reflexivity. Qed.

Lemma alternate_player_value (player : Colour) :
  __player_value (__alternate_colour player) = - __player_value player.
Proof. destruct player; reflexivity. Qed.

Lemma fold_left_max_in (values : list Z) (v x y : Z) :
  (v = x \/ v = y) -> (forall w, w ∈ values -> w = x \/ w = y) ->
  fold_left Z.max values v = x \/ fold_left Z.max values v = y.
Proof.
  revert v. induction values as [|w rest IH]; intros v Hv Hall; [exact Hv|].
  cbn [fold_left]. apply IH.
  - destruct (Hall w (list_elem_of_here _ _)), Hv; subst; lia.
  - intros w' Hw'. apply Hall. now apply list_elem_of_further.
Qed.

Lemma fold_left_min_in (values : list Z) (v x y : Z) :
  (v = x \/ v = y) -> (forall w, w ∈ values -> w = x \/ w = y) ->
  fold_left Z.min values v = x \/ fold_left Z.min values v = y.
Proof.
  revert v. induction values as [|w rest IH]; intros v Hv Hall; [exact Hv|].
  cbn [fold_left]. apply IH.
  - destruct (Hall w (list_elem_of_here _ _)), Hv; subst; lia.
  - intros w' Hw'. apply Hall. now apply list_elem_of_further.
Qed.

Lemma node_value_in (player : Colour) (values : list Z) (y : Z) :
  (forall w, w ∈ values -> w = 0 \/ w = y) ->
  node_value player values = 0 \/ node_value player values = y.
Proof.
  intros Hall. unfold node_value.
  destruct values as [|v rest]; [now left|].
  rewrite bool_decide_eq_false_2 by discriminate.
  destruct (_ =? 1); cbn [py_max py_min].
  - apply fold_left_max_in; [apply Hall, list_elem_of_here|].
    intros w Hw. apply Hall. now apply list_elem_of_further.
  - apply fold_left_min_in; [apply Hall, list_elem_of_here|].
    intros w Hw. apply Hall. now apply list_elem_of_further.
Qed.

(** At the last level of the search a node is worth 0 or the value of the
    colour that moves there. *)
Lemma place_chip_recursive_loop_last_level
    (p : Process) (b : Connect4Board) (player : Colour) (cols : list Z) (values : list Z) :
  static_ready p -> board_ok p b -> (forall c, c ∈ cols -> 0 <= c < COLUMNS) ->
  (forall w, w ∈ values -> w = 0 \/ w = __player_value player) ->
  exists v, place_chip_recursive_loop None b player cols values p = (p, inr v) /\
            (v = 0 \/ v = __player_value player).
Proof.
  intros Hr Hok. revert values.
  induction cols as [|col rest IH]; intros values Hcols Hvalues.
  - eexists. split; [reflexivity|]. now apply node_value_in.
  - assert (Hc : 0 <= col < COLUMNS) by apply Hcols, list_elem_of_here.
    cbn [place_chip_recursive_loop]. unfold bind at 1, ask_move_available at 1.
    destruct (move_available_nonneg p b col (ok_avail_length p b Hok) Hc) as (a & _ & Ea).
    rewrite Ea. destruct a.
    2:{ eexists. split; [reflexivity|]. now apply node_value_in. }
    pose proof (clone_and_place p b player col Hr Hok (conj Hc Ea)) as Hclone.
    unfold bind in Hclone |- *.
    destruct (__deepcopy__ b p) as [p1 [e|nb]]; [discriminate|].
    destruct (call nb (place_chip player col) p1) as [p2 [e|nb']]; [discriminate|].
    injection Hclone as -> ->.
    unfold get_winner. cbn [placed snd winner]. rewrite immediate_win_copy.
    destruct (immediate_win b player col) eqn:Ew.
    + rewrite bool_decide_eq_false_2 by (now apply immediate_win_player in Ew).
      unfold ret at 1. rewrite Z.eqb_refl. eexists. split; [reflexivity|]. now right.
    + rewrite bool_decide_eq_true_2 by reflexivity. unfold ret at 1.
      destruct (0 =? __player_value player) eqn:E0.
      * eexists. split; [reflexivity|]. now left.
      * apply IH.
        -- intros c Hin. apply Hcols. now apply list_elem_of_further.
        -- intros w Hw. apply elem_of_app in Hw as [Hw|Hw]; [now apply Hvalues|].
           apply list_elem_of_singleton in Hw. now left.
Qed.

(** At depth 1 [solve_minimax] never gives an open column the value that
    is ideal for the mover: each entry of an open column is 0 or the
    opponent's value, whether or not the mover's chip wins there. *)
Lemma solve_minimax_loop_depth_1
    (p : Process) (b : Connect4Board) (player : Colour) (cols : list Z) (acc : list Value) :
  static_ready p -> board_ok p b -> (forall c, c ∈ cols -> 0 <= c < COLUMNS) ->
  (forall v, Num v ∈ acc -> v <> __player_value player) ->
  exists values, solve_minimax_loop b player 1 cols acc p = (p, inr values) /\
                 (forall v, Num v ∈ values -> v <> __player_value player).
Proof.
  intros Hr Hok. revert acc.
  induction cols as [|col rest IH]; intros acc Hcols Hacc.
  - eexists. split; [reflexivity|exact Hacc].
  - assert (Hc : 0 <= col < COLUMNS) by apply Hcols, list_elem_of_here.
    assert (Hrest : forall c, c ∈ rest -> 0 <= c < COLUMNS).
    { intros c Hin. apply Hcols. now apply list_elem_of_further. }
    cbn [solve_minimax_loop]. unfold bind at 1, ask_move_available at 1.
    destruct (move_available_nonneg p b col (ok_avail_length p b Hok) Hc) as (a & _ & Ea).
    rewrite Ea. destruct a; cbn [negb].
    + pose proof (clone_and_place p b player col Hr Hok (conj Hc Ea)) as Hclone.
      assert (Hok' : board_ok p (snd (placed p (copy_of p b) player col))).
      { pose proof (placed_ok p (copy_of p b) player col (copy_of_ok p b Hr Hok)
                      (conj Hc Ea)) as H.
        now rewrite copy_of_placed_process in H. }
      remember (snd (placed p (copy_of p b) player col)) as nb1 eqn:Enb1.
      unfold bind in Hclone |- *.
      destruct (__deepcopy__ b p) as [p1 [e|nb]]; [discriminate|].
      destruct (call nb (place_chip player col) p1) as [p2 [e|nb']]; [discriminate|].
      injection Hclone as -> ->.
      destruct (place_chip_recursive_loop_last_level p nb1 (__alternate_colour player)
                  (range 0 COLUMNS) [] Hr Hok') as (v & Ev & Hv).
      { intros c. apply range_elem. }
      { intros w Hw. inversion Hw. }
      unfold place_chip_recursive. change (Z.to_nat (1 - 1)) with O.
      cbn [place_chip_recursive_levels]. rewrite Ev.
      apply IH; [exact Hrest|].
      intros w Hw. apply elem_of_app in Hw as [Hw|Hw]; [now apply Hacc|].
      apply list_elem_of_singleton in Hw. injection Hw as ->.
      rewrite alternate_player_value in Hv.
      pose proof (player_value_cases player). lia.
    + apply IH; [exact Hrest|].
      intros w Hw. apply elem_of_app in Hw as [Hw|Hw]; [now apply Hacc|].
      apply list_elem_of_singleton in Hw. unfold neg_inf_times in Hw.
      destruct (0 <? _); discriminate.
Qed.

Lemma solve_minimax_depth_1_never_ideal (p : Process) (b : Connect4Board) (player : Colour) :
  static_ready p -> board_ok p b ->
  exists values, solve_minimax b player 1 p = (p, inr values) /\
                 (forall v, Num v ∈ values -> v <> __player_value player).
Proof.
  intros Hr Hok. apply solve_minimax_loop_depth_1; try assumption.
  - intros c. apply range_elem.
  - intros v Hv. inversion Hv.
Qed.

(** * The claims of the specification *)

(** Evaluates a game played from [process_start] and names its state. *)
Ltac run_game in_play moves p b E R :=
  destruct (legal_game_reachable in_play moves ltac:(vm_compute; reflexivity))
    as (p & b & E & R);
  let E' := fresh "E" in
  pose proof E as E'; vm_compute in E'; injection E' as ? ?; subst p b.

(** ** C1 *)

(** C1, as stated, fails: on the board where RED has completed the bottom
    row (winner RED), the legal placement of a YELLOW chip in column 6
    leaves [winner] at EMPTY. *)
Lemma winner_not_sticky :
  exists p b p' b',
    play_moves red_wins_bottom_row process_start = (p, inr b) /\
    reachable false p b /\ winner b = RED /\ legal p b 6 /\
    place_chip YELLOW 6 (p, b) = ((p', b'), inr tt) /\
    winner b' = EMPTY.
Proof.
  run_game false red_wins_bottom_row p b E R.
  do 4 eexists.
  split; [exact E|]. split; [exact R|]. split; [reflexivity|].
  split; [split; [unfold COLUMNS; lia|vm_compute; reflexivity]|].
  split; vm_compute; reflexivity.
Qed.

(** C1, amended: on every reachable board, whatever its [winner], a legal
    [place_chip] succeeds and sets [winner] to the outcome of the
    incremental check at the new chip: the colour placed when the chip
    completes a generated winning line through its cell, EMPTY otherwise.
    The previous winner is not kept. *)
Theorem winner_set_by_last_placement
    (p : Process) (b : Connect4Board) (player : Colour) (column : Z) :
  reachable false p b -> legal p b column ->
  exists p' b',
    place_chip player column (p, b) = ((p', b'), inr tt) /\
    winner b' = (if immediate_win b player column then player else EMPTY).
Proof.
  intros Hreach Hlegal. destruct (reachable_ok _ _ _ Hreach) as (Hok & _).
  exists (fst (placed p b player column)), (snd (placed p b player column)).
  split; [|reflexivity].
  rewrite place_chip_legal by assumption. now destruct (placed p b player column).
Qed.

Lemma winner_set_by_last_placement_witness :
  exists p b p' b',
    play_moves red_wins_bottom_row process_start = (p, inr b) /\
    winner b = RED /\ immediate_win b YELLOW 6 = false /\
    place_chip YELLOW 6 (p, b) = ((p', b'), inr tt) /\
    winner b' = EMPTY.
Proof.
  run_game false red_wins_bottom_row p b E R.
  match type of R with
  | reachable _ ?p0 ?b0 =>
      destruct (winner_set_by_last_placement p0 b0 YELLOW 6 R) as (p' & b' & Hplace & Hw);
        [split; [unfold COLUMNS; lia|vm_compute; reflexivity]|];
      exists p0, b0, p', b'
  end.
  split; [exact E|]. split; [reflexivity|]. split; [vm_compute; reflexivity|].
  split; [exact Hplace|]. rewrite Hw. vm_compute. reflexivity.
Defined.

(** ** C2 *)

(** C2, as stated, fails: after RED has completed the bottom row and a
    YELLOW chip has been placed in column 6, the incremental check answers
    EMPTY and the full scan answers RED. *)
Lemma win_checks_disagree_after_win :
  exists p b,
    play_moves (red_wins_bottom_row ++ [(YELLOW, 6)]) process_start = (p, inr b) /\
    reachable false p b /\
    check_winner_from_last_move b = inr EMPTY /\
    check_winner_from_board b = inr RED.
Proof.
  run_game false (red_wins_bottom_row ++ [(YELLOW, 6)]) p b E R.
  do 2 eexists.
  split; [exact E|]. split; [exact R|]. split; vm_compute; reflexivity.
Qed.

(** C2, amended: on every board reached from the empty board by legal
    placements each made while [still_playing()] is true, the incremental
    check and the full scan return the same colour, which is the board's
    [winner]. *)
Theorem win_checks_agree_in_play (p : Process) (b : Connect4Board) :
  reachable true p b ->
  check_winner_from_last_move b = check_winner_from_board b /\
  check_winner_from_board b = inr (winner b).
Proof.
  intros Hreach. destruct (reachable_ok _ _ _ Hreach) as (Hok & _).
  destruct (in_play_agreement p b Hreach) as [Hlast Hfull].
  rewrite check_winner_from_board_spec
    by (apply (ok_shape p b Hok) || apply (ok_lines p b Hok)).
  rewrite Hlast, Hfull. split; reflexivity.
Qed.

Lemma win_checks_agree_in_play_witness :
  exists p b,
    play_moves red_wins_bottom_row process_start = (p, inr b) /\
    check_winner_from_last_move b = check_winner_from_board b /\
    check_winner_from_board b = inr RED.
Proof.
  run_game true red_wins_bottom_row p b E R.
  match type of R with
  | reachable _ ?p0 ?b0 =>
      destruct (win_checks_agree_in_play p0 b0 R) as [H1 H2]; exists p0, b0
  end.
  split; [exact E|]. split; [exact H1|]. rewrite H2. reflexivity.
Defined.

(** ** C3 *)

(** C3: [generate_winning_lines] returns 65 lines: 24 horizontal, 21
    vertical, 12 falling diagonals and 8 rising diagonals.  The rising
    diagonals start on rows 4 and 5 only ([range(4, ROWS)]); the four that
    start on row 3, such as (3,0) (2,1) (1,2) (0,3), are not generated. *)
Theorem generate_winning_lines_count :
  length generate_winning_lines = 65%nat /\
  length horizontal_lines = 24%nat /\
  length vertical_lines = 21%nat /\
  length diagonal_falling_lines = 12%nat /\
  length diagonal_rising_lines = 8%nat /\
  [(3, 0); (2, 1); (1, 2); (0, 3)] ∉ generate_winning_lines.
Proof.
  repeat split; try (vm_compute; reflexivity).
  apply (bool_decide_eq_false_1 ([(3, 0); (2, 1); (1, 2); (0, 3)] ∈ generate_winning_lines)).
  vm_compute. reflexivity.
Qed.

(** What the missing lines cost: RED holds the four cells of the rising
    diagonal from (3,0) to (0,3), placed by legal moves made while the game
    was in play, and neither check reports a winner. *)
Lemma rising_diagonal_from_row_3_undetected :
  exists p b,
    play_moves red_rising_diagonal process_start = (p, inr b) /\
    reachable true p b /\
    line_of (board b) RED [(3, 0); (2, 1); (1, 2); (0, 3)] = true /\
    winner b = EMPTY /\
    check_winner_from_last_move b = inr EMPTY /\
    check_winner_from_board b = inr EMPTY.
Proof.
  run_game true red_rising_diagonal p b E R.
  do 2 eexists. split; [exact E|]. split; [exact R|].
  repeat split; vm_compute; reflexivity.
Qed.

(** ** C4 *)

(** C4: on the board with RED chips in columns 1, 2 and 3 of the bottom
    row, column 0 is open and wins at once for RED ([solveNaive] returns
    it), yet [solve_minimax] at depth 1 values it 0, not +1: after the
    mover's chip is placed the winner of that board is never read, only
    the opponent's replies are valued.  The same holds for YELLOW, whose
    winning column is valued 0, not -1. *)
Theorem solve_minimax_misses_root_win :
  (exists p b,
     play_moves (three_in_a_row 1) process_start = (p, inr b) /\
     move_available p b 0 = inr true /\ immediate_win b RED 0 = true /\
     solveNaive b RED p = (p, inr 0) /\ __player_value RED = 1 /\
     solve_minimax b RED 1 p =
       (p, inr [Num 0; Num 0; Num 0; Num 0; Num 0; Num 0; Num 0])) /\
  (exists p b,
     play_moves [(YELLOW, 1); (YELLOW, 2); (YELLOW, 3)] process_start = (p, inr b) /\
     move_available p b 0 = inr true /\ immediate_win b YELLOW 0 = true /\
     solveNaive b YELLOW p = (p, inr 0) /\ __player_value YELLOW = -1 /\
     solve_minimax b YELLOW 1 p =
       (p, inr [Num 0; Num 0; Num 0; Num 0; Num 0; Num 0; Num 0])).
Proof.
  split.
  - run_game false (three_in_a_row 1) p b E R.
    do 2 eexists. split; [exact E|]. repeat split; vm_compute; reflexivity.
  - run_game false [(YELLOW, 1); (YELLOW, 2); (YELLOW, 3)] p b E R.
    do 2 eexists. split; [exact E|]. repeat split; vm_compute; reflexivity.
Qed.

(** ** C5 *)

(** C5: on the board whose column 0 is full (no winner) and whose bottom
    row holds RED in columns 1, 2 and 3, column 4 is open and wins at once
    for RED, as [solveNaive] finds; [place_chip_recursive] for RED returns
    0 at depth 1 and at depth 5, not the maximum +1 over the open columns:
    its loop is left at the first column that is not available, here
    column 0, before any child is valued. *)
Theorem place_chip_recursive_stops_at_full_column :
  exists p b,
    play_moves (fill_column_0 ++ three_in_a_row 1) process_start = (p, inr b) /\
    winner b = EMPTY /\
    move_available p b 0 = inr false /\
    move_available p b 4 = inr true /\ immediate_win b RED 4 = true /\
    solveNaive b RED p = (p, inr 4) /\
    place_chip_recursive b RED 1 p = (p, inr 0) /\
    place_chip_recursive b RED 5 p = (p, inr 0).
Proof.
  run_game false (fill_column_0 ++ three_in_a_row 1) p b E R.
  do 2 eexists. split; [exact E|]. repeat split; vm_compute; reflexivity.
Qed.

(** ** C6 *)

(** C6, as stated, fails: on the empty board the index -1 is not rejected.
    [move_available(-1)] answers True and [place_chip(RED, -1)] returns
    normally after writing the chip into cell (5, 6), counting it under
    the key -1, and recording the move. *)
Lemma negative_column_accepted :
  exists p b p' b',
    new_board process_start = (p, inr b) /\
    move_available p b (-1) = inr true /\
    place_chip RED (-1) (p, b) = ((p', b'), inr tt) /\
    cell (board b) (5, 6) = EMPTY /\ cell (board b') (5, 6) = RED /\
    counter_get (column_chip_count b') (-1) = 1 /\
    moves_made b' = 1 /\ last_move b' = (5, -1).
Proof.
  do 4 eexists. split; [vm_compute; reflexivity|].
  split; [vm_compute; reflexivity|].
  split; [vm_compute; reflexivity|].
  repeat split; vm_compute; reflexivity.
Qed.

(** C6, amended: on every well-formed board, for every column index
    greater than 6 or smaller than -7, [move_available] and [place_chip]
    raise IndexError at their list access and leave the process and the
    board (grid, column heights, move count, last move, winner, open
    columns) as they were.  The core has no range check of its own, so the
    indices -7 to -1, which Python counts from the end, are not covered. *)
Theorem far_column_rejected
    (p : Process) (b : Connect4Board) (player : Colour) (column : Z) :
  board_ok p b -> column >= COLUMNS \/ column < - COLUMNS ->
  move_available p b column = inl IndexError /\
  place_chip player column (p, b) = ((p, b), inl IndexError).
Proof.
  intros Hok Hfar. split.
  - unfold move_available. apply getitem_outside.
    rewrite (ok_avail_length p b Hok). unfold COLUMNS in *. lia.
  - unfold place_chip, bind, get_state, lift, raise. cbn [fst snd].
    rewrite (ok_keys p b Hok) by (unfold COLUMNS in *; lia).
    change (ROWS - 0 - 1 <? 0) with false. cbn beta iota.
    destruct (shaped_row (board b) (ROWS - 0 - 1) (ok_shape p b Hok))
      as (row & _ & Hget & Hlen); [unfold ROWS; lia|].
    unfold grid_set. rewrite Hget. cbn [rbind].
    rewrite setitem_outside; [reflexivity|].
    rewrite Hlen. unfold COLUMNS in *. lia.
Qed.

Lemma far_column_rejected_witness :
  exists p b,
    play_moves red_wins_bottom_row process_start = (p, inr b) /\
    move_available p b 7 = inl IndexError /\
    place_chip YELLOW 7 (p, b) = ((p, b), inl IndexError).
Proof.
  run_game false red_wins_bottom_row p b E R.
  match type of R with
  | reachable _ ?p0 ?b0 =>
      destruct (far_column_rejected p0 b0 YELLOW 7) as [H1 H2];
        [apply (reachable_ok _ _ _ R)|left; unfold COLUMNS; lia|];
      exists p0, b0
  end.
  split; [exact E|]. split; [exact H1|exact H2].
Defined.

(** ** C7 *)

(** C7: on every reachable board, for every column of the board that holds
    six chips, [move_available] answers False and [place_chip] raises the
    full-column ValueError, leaving the process and the board (grid,
    column heights, move count, last move, winner) exactly as they were. *)
Theorem full_column_rejected
    (p : Process) (b : Connect4Board) (player : Colour) (column : Z) :
  reachable false p b -> 0 <= column < COLUMNS ->
  counter_get (column_chip_count b) column = ROWS ->
  move_available p b column = inr false /\
  place_chip player column (p, b) = ((p, b), inl (ValueError column)).
Proof.
  intros Hreach Hc Hfull. destruct (reachable_ok _ _ _ Hreach) as (Hok & _). split.
  - destruct (move_available_nonneg p b column (ok_avail_length p b Hok) Hc)
      as (a & _ & Ea).
    destruct a; [|exact Ea].
    pose proof (ok_open p b Hok column Hc Ea). lia.
  - unfold place_chip, bind, get_state, raise. cbn [fst snd].
    rewrite Hfull. reflexivity.
Qed.

Lemma full_column_rejected_witness :
  exists p b,
    play_moves fill_column_0 process_start = (p, inr b) /\
    move_available p b 0 = inr false /\
    place_chip RED 0 (p, b) = ((p, b), inl (ValueError 0)).
Proof.
  run_game false fill_column_0 p b E R.
  match type of R with
  | reachable _ ?p0 ?b0 =>
      destruct (full_column_rejected p0 b0 RED 0 R) as [H1 H2];
        [unfold COLUMNS; lia|vm_compute; reflexivity|];
      exists p0, b0
  end.
  split; [exact E|]. split; [exact H1|exact H2].
Defined.

(** ** C8 *)

(** C8: a process fills column 0 of its first board by six legal
    placements and then constructs a second board with [Connect4Board()].
    The second board is empty, its move count and the height of its column
    0 are 0, yet [move_available(0)] is False: both boards hold the one
    list that is the default value of [available_moves], and the first
    board closed its column 0 in it. *)
Theorem shared_default_closes_fresh_board :
  exists p b,
    second_board_after fill_column_0 process_start = (p, inr b) /\
    reachable false p b /\
    board b = empty_grid /\ moves_made b = 0 /\
    heights_sum (column_chip_count b) = 0 /\
    counter_get (column_chip_count b) 0 = 0 /\
    move_available p b 0 = inr false.
Proof.
  set (p1 := fst (play_moves fill_column_0 process_start)).
  assert (Hp1 : process_ok p1).
  { split; [vm_compute; reflexivity|]. right. split; vm_compute; reflexivity. }
  assert (E : second_board_after fill_column_0 process_start = new_board p1)
    by (vm_compute; reflexivity).
  destruct (new_board_spec p1 Hp1) as (b & Eb & _ & _ & _ & Hg & Hcnt & Hm & Ha).
  exists (init_static p1), b. rewrite E.
  split; [exact Eb|].
  split; [eapply reachable_new; [exact Hp1|exact Eb]|].
  split; [exact Hg|]. split; [exact Hm|]. rewrite Hcnt.
  split; [reflexivity|]. split; [reflexivity|].
  unfold move_available. rewrite Ha. vm_compute. reflexivity.
Qed.

(** ** C9 *)

(** The winner read by the solver after its hypothetical move is not EMPTY
    exactly when the move completes a generated winning line. *)
Lemma clone_wins_iff (p : Process) (b : Connect4Board) (player : Colour) (column : Z) :
  static_ready p -> board_ok p b -> legal p b column ->
  exists nb,
    (new_board <- __deepcopy__ b ; call new_board (place_chip player column)) p =
      (p, inr nb) /\
    (get_winner nb <> EMPTY <-> immediate_win b player column = true).
Proof.
  intros Hr Hok Hlegal. eexists. split; [now apply clone_and_place|].
  unfold get_winner. cbn [placed snd winner]. rewrite immediate_win_copy.
  destruct (immediate_win b player column) eqn:Ew.
  - split; [reflexivity|]. intros _. now apply immediate_win_player in Ew.
  - split; [congruence|discriminate].
Qed.

(** With a win read as the completion of one of the lines that
    [generate_winning_lines] returns: on every well-formed board and for
    every colour, [solveNaive] returns the smallest column that is open
    and whose placement of that colour completes such a line, and -1 when
    no open column does.  On the board that holds only three RED chips in
    columns k, k+1, k+2 of the bottom row, with a free cell on each side
    (k from 1 to 3), [solveNaive] for RED returns one of the completing
    columns k-1 and k+3. *)
Theorem solveNaive_first_win :
  (forall (p : Process) (b : Connect4Board) (player : Colour),
     static_ready p -> board_ok p b ->
     exists r,
       solveNaive b player p = (p, inr r) /\
       ((r = -1 /\
         forall c, 0 <= c < COLUMNS -> move_available p b c = inr true ->
                   immediate_win b player c = false) \/
        (0 <= r < COLUMNS /\ move_available p b r = inr true /\
         immediate_win b player r = true /\
         forall c, 0 <= c < r -> move_available p b c = inr true ->
                   immediate_win b player c = false))) /\
  (forall k, 1 <= k <= 3 ->
     exists p b r,
       play_moves (three_in_a_row k) process_start = (p, inr b) /\
       solveNaive b RED p = (p, inr r) /\ (r = k - 1 \/ r = k + 3)).
Proof.
  split.
  - intros p b player Hr Hok. exists (first_winning_column p b player).
    split; [now apply solveNaive_spec|].
    unfold first_winning_column.
    pose proof (find_range_first
                  (fun c => is_open p b c && immediate_win b player c) 0 COLUMNS) as Hfind.
    assert (Hoff : forall c, is_open p b c && immediate_win b player c = false ->
                             move_available p b c = inr true ->
                             immediate_win b player c = false).
    { intros c Hf Ha. apply is_open_true in Ha. now rewrite Ha in Hf. }
    destruct (find _ (range 0 COLUMNS)) as [r|].
    + right. destruct Hfind as (Hrange & Hf & Hmin).
      apply andb_true_iff in Hf as [Ho Hw]. apply is_open_true in Ho.
      repeat split; try assumption; try lia.
      intros c Hc. apply Hoff, Hmin. exact Hc.
    + left. split; [reflexivity|]. intros c Hc. now apply Hoff, Hfind.
  - intros k Hk.
    assert (k = 1 \/ k = 2 \/ k = 3) as [-> | [-> | ->]] by lia.
    + run_game false (three_in_a_row 1) p b E R.
      do 3 eexists. split; [exact E|]. split; [vm_compute; reflexivity|]. now left.
    + run_game false (three_in_a_row 2) p b E R.
      do 3 eexists. split; [exact E|]. split; [vm_compute; reflexivity|]. now left.
    + run_game false (three_in_a_row 3) p b E R.
      do 3 eexists. split; [exact E|]. split; [vm_compute; reflexivity|]. now left.
Qed.

Lemma solveNaive_first_win_witness :
  (exists p b,
     play_moves (fill_column_0 ++ three_in_a_row 1) process_start = (p, inr b) /\
     solveNaive b RED p = (p, inr 4)) /\
  (exists p b r,
     play_moves (three_in_a_row 2) process_start = (p, inr b) /\
     solveNaive b RED p = (p, inr r) /\ (r = 1 \/ r = 5)).
Proof.
  split.
  - run_game false (fill_column_0 ++ three_in_a_row 1) p b E R.
    match type of R with
    | reachable _ ?p0 ?b0 =>
        destruct (reachable_ok _ _ _ R) as (Hok & _ & Hr);
        destruct (proj1 solveNaive_first_win p0 b0 RED Hr Hok) as (r & Hrun & _);
        exists p0, b0
    end.
    split; [exact E|]. rewrite Hrun. vm_compute in Hrun. congruence.
  - apply (proj2 solveNaive_first_win 2). lia.
Defined.

Lemma generated_lines_among_runs :
  length runs_of_four = 69%nat /\
  (forall line, line ∈ generate_winning_lines -> line ∈ runs_of_four) /\
  (forall line, line ∈ runs_of_four -> line ∉ generate_winning_lines ->
                exists c, 0 <= c <= 3 /\ line = run_of_four (3, c) (-1, 1)).
Proof.
  split; [vm_compute; reflexivity|]. split.
  - intros line Hl.
    assert (H : forallb (fun l => bool_decide (l ∈ runs_of_four))
                        generate_winning_lines = true) by (vm_compute; reflexivity).
    rewrite forallb_forall in H. apply list_elem_of_In in Hl.
    apply H in Hl. now apply bool_decide_eq_true_1 in Hl.
  - intros line Hl Hnot.
    assert (H : forallb (fun l => bool_decide (l ∈ generate_winning_lines) ||
                                  existsb (fun c => bool_decide (l = run_of_four (3, c) (-1, 1)))
                                          (range 0 4))
                        runs_of_four = true) by (vm_compute; reflexivity).
    rewrite forallb_forall in H. apply list_elem_of_In in Hl. apply H in Hl.
    apply orb_true_iff in Hl as [Hl|Hl].
    + apply bool_decide_eq_true_1 in Hl. contradiction.
    + apply existsb_exists in Hl as (c & Hc & Hl).
      apply list_elem_of_In, range_elem in Hc.
      exists c. split; [lia|]. now apply bool_decide_eq_true_1 in Hl.
Qed.

(** C9: after the seventeen alternating legal moves of
    [missed_diagonal_game], made while the game is in play, YELLOW holds
    the cells (2,1), (1,2), (0,3), column 0 is open and a YELLOW chip
    dropped in it lands on (3,0) and makes four in a row on the rising
    diagonal (3,0) (2,1) (1,2) (0,3); yet [solveNaive] for YELLOW returns
    -1, the answer for "no column wins".  That diagonal is one of the four
    runs of four that [generate_winning_lines] does not return, so the
    winner read after the hypothetical placement is EMPTY. *)
Theorem solveNaive_misses_rising_diagonal :
  exists p b,
    play_moves missed_diagonal_game process_start = (p, inr b) /\
    reachable true p b /\ still_playing b = true /\
    move_available p b 0 = inr true /\
    landing b 0 = (3, 0) /\
    line_of (grid_with (board b) (landing b 0) YELLOW) YELLOW
            [(3, 0); (2, 1); (1, 2); (0, 3)] = true /\
    [(3, 0); (2, 1); (1, 2); (0, 3)] ∈ runs_of_four /\
    completes_four b YELLOW 0 = true /\
    immediate_win b YELLOW 0 = false /\
    solveNaive b YELLOW p = (p, inr (-1)).
Proof.
  run_game true missed_diagonal_game p b E R.
  do 2 eexists. split; [exact E|]. split; [exact R|].
  split; [vm_compute; reflexivity|]. split; [vm_compute; reflexivity|].
  split; [vm_compute; reflexivity|]. split; [vm_compute; reflexivity|].
  split; [apply (bool_decide_unpack _); vm_compute; exact I|].
  split; [vm_compute; reflexivity|]. split; vm_compute; reflexivity.
Qed.

(** ** C10 *)

(** C10: the deep copy of any board has the grid, the column chip counts,
    the move count, the last move and the open columns of the original,
    and its [winner] is EMPTY whatever the original's is; a [place_chip]
    on the copy then sets the copy's [winner] to what the incremental
    check answers on it. *)
Theorem deepcopy_resets_winner (p : Process) (b : Connect4Board) :
  exists b',
    __deepcopy__ b p = (init_static p, inr b') /\
    board b' = board b /\
    column_chip_count b' = column_chip_count b /\
    moves_made b' = moves_made b /\
    last_move b' = last_move b /\
    deref (init_static p) (available_moves b') = deref p (available_moves b) /\
    winner b' = EMPTY /\
    (forall player column p'' b'',
       place_chip player column (init_static p, b') = ((p'', b''), inr tt) ->
       check_winner_from_last_move b'' = inr (winner b'')).
Proof.
  exists (copy_of p b). split; [apply deepcopy_spec|].
  repeat split. intros player column p'' b''. apply place_chip_winner.
Qed.

Lemma deepcopy_resets_winner_witness :
  exists p b b' p'' b'',
    play_moves red_wins_bottom_row process_start = (p, inr b) /\
    winner b = RED /\
    __deepcopy__ b p = (p, inr b') /\ board b' = board b /\ winner b' = EMPTY /\
    place_chip YELLOW 6 (p, b') = ((p'', b''), inr tt) /\
    check_winner_from_last_move b'' = inr (winner b'').
Proof.
  run_game false red_wins_bottom_row p b E R.
  match type of R with
  | reachable _ ?p0 ?b0 =>
      destruct (deepcopy_resets_winner p0 b0)
        as (b' & Hcopy & Hg & _ & _ & _ & _ & Hw & Hplace);
      destruct (place_chip YELLOW 6 (init_static p0, b')) as [[p'' b''] r] eqn:Ep;
      exists p0, b0, b', p'', b''
  end.
  split; [exact E|]. split; [reflexivity|].
  assert (Hcopy' := Hcopy). vm_compute in Hcopy'. injection Hcopy' as <-.
  split; [exact Hcopy|]. split; [exact Hg|]. split; [exact Hw|].
  assert (Ep' := Ep). vm_compute in Ep'. injection Ep' as <- <- <-.
  split; [exact Ep|]. apply (Hplace YELLOW 6 _ _ Ep).
Defined.

(** * Further properties of the board *)

(** ** The generated geometry *)

Lemma straight_runb_spec (line : Line) :
  straight_runb line = true ->
  exists start d, d ∈ directions /\ line = run_of_four start d /\
                  (forall q, q ∈ line -> in_range q) /\ NoDup line.
Proof.
  unfold straight_runb. intros H.
  apply andb_true_iff in H as [H Hnd]. apply andb_true_iff in H as [Hrun Hrange].
  destruct line as [|start rest]; [discriminate|].
  apply existsb_exists in Hrun as (d & Hd & Hrun).
  exists start, d. split; [now apply list_elem_of_In|].
  split; [now apply bool_decide_eq_true_1 in Hrun|].
  split; [|now apply bool_decide_eq_true_1 in Hnd].
  intros q Hq. rewrite forallb_forall in Hrange.
  apply in_rangeb_spec, Hrange. now apply list_elem_of_In.
Qed.

Lemma generated_lines_straight :
  forall line, line ∈ generate_winning_lines -> straight_runb line = true.
Proof.
  assert (H : forallb straight_runb generate_winning_lines = true)
    by (vm_compute; reflexivity).
  rewrite forallb_forall in H. intros line Hl. apply H. now apply list_elem_of_In.
Qed.

(** Runs [tac], which must close the goal, for each of the 42 cells. *)
Ltac each_cell q Hq tac :=
  let r := fresh "r" in
  let c := fresh "c" in
  let Hr := fresh "Hr" in
  let Hc := fresh "Hc" in
  destruct (in_range_cases q Hq) as (r & c & -> & Hr & Hc);
  do 6 (destruct r as [|r];
        [do 7 (destruct c as [|c]; [tac|]); exfalso; lia|]);
  exfalso; lia.

(** X1: every line [generate_winning_lines] returns is a run of four
    distinct cells of the board, each one step from the previous in one of
    the four directions, and no line is returned twice.  Every horizontal,
    vertical and falling run of four cells that fits on the board is
    returned; a rising run that fits is returned exactly when it starts on
    row 4 or 5. *)
Theorem generated_lines_are_runs_of_four :
  (forall line, line ∈ generate_winning_lines ->
     exists start d, d ∈ directions /\ line = run_of_four start d /\
                     (forall q, q ∈ line -> in_range q) /\ NoDup line) /\
  NoDup generate_winning_lines /\
  (forall start d, d ∈ [(0, 1); (1, 0); (1, 1)] -> in_range start ->
     in_range (fst start + 3 * fst d, snd start + 3 * snd d) ->
     run_of_four start d ∈ generate_winning_lines) /\
  (forall start, in_range start -> in_range (fst start - 3, snd start + 3) ->
     (run_of_four start (-1, 1) ∈ generate_winning_lines <-> 4 <= fst start)).
Proof.
  split; [|split; [|split]].
  - intros line Hl. now apply straight_runb_spec, generated_lines_straight.
  - apply (bool_decide_unpack _). vm_compute. exact I.
  - intros start d Hd Hstart Hend.
    apply list_elem_of_In in Hd. cbn [In] in Hd.
    destruct Hd as [<-|[<-|[<-|[]]]];
      each_cell start Hstart
        ltac:(first [ exfalso; destruct Hend as [Hend1 Hend2]; cbn in Hend1, Hend2;
                      unfold ROWS, COLUMNS in *; lia
                    | apply (bool_decide_unpack _); vm_compute; exact I ]).
  - intros start Hstart Hend.
    each_cell start Hstart
      ltac:(first [ exfalso; destruct Hend as [Hend1 Hend2]; cbn in Hend1, Hend2;
                    unfold ROWS, COLUMNS in *; lia
                  | split; [intros _; cbn; lia
                           |intros _; apply (bool_decide_unpack _); vm_compute; exact I]
                  | split; [intros Hin; exfalso; revert Hin;
                            apply (bool_decide_eq_false_1 _); vm_compute; reflexivity
                           |cbn; lia] ]).
Qed.

Lemma generated_lines_are_runs_of_four_witness :
  (exists start d, d ∈ directions /\
     [(5, 0); (4, 1); (3, 2); (2, 3)] = run_of_four start d) /\
  run_of_four (2, 3) (1, 1) ∈ generate_winning_lines /\
  run_of_four (3, 0) (-1, 1) ∉ generate_winning_lines.
Proof.
  destruct generated_lines_are_runs_of_four as (Hsound & _ & Hthree & Hrising).
  split; [|split].
  - destruct (Hsound [(5, 0); (4, 1); (3, 2); (2, 3)]) as (start & d & Hd & E & _).
    + apply (bool_decide_unpack _). vm_compute. exact I.
    + exists start, d. now split.
  - apply Hthree.
    + apply (bool_decide_unpack _). vm_compute. exact I.
    + split; cbn; unfold ROWS, COLUMNS; lia.
    + split; cbn; unfold ROWS, COLUMNS; lia.
  - intros Hin. apply Hrising in Hin.
    + cbn in Hin. lia.
    + split; cbn; unfold ROWS, COLUMNS; lia.
    + split; cbn; unfold ROWS, COLUMNS; lia.
Defined.

(** ** The index from cells to lines *)

Lemma list_remove_not_in (x : Coord) (line : Line) :
  NoDup line -> x ∉ list_remove x line.
Proof.
  induction 1 as [|y rest Hy Hnd IH]; cbn; [apply not_elem_of_nil|].
  destruct (bool_decide_reflect (y = x)) as [->|Hne]; [exact Hy|].
  intros Hin. inversion Hin; subst; [congruence|contradiction].
Qed.

Lemma lines_for_position_elem (WL : list Line) (q : Coord) (l' : Line) :
  l' ∈ generate_winning_lines_for_positions WL (fst q) (snd q) <->
  exists l, l ∈ WL /\ q ∈ l /\ l' = list_remove q l.
Proof.
  unfold generate_winning_lines_for_positions.
  replace (fst q, snd q) with q by now destruct q.
  rewrite list_elem_of_In, in_flat_map. split.
  - intros (l & Hl & Hin). exists l.
    destruct (bool_decide_reflect (q ∈ l)) as [Hq|Hq]; [|inversion Hin].
    destruct Hin as [<-|[]]. split; [now apply list_elem_of_In|now split].
  - intros (l & Hl & Hq & ->). exists l. split; [now apply list_elem_of_In|].
    rewrite bool_decide_eq_true_2 by exact Hq. now left.
Qed.

(** X2: in the table a board gets from [__init__], the entry of a cell of
    the board holds exactly the generated lines through that cell, each
    with the cell removed: three coordinates of the board, none of them
    the cell itself. *)
Theorem line_index_of_new_board
    (p p' : Process) (b : Connect4Board) (q : Coord) :
  process_ok p -> new_board p = (p', inr b) -> in_range q ->
  exists entry,
    (by_row <~ getitem (winning_lines_by_positions b) (fst q) ; getitem by_row (snd q))
      = inr entry /\
    (forall l', l' ∈ entry <->
                exists l, l ∈ winning_lines b /\ q ∈ l /\ l' = list_remove q l) /\
    (forall l', l' ∈ entry ->
                length l' = 3%nat /\ (q ∉ l') /\ forall q', q' ∈ l' -> in_range q').
Proof.
  intros Hp Hnew Hq.
  destruct (new_board_spec p Hp) as (b0 & E & Hok & _).
  rewrite E in Hnew. injection Hnew as <- <-.
  rewrite (ok_by_position _ _ Hok), (ok_lines _ _ Hok).
  eexists. split; [now apply lines_by_position_lookup|].
  split; [apply lines_for_position_elem|].
  intros l' Hl'. destruct (lines_for_position_ok q l' Hl') as [Hlen Hr].
  split; [exact Hlen|]. split; [|exact Hr].
  apply lines_for_position_elem in Hl' as (l & Hl & _ & ->).
  apply list_remove_not_in.
  destruct (straight_runb_spec l (generated_lines_straight l Hl)) as (s0 & d0 & _ & _ & _ & Hnd).
  exact Hnd.
Qed.

Lemma line_index_of_new_board_witness :
  exists p b entry,
    new_board process_start = (p, inr b) /\
    (by_row <~ getitem (winning_lines_by_positions b) 0 ; getitem by_row 0) = inr entry /\
    entry = [[(0, 1); (0, 2); (0, 3)]; [(1, 0); (2, 0); (3, 0)]; [(1, 1); (2, 2); (3, 3)]].
Proof.
  destruct (new_board process_start) as [p [e|b]] eqn:E; [discriminate|].
  destruct (line_index_of_new_board process_start p b (0, 0) process_start_ok E)
    as (entry & Hentry & _).
  { split; cbn; unfold ROWS, COLUMNS; lia. }
  exists p, b, entry. split; [reflexivity|]. split; [exact Hentry|].
  vm_compute in E. injection E as <- <-. vm_compute in Hentry. congruence.
Defined.

(** ** The tables of the class *)

Lemma place_chip_static (player : Colour) (column : Z) (s s' : Self) (r : Result unit) :
  place_chip player column s = (s', r) ->
  WINNING_LINES (fst s') = WINNING_LINES (fst s) /\
  WINNING_LINES_BY_POSITION (fst s') = WINNING_LINES_BY_POSITION (fst s).
Proof.
  destruct s as [p b].
  unfold place_chip, bind, get_state, lift, raise, on_self, modify. cbn [fst snd].
  destruct (_ <? 0); cbn beta; [intros [= <- <-]; now split|].
  destruct (grid_set _ _ _ _) as [e|g]; [intros [= <- <-]; now split|]. cbn [fst snd].
  assert (Hup : forall s1 r1,
             __update_column_availability column (p, set_board g b) = (s1, r1) ->
             WINNING_LINES (fst s1) = WINNING_LINES p /\
             WINNING_LINES_BY_POSITION (fst s1) = WINNING_LINES_BY_POSITION p).
  { unfold __update_column_availability, bind, get_state, on_self, modify, ret,
      close_column. cbn [fst snd].
    intros s1 r1. destruct (_ =? ROWS); [|intros [= <- <-]; now split].
    destruct (setitem _ _ _) as [e|l]; [intros [= <- <-]; now split|].
    cbn [set_column_chip_count available_moves set_board].
    destruct (available_moves b); intros [= <- <-]; now split. }
  destruct (__update_column_availability column (p, set_board g b))
    as [[p1 b1] [e|[]]] eqn:Eup; specialize (Hup _ _ eq_refl); cbn [fst snd] in *.
  - intros [= <- <-]. exact Hup.
  - destruct (check_winner_from_last_move _); intros [= <- <-]; exact Hup.
Qed.

(** X3: the two class tables are generated by the first construction of a
    board and stay as they are: constructing another board, deep copying
    one, or a [place_chip] call, whether it returns or raises, leaves them
    unchanged; constructions leave the whole process state unchanged. *)
Theorem static_tables_generated_once (p : Process) :
  process_ok p ->
  let p1 := fst (new_board p) in
  WINNING_LINES p1 = Some generate_winning_lines /\
  WINNING_LINES_BY_POSITION p1 = Some lines_by_position /\
  fst (new_board p1) = p1 /\
  (forall b, fst (__deepcopy__ b p1) = p1) /\
  (forall player column b s' r,
     place_chip player column (p1, b) = (s', r) ->
     WINNING_LINES (fst s') = WINNING_LINES p1 /\
     WINNING_LINES_BY_POSITION (fst s') = WINNING_LINES_BY_POSITION p1).
Proof.
  intros Hp p1. assert (Hr : static_ready p1) by now apply init_static_ready.
  split; [apply Hr|]. split; [apply Hr|].
  split; [apply (init_static_idle p1 Hr)|].
  split.
  - intros b. rewrite deepcopy_spec. apply (init_static_idle p1 Hr).
  - intros player column b s' r. apply place_chip_static.
Qed.

Lemma static_tables_generated_once_witness :
  let p1 := fst (new_board process_start) in
  WINNING_LINES process_start = None /\
  WINNING_LINES p1 = Some generate_winning_lines /\
  fst (new_board p1) = p1.
Proof.
  destruct (static_tables_generated_once process_start process_start_ok)
    as (H1 & _ & H3 & _).
  split; [reflexivity|]. split; [exact H1|exact H3].
Defined.

(** ** What a placement changes *)

Lemma placed_run (p : Process) (b : Connect4Board) (player : Colour) (column : Z) :
  board_ok p b -> legal p b column ->
  place_chip player column (p, b) =
  ((fst (placed p b player column), snd (placed p b player column)), inr tt).
Proof.
  intros Hok Hlegal. rewrite place_chip_legal by assumption.
  now destruct (placed p b player column).
Qed.

(** X4: a legal [place_chip] returns normally and writes one cell, the
    lowest free cell of the column, which then reads as the colour placed;
    every other cell of the board reads as before.  The column's chip
    count and the move count go up by one, the other columns' counts are
    unchanged, and the last move is the cell written. *)
Theorem place_chip_writes_one_cell
    (p : Process) (b : Connect4Board) (player : Colour) (column : Z) :
  board_ok p b -> legal p b column ->
  exists p' b',
    place_chip player column (p, b) = ((p', b'), inr tt) /\
    get_colour_at_position b' (ROWS - counter_get (column_chip_count b) column - 1) column
      = inr player /\
    (forall r c, in_range (r, c) ->
       (r, c) <> (ROWS - counter_get (column_chip_count b) column - 1, column) ->
       get_colour_at_position b' r c = get_colour_at_position b r c) /\
    counter_get (column_chip_count b') column = counter_get (column_chip_count b) column + 1 /\
    (forall c, c <> column ->
       counter_get (column_chip_count b') c = counter_get (column_chip_count b) c) /\
    get_moves_made b' = get_moves_made b + 1 /\
    last_move b' = (ROWS - counter_get (column_chip_count b) column - 1, column).
Proof.
  intros Hok Hlegal.
  pose proof (landing_in_range p b column Hok Hlegal) as Hq.
  destruct (grid_with_spec (board b) (landing b column) player (ok_shape p b Hok) Hq)
    as (_ & Hs' & Hcell & Hother).
  exists (fst (placed p b player column)), (snd (placed p b player column)).
  split; [now apply placed_run|].
  unfold get_colour_at_position, get_moves_made.
  cbn [placed snd board column_chip_count moves_made last_move].
  split; [|split; [|split; [|split; [|split]]]].
  - rewrite (grid_get_cell _ (landing b column)) by assumption. now rewrite Hcell.
  - intros r c Hrc Hne.
    pose proof (grid_get_cell _ (r, c) Hs' Hrc) as E1.
    pose proof (grid_get_cell _ (r, c) (ok_shape p b Hok) Hrc) as E2.
    cbn [fst snd] in E1, E2. rewrite E1, E2.
    f_equal. now apply Hother.
  - rewrite counter_get_incr. now destruct (decide (column = column)).
  - intros c Hne. rewrite counter_get_incr. destruct (decide (column = c)); congruence.
  - reflexivity.
  - reflexivity.
Qed.

Lemma place_chip_writes_one_cell_witness :
  exists p b p' b',
    play_moves (three_in_a_row 1) process_start = (p, inr b) /\
    place_chip YELLOW 2 (p, b) = ((p', b'), inr tt) /\
    get_colour_at_position b' 4 2 = inr YELLOW /\
    get_colour_at_position b' 5 2 = inr RED /\
    get_moves_made b' = 4.
Proof.
  run_game false (three_in_a_row 1) p b E R.
  match type of R with
  | reachable _ ?p0 ?b0 =>
      destruct (place_chip_writes_one_cell p0 b0 YELLOW 2)
        as (p' & b' & Hrun & Hcell & Hother & _ & _ & Hmoves & _);
        [apply (reachable_ok _ _ _ R)
        |split; [unfold COLUMNS; lia|vm_compute; reflexivity]|];
      exists p0, b0, p', b'
  end.
  split; [exact E|]. split; [exact Hrun|].
  split; [exact Hcell|]. split.
  - rewrite Hother; [vm_compute; reflexivity|split; cbn; unfold ROWS, COLUMNS; lia|].
    vm_compute. congruence.
  - rewrite Hmoves. vm_compute. reflexivity.
Defined.

(** ** Invariants of the boards of a game *)

Lemma cell_empty_grid (q : Coord) : in_range q -> cell empty_grid q = EMPTY.
Proof. intros Hq. each_cell q Hq ltac:(vm_compute; reflexivity). Qed.

Lemma placed_above_stack_empty
    (p : Process) (b : Connect4Board) (player : Colour) (column : Z) :
  board_ok p b -> legal p b column -> above_stack_empty b ->
  above_stack_empty (snd (placed p b player column)).
Proof.
  intros Hok Hlegal Hinv q Hq.
  pose proof (landing_in_range p b column Hok Hlegal) as Hl.
  destruct (grid_with_spec (board b) (landing b column) player (ok_shape p b Hok) Hl)
    as (_ & _ & _ & Hother).
  cbn [placed snd board column_chip_count]. rewrite counter_get_incr. intros Hlt.
  rewrite Hother; [apply Hinv; [exact Hq|]|exact Hq|].
  - destruct (decide (column = snd q)) as [Heq|_]; [rewrite <- Heq; lia|lia].
  - intros ->. unfold landing in Hlt. cbn [fst snd] in Hlt.
    destruct (decide (column = column)); [lia|congruence].
Qed.

Lemma reachable_above_stack_empty (in_play : bool) (p : Process) (b : Connect4Board) :
  reachable in_play p b -> above_stack_empty b.
Proof.
  induction 1 as [p p' b Hp Hnew | p b player column p' b' Hreach IH Hlegal _ Hplace
                 | p b column Hreach IH Hc].
  - destruct (new_board_spec p Hp) as (b0 & E & _ & _ & _ & Hg & _).
    rewrite E in Hnew. injection Hnew as <- <-.
    intros q Hq _. rewrite Hg. now apply cell_empty_grid.
  - destruct (reachable_ok _ _ _ Hreach) as (Hok & _).
    rewrite placed_run in Hplace by assumption. injection Hplace as _ <-.
    now apply placed_above_stack_empty.
  - exact IH.
Qed.

(** X5: on every board reached by legal placements, each cell above the
    stack of its column is empty; so the cell a legal [place_chip] writes
    is empty before the call: no chip is ever overwritten. *)
Theorem chips_never_overwritten (p : Process) (b : Connect4Board) :
  reachable false p b ->
  (forall r c, in_range (r, c) -> r < ROWS - counter_get (column_chip_count b) c ->
               get_colour_at_position b r c = inr EMPTY) /\
  (forall column, legal p b column ->
     get_colour_at_position b (ROWS - counter_get (column_chip_count b) column - 1) column
       = inr EMPTY).
Proof.
  intros Hreach. destruct (reachable_ok _ _ _ Hreach) as (Hok & _).
  pose proof (reachable_above_stack_empty _ _ _ Hreach) as Hinv.
  assert (Hcells : forall r c, in_range (r, c) ->
            r < ROWS - counter_get (column_chip_count b) c ->
            get_colour_at_position b r c = inr EMPTY).
  { intros r c Hrc Hlt. unfold get_colour_at_position.
    pose proof (grid_get_cell _ (r, c) (ok_shape p b Hok) Hrc) as E.
    cbn [fst snd] in E. rewrite E. f_equal. now apply Hinv. }
  split; [exact Hcells|].
  intros column Hlegal. apply Hcells; [|lia].
  apply (landing_in_range p b column Hok Hlegal).
Qed.

Lemma chips_never_overwritten_witness :
  exists p b,
    play_moves red_wins_bottom_row process_start = (p, inr b) /\
    get_colour_at_position b 3 0 = inr EMPTY /\
    get_colour_at_position b 4 3 = inr EMPTY.
Proof.
  run_game false red_wins_bottom_row p b E R.
  match type of R with
  | reachable _ ?p0 ?b0 =>
      destruct (chips_never_overwritten p0 b0 R) as [Habove Hland]; exists p0, b0
  end.
  split; [exact E|]. split.
  - apply Habove; [split; cbn; unfold ROWS, COLUMNS; lia|vm_compute; reflexivity].
  - apply (Hland 3). split; [unfold COLUMNS; lia|vm_compute; reflexivity].
Defined.

(** X6: on every board reached by legal placements the move count is
    between 0 and 42, and when it is 42 every column holds six chips and
    [move_available] answers False for each of them. *)
Theorem moves_made_bounded (p : Process) (b : Connect4Board) :
  reachable false p b ->
  0 <= get_moves_made b <= ROWS * COLUMNS /\
  (get_moves_made b = ROWS * COLUMNS ->
   forall c, 0 <= c < COLUMNS ->
             counter_get (column_chip_count b) c = ROWS /\
             move_available p b c = inr false).
Proof.
  intros Hreach. destruct (reachable_ok _ _ _ Hreach) as (Hok & _).
  unfold get_moves_made. rewrite (ok_moves p b Hok), heights_sum_unfold.
  pose proof (ok_heights p b Hok) as Hh.
  pose proof (Hh 0 ltac:(unfold COLUMNS; lia)).
  pose proof (Hh 1 ltac:(unfold COLUMNS; lia)).
  pose proof (Hh 2 ltac:(unfold COLUMNS; lia)).
  pose proof (Hh 3 ltac:(unfold COLUMNS; lia)).
  pose proof (Hh 4 ltac:(unfold COLUMNS; lia)).
  pose proof (Hh 5 ltac:(unfold COLUMNS; lia)).
  pose proof (Hh 6 ltac:(unfold COLUMNS; lia)).
  unfold ROWS, COLUMNS in *. split; [lia|].
  intros Hfull c Hc.
  assert (Hsix : counter_get (column_chip_count b) c = 6).
  { assert (c = 0 \/ c = 1 \/ c = 2 \/ c = 3 \/ c = 4 \/ c = 5 \/ c = 6) as Hcases by lia.
    repeat destruct Hcases as [->|Hcases]; try subst c; lia. }
  split; [exact Hsix|].
  destruct (move_available_nonneg p b c (ok_avail_length p b Hok)) as (a & _ & Ea);
    [unfold COLUMNS; lia|].
  destruct a; [|exact Ea].
  pose proof (ok_open p b Hok c ltac:(unfold COLUMNS; lia) Ea) as Hlt.
  unfold ROWS in Hlt. lia.
Qed.

Lemma moves_made_bounded_witness :
  exists p b,
    play_moves red_wins_bottom_row process_start = (p, inr b) /\
    0 <= get_moves_made b <= 42.
Proof.
  run_game false red_wins_bottom_row p b E R.
  match type of R with
  | reachable _ ?p0 ?b0 =>
      destruct (moves_made_bounded p0 b0 R) as [Hbound _]; exists p0, b0
  end.
  split; [exact E|exact Hbound].
Defined.

(** X7: on the first board of a process, reached by legal placements
    while no other board is in use, [still_playing()] true means that some
    column is a legal move; the solver is never asked to move on a board
    without one. *)
Theorem still_playing_has_legal_move
    (moves : list (Colour * Z)) (p : Process) (b : Connect4Board) :
  legal_game false moves = true ->
  play_moves moves process_start = (p, inr b) ->
  still_playing b = true ->
  exists column, legal p b column.
Proof.
  intros Hlegal Hrun Hplay.
  destruct (legal_game_reachable false moves Hlegal) as (p0 & b0 & E & Hreach).
  rewrite E in Hrun. injection Hrun as -> ->.
  destruct (reachable_ok _ _ _ Hreach) as (Hok & _).
  destruct (still_playing_winner b Hplay) as [_ Hmoves].
  rewrite (ok_moves p b Hok), heights_sum_unfold in Hmoves.
  pose proof (ok_heights p b Hok) as Hh.
  pose proof (first_board_open_iff moves p b Hlegal E) as Hopen.
  assert (Hex : exists c, 0 <= c < COLUMNS /\ counter_get (column_chip_count b) c < ROWS).
  { pose proof (Hh 0 ltac:(unfold COLUMNS; lia)).
    pose proof (Hh 1 ltac:(unfold COLUMNS; lia)).
    pose proof (Hh 2 ltac:(unfold COLUMNS; lia)).
    pose proof (Hh 3 ltac:(unfold COLUMNS; lia)).
    pose proof (Hh 4 ltac:(unfold COLUMNS; lia)).
    pose proof (Hh 5 ltac:(unfold COLUMNS; lia)).
    pose proof (Hh 6 ltac:(unfold COLUMNS; lia)).
    unfold ROWS, COLUMNS in *.
    destruct (Z_lt_dec (counter_get (column_chip_count b) 0) 6); [exists 0; lia|].
    destruct (Z_lt_dec (counter_get (column_chip_count b) 1) 6); [exists 1; lia|].
    destruct (Z_lt_dec (counter_get (column_chip_count b) 2) 6); [exists 2; lia|].
    destruct (Z_lt_dec (counter_get (column_chip_count b) 3) 6); [exists 3; lia|].
    destruct (Z_lt_dec (counter_get (column_chip_count b) 4) 6); [exists 4; lia|].
    destruct (Z_lt_dec (counter_get (column_chip_count b) 5) 6); [exists 5; lia|].
    destruct (Z_lt_dec (counter_get (column_chip_count b) 6) 6); [exists 6; lia|].
    exfalso. lia. }
  destruct Hex as (c & Hc & Hlt). exists c. split; [exact Hc|].
  now apply Hopen.
Qed.

Lemma still_playing_has_legal_move_witness :
  exists p b column,
    play_moves fill_column_0 process_start = (p, inr b) /\ legal p b column.
Proof.
  destruct (play_moves fill_column_0 process_start) as [p [e|b]] eqn:E;
    [vm_compute in E; discriminate|].
  destruct (still_playing_has_legal_move fill_column_0 p b) as (column & Hlegal).
  - vm_compute. reflexivity.
  - exact E.
  - vm_compute in E. injection E as <- <-. vm_compute. reflexivity.
  - exists p, b, column. split; [reflexivity|exact Hlegal].
Defined.

(** X8: during a game (every placement made while [still_playing()] is
    true), as long as [winner] is EMPTY no generated line of the board is
    held by one colour: the check at the last move misses no win. *)
Theorem no_full_line_while_in_play (p : Process) (b : Connect4Board) :
  reachable true p b -> winner b = EMPTY ->
  forall line, line ∈ generate_winning_lines -> full_line (board b) line = false.
Proof.
  intros Hreach Hw. destruct (in_play_agreement p b Hreach) as [_ Hfull].
  apply first_full_line_empty. now rewrite Hfull.
Qed.

Lemma no_full_line_while_in_play_witness :
  exists p b,
    play_moves (three_in_a_row 1) process_start = (p, inr b) /\
    full_line (board b) [(5, 0); (5, 1); (5, 2); (5, 3)] = false.
Proof.
  run_game true (three_in_a_row 1) p b E R.
  match type of R with
  | reachable _ ?p0 ?b0 =>
      pose proof (no_full_line_while_in_play p0 b0 R eq_refl
                    [(5, 0); (5, 1); (5, 2); (5, 3)]) as H;
      exists p0, b0
  end.
  split; [exact E|]. apply H. apply (bool_decide_unpack _). vm_compute. exact I.
Defined.

Lemma reachable_check_last (in_play : bool) (p : Process) (b : Connect4Board) :
  reachable in_play p b -> check_winner_from_last_move b = inr (winner b).
Proof.
  induction 1 as [p p' b Hp Hnew | p b player column p' b' Hreach IH Hlegal _ Hplace
                 | p b column Hreach IH Hc].
  - destruct (new_board_spec p Hp) as (b0 & E & _ & Hw & Hl & _).
    rewrite E in Hnew. injection Hnew as <- <-.
    unfold check_winner_from_last_move. now rewrite Hl, Hw.
  - eapply place_chip_winner; eauto.
  - exact IH.
Qed.

(** X9: on every board reached by legal placements, a [winner] other than
    EMPTY is the colour of the last chip placed, and some generated line
    through the last move is held entirely by that colour: no win is
    reported without four in a row. *)
Theorem winner_has_four_in_a_row (p : Process) (b : Connect4Board) :
  reachable false p b -> get_winner b <> EMPTY ->
  in_range (last_move b) /\
  get_colour_at_position b (fst (last_move b)) (snd (last_move b)) = inr (get_winner b) /\
  exists line, line ∈ generate_winning_lines /\ last_move b ∈ line /\
               forall q, q ∈ line -> cell (board b) q = get_winner b.
Proof.
  unfold get_winner, get_colour_at_position. intros Hreach Hw.
  destruct (reachable_ok _ _ _ Hreach) as (Hok & _).
  pose proof (reachable_check_last _ _ _ Hreach) as Hcheck.
  destruct (ok_last p b Hok) as [Hnone|Hq].
  { unfold check_winner_from_last_move in Hcheck.
    rewrite bool_decide_eq_true_2 in Hcheck by exact Hnone. congruence. }
  rewrite check_winner_from_last_move_spec in Hcheck
    by (apply (ok_shape p b Hok) || apply (ok_by_position p b Hok) || exact Hq).
  destruct (line_through _ _ _) eqn:El; [|congruence].
  injection Hcheck as Hcell.
  split; [exact Hq|]. split.
  - rewrite grid_get_cell by (apply (ok_shape p b Hok) || exact Hq). now rewrite Hcell.
  - unfold line_through in El. apply existsb_exists in El as (line & Hin & Hthrough).
    apply andb_true_iff in Hthrough as [Hq' Hall].
    exists line. split; [now apply list_elem_of_In|].
    split; [now apply bool_decide_eq_true_1 in Hq'|].
    rewrite Hcell in Hall. now apply line_of_cells.
Qed.

Lemma winner_has_four_in_a_row_witness :
  exists p b line,
    play_moves red_wins_bottom_row process_start = (p, inr b) /\
    get_winner b = RED /\ line ∈ generate_winning_lines /\ last_move b ∈ line /\
    forall q, q ∈ line -> cell (board b) q = RED.
Proof.
  run_game false red_wins_bottom_row p b E R.
  match type of R with
  | reachable _ ?p0 ?b0 =>
      destruct (winner_has_four_in_a_row p0 b0 R) as (_ & _ & line & H1 & H2 & H3);
        [vm_compute; discriminate|];
      exists p0, b0, line
  end.
  split; [exact E|]. split; [reflexivity|]. split; [exact H1|]. split; [exact H2|exact H3].
Defined.

(** X10: a legal [place_chip] closes the column played exactly when its
    sixth chip lands and changes the answer of [move_available] for no
    other column: a closed column is never reopened. *)
Theorem availability_after_placement
    (p : Process) (b : Connect4Board) (player : Colour) (column : Z) :
  board_ok p b -> legal p b column ->
  exists p' b',
    place_chip player column (p, b) = ((p', b'), inr tt) /\
    forall c, 0 <= c < COLUMNS ->
      move_available p' b' c =
      if bool_decide (c = column /\ counter_get (column_chip_count b) column + 1 = ROWS)
      then inr false else move_available p b c.
Proof.
  intros Hok Hlegal. pose proof Hlegal as [Hc _].
  exists (fst (placed p b player column)), (snd (placed p b player column)).
  split; [now apply placed_run|].
  intros c Hcr. unfold move_available at 1. rewrite deref_placed.
  destruct (Z.eqb_spec (counter_get (column_chip_count b) column + 1) ROWS) as [E|E].
  - rewrite move_available_closed by (assumption || apply (ok_avail_length p b Hok)).
    destruct (decide (column = c)) as [<-|Hne].
    + now rewrite bool_decide_eq_true_2 by now split.
    + rewrite bool_decide_eq_false_2; [reflexivity|]. intros [-> _]. congruence.
  - rewrite bool_decide_eq_false_2; [reflexivity|]. intros [_ ?]. congruence.
Qed.

Lemma availability_after_placement_witness :
  exists p b p' b',
    play_moves [(YELLOW, 0); (RED, 0); (YELLOW, 0); (RED, 0); (YELLOW, 0)] process_start
      = (p, inr b) /\
    place_chip RED 0 (p, b) = ((p', b'), inr tt) /\
    move_available p b 0 = inr true /\
    move_available p' b' 0 = inr false /\ move_available p' b' 1 = inr true.
Proof.
  run_game false [(YELLOW, 0); (RED, 0); (YELLOW, 0); (RED, 0); (YELLOW, 0)] p b E R.
  match type of R with
  | reachable _ ?p0 ?b0 =>
      destruct (availability_after_placement p0 b0 RED 0) as (p' & b' & Hrun & Hav);
        [apply (reachable_ok _ _ _ R)
        |split; [unfold COLUMNS; lia|vm_compute; reflexivity]|];
      exists p0, b0, p', b'
  end.
  split; [exact E|]. split; [exact Hrun|]. split; [vm_compute; reflexivity|].
  split.
  - rewrite Hav by (unfold COLUMNS; lia). vm_compute. reflexivity.
  - rewrite Hav by (unfold COLUMNS; lia). vm_compute. reflexivity.
Defined.

(** ** The text of a board *)

Lemma str_cells_spec (g : Grid) (i : Z) (row : list Colour) (k : nat) :
  getitem g i = inr row ->
  forall n s, (n + k = length row)%nat ->
    str_cells g i (range (Z.of_nat n) (Z.of_nat (length row))) s =
    inr (s ++ concat (map value (drop n row))).
Proof.
  intros Hrow. induction k as [|k IH]; intros n s Hn.
  - rewrite range_nil by lia. rewrite drop_ge by lia. cbn. now rewrite app_nil_r.
  - rewrite range_cons by lia. cbn [str_cells]. unfold grid_get. rewrite Hrow.
    cbn [rbind].
    destruct (getitem_nonneg row (Z.of_nat n)) as (x & Hx & ->); [lia|].
    rewrite Nat2Z.id in Hx. cbn [rbind].
    replace (Z.of_nat n + 1) with (Z.of_nat (S n)) by lia.
    rewrite IH by lia. rewrite (drop_S row x n Hx). cbn [map concat].
    now rewrite app_assoc.
Qed.

Lemma str_rows_spec (g : Grid) (k : nat) :
  Forall (fun row => length row = Z.to_nat COLUMNS) g ->
  forall n s, (n + k = length g)%nat ->
    str_rows g (range (Z.of_nat n) (Z.of_nat (length g))) s =
    inr (s ++ render (drop n g)).
Proof.
  intros Hrows. induction k as [|k IH]; intros n s Hn.
  - rewrite range_nil by lia. rewrite drop_ge by lia. cbn. now rewrite app_nil_r.
  - rewrite range_cons by lia. cbn [str_rows].
    destruct (getitem_nonneg g (Z.of_nat n)) as (row & Hrow & Hget); [lia|].
    rewrite Nat2Z.id in Hrow.
    assert (Hlen : length row = Z.to_nat COLUMNS).
    { rewrite Forall_forall in Hrows. apply Hrows. eapply list_elem_of_lookup_2; eauto. }
    replace (range 0 COLUMNS) with (range (Z.of_nat 0) (Z.of_nat (length row)))
      by (rewrite Hlen; reflexivity).
    rewrite (str_cells_spec g (Z.of_nat n) row (length row) Hget 0%nat s) by lia.
    cbn [rbind drop].
    replace (Z.of_nat n + 1) with (Z.of_nat (S n)) by lia.
    rewrite IH by lia. rewrite (drop_S g row n Hrow). unfold render. cbn [map concat].
    now rewrite !app_assoc.
Qed.

Lemma str_render (b : Connect4Board) :
  shaped (board b) -> __str__ b = inr (render (board b)).
Proof.
  intros [Hlen Hrows]. unfold __str__.
  replace (range 0 ROWS) with (range (Z.of_nat 0) (Z.of_nat (length (board b))))
    by (rewrite Hlen; reflexivity).
  now rewrite (str_rows_spec (board b) (length (board b)) Hrows 0%nat []) by lia.
Qed.

Lemma value_prefix_free (a b : Colour) (u v : list Z) :
  value a ++ u = value b ++ v -> a = b.
Proof. destruct a, b; cbn; intros H; congruence. Qed.

Lemma row_text_inj (r1 r2 : list Colour) (u v : list Z) :
  length r1 = length r2 ->
  concat (map value r1) ++ u = concat (map value r2) ++ v -> r1 = r2 /\ u = v.
Proof.
  revert r2. induction r1 as [|a r1 IH]; intros [|b r2] Hlen H; try discriminate.
  - now split.
  - cbn [map concat] in H. rewrite <- !app_assoc in H.
    pose proof (value_prefix_free _ _ _ _ H) as ->.
    apply app_inv_head in H. destruct (IH r2) as [-> ->]; [now injection Hlen|exact H|].
    now split.
Qed.

Lemma render_inj (g1 g2 : Grid) :
  Forall (fun row => length row = Z.to_nat COLUMNS) g1 ->
  Forall (fun row => length row = Z.to_nat COLUMNS) g2 ->
  length g1 = length g2 -> render g1 = render g2 -> g1 = g2.
Proof.
  intros H1. revert g2. induction H1 as [|row1 g1 Hrow1 _ IH];
    intros g2 H2 Hlen H; destruct H2 as [|row2 g2 Hrow2 H2]; try discriminate.
  - reflexivity.
  - unfold render in H. cbn [map concat] in H. rewrite <- !app_assoc in H.
    destruct (row_text_inj row1 row2 _ _ (eq_trans Hrow1 (eq_sym Hrow2)) H) as [-> H'].
    apply app_inv_head in H'. f_equal. apply IH; [exact H2|now injection Hlen|exact H'].
Qed.

(** X11: on a board whose grid has its 6 rows of 7 cells, [__str__] does
    not raise and returns the glyphs of the rows in order, each row
    followed by a newline; two such boards with the same text have the
    same grid. *)
Theorem str_shows_the_grid :
  (forall b, shaped (board b) -> __str__ b = inr (render (board b))) /\
  (forall b1 b2, shaped (board b1) -> shaped (board b2) ->
                 __str__ b1 = __str__ b2 -> board b1 = board b2).
Proof.
  split; [exact str_render|].
  intros b1 b2 [Hl1 Hr1] [Hl2 Hr2] H.
  rewrite !str_render in H by now split.
  injection H as H. apply render_inj; try assumption. congruence.
Qed.

Lemma str_shows_the_grid_witness :
  exists p b s,
    play_moves [(RED, 0)] process_start = (p, inr b) /\ __str__ b = inr s /\
    length s = (6 + 41 * 3 + 4)%nat.
Proof.
  run_game false [(RED, 0)] p b E R.
  match type of R with
  | reachable _ ?p0 ?b0 =>
      pose proof (proj1 str_shows_the_grid b0
                    (ok_shape _ _ (proj1 (reachable_ok _ _ _ R)))) as H;
      exists p0, b0, (render (board b0))
  end.
  split; [exact E|]. split; [exact H|]. vm_compute. reflexivity.
Defined.

(** * Further properties of the solver *)

(** ** Scoring *)

Lemma count_colour_cons (g : Grid) (c : Colour) (q : Coord) (line : Line) :
  count_colour g c (q :: line) =
  (if bool_decide (cell g q = c) then 1 else 0) + count_colour g c line.
Proof.
  unfold count_colour. destruct (bool_decide_reflect (cell g q = c)) as [E|E].
  - rewrite filter_cons_True by exact E. cbn [length]. lia.
  - rewrite filter_cons_False by exact E. lia.
Qed.

Lemma count_colour_nonneg (g : Grid) (c : Colour) (line : Line) :
  0 <= count_colour g c line.
Proof. unfold count_colour. lia. Qed.

Lemma count_matching_spec (game : Connect4Board) (player : Colour) (line : Line) :
  shaped (board game) -> (forall q, q ∈ line -> in_range q) ->
  forall m,
    count_matching game player line m =
    inr (if 0 <? count_colour (board game) (__alternate_colour player) line then None
         else Some (m + count_colour (board game) player line)).
Proof.
  intros Hs. induction line as [|q rest IH]; intros Hr m.
  - cbn. f_equal. f_equal. unfold count_colour. cbn. lia.
  - assert (Hq : in_range q) by apply Hr, list_elem_of_here.
    assert (IH' := IH (fun q' Hin => Hr q' (list_elem_of_further _ _ _ Hin))).
    cbn [count_matching]. unfold get_colour_at_position.
    rewrite grid_get_cell by assumption. cbn [rbind].
    rewrite !count_colour_cons.
    pose proof (count_colour_nonneg (board game) (__alternate_colour player) rest).
    destruct (bool_decide_reflect (cell (board game) q = __alternate_colour player))
      as [E|E].
    + destruct (Z.ltb_spec 0 (1 + count_colour (board game) (__alternate_colour player) rest));
        [reflexivity|lia].
    + rewrite Z.add_0_l.
      destruct (bool_decide_reflect (cell (board game) q = player)) as [E'|E'];
        rewrite IH'; destruct (0 <? _); f_equal; f_equal; lia.
Qed.

Lemma get_score_loop_spec (game : Connect4Board) (player : Colour) (lines : list Line) :
  shaped (board game) ->
  (forall line, line ∈ lines -> forall q, q ∈ line -> in_range q) ->
  forall score,
    get_score_loop game player lines score =
    inr (score + lines_worth (board game) player lines).
Proof.
  intros Hs. induction lines as [|line rest IH]; intros Hr score.
  - cbn. f_equal. unfold lines_worth. cbn. lia.
  - cbn [get_score_loop].
    rewrite count_matching_spec by (assumption || apply Hr, list_elem_of_here).
    cbn [rbind]. unfold lines_worth. cbn [map fold_right]. fold (lines_worth (board game) player rest).
    unfold line_worth.
    destruct (0 <? count_colour (board game) (__alternate_colour player) line).
    + rewrite IH by (intros l Hl; apply Hr; now apply list_elem_of_further).
      f_equal; lia.
    + rewrite ?Z.add_0_l.
      rewrite IH by (intros l Hl; apply Hr; now apply list_elem_of_further).
      unfold SCORE_TWO, SCORE_THREE.
      destruct (Z.eqb_spec (count_colour (board game) player line) 2) as [E2|E2];
        destruct (Z.eqb_spec (count_colour (board game) player line) 3) as [E3|E3];
        f_equal; lia.
Qed.

Lemma line_worth_range (g : Grid) (player : Colour) (line : Line) :
  0 <= line_worth g player line <= 5.
Proof.
  unfold line_worth, SCORE_TWO, SCORE_THREE.
  destruct (0 <? _); [lia|]. destruct (_ =? 2); [lia|]. destruct (_ =? 3); lia.
Qed.

Lemma lines_worth_range (g : Grid) (player : Colour) (lines : list Line) :
  0 <= lines_worth g player lines <= 5 * Z.of_nat (length lines).
Proof.
  unfold lines_worth. induction lines as [|line rest IH]; cbn [map fold_right length].
  - lia.
  - pose proof (line_worth_range g player line). lia.
Qed.

Lemma get_score_ready (p : Process) (game : Connect4Board) (player : Colour) :
  static_ready p -> shaped (board game) ->
  get_score game player p =
  (p, inr (lines_worth (board game) player generate_winning_lines)).
Proof.
  intros [H1 _] Hs. unfold get_score. rewrite H1.
  rewrite get_score_loop_spec; [reflexivity|exact Hs|].
  intros line Hl. apply (generate_winning_lines_ok line Hl).
Qed.

(** X12: once the class tables exist, [get_score] on a board with a
    6 by 7 grid does not raise and leaves the process as it is; the score
    is the sum over the generated lines of what each is worth to the
    player: nothing if the line holds a chip of the other colour or does
    not hold exactly two or three of the player's chips, [SCORE_TWO] = 1
    for exactly two and [SCORE_THREE] = 5 for exactly three, wherever in
    the line they are.  The score is between 0 and 325. *)
Theorem get_score_counts_open_lines (p : Process) (game : Connect4Board) (player : Colour) :
  static_ready p -> shaped (board game) ->
  get_score game player p =
    (p, inr (lines_worth (board game) player generate_winning_lines)) /\
  0 <= lines_worth (board game) player generate_winning_lines <= 325.
Proof.
  intros Hr Hs. split; [now apply get_score_ready|].
  pose proof (lines_worth_range (board game) player generate_winning_lines) as H.
  change (Z.of_nat (length generate_winning_lines)) with 65 in H. lia.
Qed.

Lemma get_score_counts_open_lines_witness :
  exists p b,
    play_moves (three_in_a_row 1) process_start = (p, inr b) /\
    get_score b RED p = (p, inr 11) /\ get_score b YELLOW p = (p, inr 0).
Proof.
  run_game false (three_in_a_row 1) p b E R.
  match type of R with
  | reachable _ ?p0 ?b0 =>
      destruct (reachable_ok _ _ _ R) as (Hok & _ & Hr);
      destruct (get_score_counts_open_lines p0 b0 RED Hr (ok_shape _ _ Hok)) as [H1 _];
      destruct (get_score_counts_open_lines p0 b0 YELLOW Hr (ok_shape _ _ Hok)) as [H2 _];
      exists p0, b0
  end.
  split; [exact E|]. split.
  - rewrite H1. vm_compute. reflexivity.
  - rewrite H2. vm_compute. reflexivity.
Defined.

Lemma of_board_run {A : Type} (m : M Process A) (p p' : Process) (a : A) :
  m p = (p', inr a) -> of_board m p = (p', inr a).
Proof. unfold of_board. now intros ->. Qed.

Lemma placed_copy_ok (p : Process) (b : Connect4Board) (player : Colour) (column : Z) :
  static_ready p -> board_ok p b -> legal p b column ->
  board_ok p (snd (placed p (copy_of p b) player column)).
Proof.
  intros Hr Hok Hlegal.
  pose proof (placed_ok p (copy_of p b) player column (copy_of_ok p b Hr Hok) Hlegal) as H.
  now rewrite copy_of_placed_process in H.
Qed.

Lemma solve_scoring_loop_spec (p : Process) (b : Connect4Board) (player : Colour)
    (cols : list Z) :
  static_ready p -> board_ok p b -> (forall c, c ∈ cols -> 0 <= c < COLUMNS) ->
  forall scores, length scores = Z.to_nat COLUMNS ->
  exists scores',
    solve_scoring_loop b player cols scores p = (p, inr scores') /\
    length scores' = Z.to_nat COLUMNS /\
    forall c, 0 <= c < COLUMNS ->
      scores' !! Z.to_nat c =
      if bool_decide (c ∈ cols) && is_open p b c
      then Some (column_score p b player c)
      else scores !! Z.to_nat c.
Proof.
  intros Hr Hok. induction cols as [|col rest IH]; intros Hcols scores Hlen.
  - exists scores. split; [reflexivity|]. split; [exact Hlen|].
    intros c Hc. rewrite bool_decide_eq_false_2 by apply not_elem_of_nil. reflexivity.
  - assert (Hc : 0 <= col < COLUMNS) by apply Hcols, list_elem_of_here.
    assert (Hrest : forall c, c ∈ rest -> 0 <= c < COLUMNS).
    { intros c Hin. apply Hcols. now apply list_elem_of_further. }
    cbn [solve_scoring_loop]. unfold bind2 at 1. unfold of_board at 1, ask_move_available.
    destruct (move_available_nonneg p b col (ok_avail_length p b Hok) Hc) as (a & _ & Ea).
    rewrite Ea. cbn [of_result]. destruct a.
    + pose proof (clone_and_place p b player col Hr Hok (conj Hc Ea)) as Hclone.
      unfold bind in Hclone. unfold bind2 at 1.
      destruct (__deepcopy__ b p) as [p1 [e|nb]] eqn:Ecopy; [discriminate|].
      rewrite (of_board_run _ _ _ _ Ecopy). unfold bind2 at 1.
      rewrite (of_board_run _ _ _ _ Hclone). unfold bind2 at 1.
      pose proof (placed_copy_ok p b player col Hr Hok (conj Hc Ea)) as Hok'.
      rewrite get_score_ready by (exact Hr || apply (ok_shape _ _ Hok')).
      unfold bind2 at 1.
      rewrite setitem_nonneg by (rewrite Hlen; unfold COLUMNS in *; lia).
      cbn [of_result].
      destruct (IH Hrest (<[Z.to_nat col := lines_worth
                  (board (snd (placed p (copy_of p b) player col))) player
                  generate_winning_lines]> scores))
        as (scores' & Erun & Hlen' & Hget).
      { now rewrite length_insert. }
      exists scores'. split; [exact Erun|]. split; [exact Hlen'|].
      intros c Hcr. rewrite (Hget c Hcr).
      destruct (decide (c = col)) as [->|Hne].
      * rewrite (bool_decide_eq_true_2 (col ∈ col :: rest)) by apply list_elem_of_here.
        assert (Ho : is_open p b col = true) by now apply is_open_true.
        rewrite Ho, andb_true_r. cbn [andb].
        rewrite list_lookup_insert_eq by (rewrite Hlen; unfold COLUMNS in *; lia).
        unfold column_score. rewrite Ho. now destruct (bool_decide (col ∈ rest)).
      * rewrite list_lookup_insert_ne by lia.
        destruct (bool_decide_reflect (c ∈ rest)) as [Hin|Hin].
        -- rewrite bool_decide_eq_true_2 by now apply list_elem_of_further. reflexivity.
        -- rewrite bool_decide_eq_false_2; [reflexivity|].
           intros Hin'. inversion Hin'; subst; contradiction.
    + destruct (IH Hrest scores Hlen) as (scores' & Erun & Hlen' & Hget).
      exists scores'. split; [exact Erun|]. split; [exact Hlen'|].
      intros c Hcr. rewrite (Hget c Hcr).
      destruct (decide (c = col)) as [->|Hne].
      * assert (Ho : is_open p b col = false).
        { unfold is_open. now rewrite Ea. }
        now rewrite Ho, !andb_false_r.
      * destruct (bool_decide_reflect (c ∈ rest)) as [Hin|Hin].
        -- rewrite bool_decide_eq_true_2 by now apply list_elem_of_further. reflexivity.
        -- rewrite bool_decide_eq_false_2; [reflexivity|].
           intros Hin'. inversion Hin'; subst; contradiction.
Qed.

Lemma range_elem_of (lo hi c : Z) : lo <= c < hi -> c ∈ range lo hi.
Proof.
  intros H. unfold range. apply list_elem_of_In, in_map_iff.
  exists (Z.to_nat (c - lo)). split; [lia|]. apply in_seq. lia.
Qed.

(** X13: on a well-formed board, [solve_scoring] does not raise, leaves
    the process as it is, and returns seven scores: 0 for a column that is
    not available, and for an available column the score [get_score]
    gives the player on the board with the player's chip dropped in it. *)
Theorem solve_scoring_scores_each_column
    (p : Process) (b : Connect4Board) (player : Colour) :
  static_ready p -> board_ok p b ->
  exists scores,
    solve_scoring b player p = (p, inr scores) /\
    length scores = 7%nat /\
    forall c, 0 <= c < COLUMNS ->
      exists s, scores !! Z.to_nat c = Some s /\ 0 <= s <= 325 /\
        (move_available p b c = inr false -> s = 0) /\
        (move_available p b c = inr true ->
         exists nb,
           (new_board <- __deepcopy__ b ; call new_board (place_chip player c)) p
             = (p, inr nb) /\
           get_score nb player p = (p, inr s)).
Proof.
  intros Hr Hok. unfold solve_scoring.
  destruct (solve_scoring_loop_spec p b player (range 0 COLUMNS) Hr Hok
              (fun c => range_elem 0 COLUMNS c) (replicate (Z.to_nat COLUMNS) 0))
    as (scores & Erun & Hlen & Hget); [apply length_replicate|].
  exists scores. split; [exact Erun|]. split; [exact Hlen|].
  intros c Hc. specialize (Hget c Hc).
  rewrite bool_decide_eq_true_2 in Hget by now apply range_elem_of.
  cbn [andb] in Hget.
  destruct (is_open p b c) eqn:Ho.
  - exists (column_score p b player c). split; [exact Hget|].
    apply is_open_true in Ho as Ha.
    unfold column_score. rewrite Ho.
    pose proof (lines_worth_range (grid_with (board b) (landing b c) player) player
                  generate_winning_lines) as Hrange.
    change (Z.of_nat (length generate_winning_lines)) with 65 in Hrange.
    split; [lia|]. split; [congruence|]. intros _.
    exists (snd (placed p (copy_of p b) player c)).
    split; [now apply clone_and_place|].
    rewrite get_score_ready; [reflexivity|exact Hr|].
    apply (ok_shape _ _ (placed_copy_ok p b player c Hr Hok (conj Hc Ha))).
  - exists 0. split.
    + rewrite Hget. apply lookup_replicate_2. unfold COLUMNS in *. lia.
    + split; [lia|]. split; [reflexivity|]. intros Ha.
      apply is_open_true in Ha. congruence.
Qed.

Lemma solve_scoring_scores_each_column_witness :
  exists p b,
    play_moves (fill_column_0 ++ three_in_a_row 1) process_start = (p, inr b) /\
    exists scores, solve_scoring b RED p = (p, inr scores) /\ scores !! 0%nat = Some 0.
Proof.
  run_game false (fill_column_0 ++ three_in_a_row 1) p b E R.
  match type of R with
  | reachable _ ?p0 ?b0 =>
      destruct (reachable_ok _ _ _ R) as (Hok & _ & Hr);
      destruct (solve_scoring_scores_each_column p0 b0 RED Hr Hok)
        as (scores & Hrun & _ & Hget);
      exists p0, b0
  end.
  split; [exact E|]. exists scores. split; [exact Hrun|].
  destruct (Hget 0) as (s & Hs & _ & Hclosed & _); [unfold COLUMNS; lia|].
  change (Z.to_nat 0) with 0%nat in Hs. rewrite Hs. f_equal.
  apply Hclosed. vm_compute. reflexivity.
Defined.

(** ** Wins on the generated lines *)

Lemma immediate_win_generated (b : Connect4Board) (player : Colour) (column : Z) :
  immediate_win b player column = true <-> completes_generated_line b player column.
Proof.
  unfold immediate_win, completes_generated_line, line_through.
  rewrite andb_true_iff, negb_true_iff, existsb_exists. split.
  - intros [Hne (line & Hin & Hthrough)]. apply andb_true_iff in Hthrough as [Hq Hall].
    split; [now apply bool_decide_eq_false_1 in Hne|].
    exists line. split; [now apply list_elem_of_In|].
    split; [now apply bool_decide_eq_true_1 in Hq|now apply line_of_cells].
  - intros [Hne (line & Hin & Hq & Hall)].
    split; [now apply bool_decide_eq_false_2|].
    exists line. split; [now apply list_elem_of_In|].
    apply andb_true_iff. split; [now apply bool_decide_eq_true_2|now apply line_of_cells].
Qed.

Lemma not_immediate_win_generated (b : Connect4Board) (player : Colour) (column : Z) :
  ~ completes_generated_line b player column -> immediate_win b player column = false.
Proof.
  intros H. destruct (immediate_win b player column) eqn:E; [|reflexivity].
  now apply immediate_win_generated in E.
Qed.

(** ** The minimax search *)

Lemma fold_left_max_range (values : list Z) (v lo hi : Z) :
  lo <= v <= hi -> (forall w, w ∈ values -> lo <= w <= hi) ->
  lo <= fold_left Z.max values v <= hi.
Proof.
  revert v. induction values as [|w rest IH]; intros v Hv Hall; [exact Hv|].
  cbn [fold_left]. apply IH.
  - pose proof (Hall w (list_elem_of_here _ _)). lia.
  - intros w' Hw'. apply Hall. now apply list_elem_of_further.
Qed.

Lemma fold_left_min_range (values : list Z) (v lo hi : Z) :
  lo <= v <= hi -> (forall w, w ∈ values -> lo <= w <= hi) ->
  lo <= fold_left Z.min values v <= hi.
Proof.
  revert v. induction values as [|w rest IH]; intros v Hv Hall; [exact Hv|].
  cbn [fold_left]. apply IH.
  - pose proof (Hall w (list_elem_of_here _ _)). lia.
  - intros w' Hw'. apply Hall. now apply list_elem_of_further.
Qed.

Lemma node_value_range (player : Colour) (values : list Z) :
  (forall w, w ∈ values -> -1 <= w <= 1) -> -1 <= node_value player values <= 1.
Proof.
  intros Hall. unfold node_value.
  destruct values as [|v rest]; [cbn; lia|].
  rewrite bool_decide_eq_false_2 by discriminate.
  destruct (_ =? 1); cbn [py_max py_min].
  - apply fold_left_max_range; [apply Hall, list_elem_of_here|].
    intros w Hw. apply Hall. now apply list_elem_of_further.
  - apply fold_left_min_range; [apply Hall, list_elem_of_here|].
    intros w Hw. apply Hall. now apply list_elem_of_further.
Qed.

(** The value of the child in column [col]. *)
Lemma child_value (p : Process) (b : Connect4Board) (player : Colour) (col : Z)
    (recurse : option (Connect4Board -> Colour -> M Process Z)) :
  static_ready p -> board_ok p b -> legal p b col -> deeper_total p recurse ->
  let nb := snd (placed p (copy_of p b) player col) in
  exists v,
    match recurse with
    | Some deeper =>
        if bool_decide (get_winner nb = EMPTY)
        then deeper nb (__alternate_colour player)
        else ret (__player_value (get_winner nb))
    | None =>
        if bool_decide (get_winner nb = EMPTY) then ret 0
        else ret (__player_value (get_winner nb))
    end p = (p, inr v) /\
    -1 <= v <= 1 /\
    (immediate_win b player col = true -> v = __player_value player).
Proof.
  intros Hr Hok Hlegal Hdeep nb.
  pose proof (placed_copy_ok p b player col Hr Hok Hlegal) as Hok'. fold nb in Hok'.
  assert (Hw : get_winner nb = if immediate_win b player col then player else EMPTY)
    by reflexivity.
  rewrite Hw. destruct (immediate_win b player col) eqn:Ew.
  - rewrite bool_decide_eq_false_2 by (now apply immediate_win_player in Ew).
    exists (__player_value player).
    pose proof (player_value_cases player).
    destruct recurse; (split; [reflexivity|]); (split; [lia|reflexivity]).
  - rewrite bool_decide_eq_true_2 by reflexivity.
    destruct recurse as [deeper|].
    + destruct (Hdeep deeper eq_refl nb (__alternate_colour player) Hok') as (v & Ev & Hv).
      exists v. split; [exact Ev|]. split; [exact Hv|discriminate].
    + exists 0. split; [reflexivity|]. split; [lia|discriminate].
Qed.

Lemma place_chip_recursive_loop_step
    (p : Process) (b : Connect4Board) (player : Colour) (col : Z) (rest values : list Z)
    (recurse : option (Connect4Board -> Colour -> M Process Z)) :
  static_ready p -> board_ok p b -> legal p b col -> deeper_total p recurse ->
  exists v,
    -1 <= v <= 1 /\
    (immediate_win b player col = true -> v = __player_value player) /\
    place_chip_recursive_loop recurse b player (col :: rest) values p =
    if v =? __player_value player then (p, inr v)
    else place_chip_recursive_loop recurse b player rest (values ++ [v]) p.
Proof.
  intros Hr Hok Hlegal Hdeep. pose proof Hlegal as [Hc Ea].
  destruct (child_value p b player col recurse Hr Hok Hlegal Hdeep) as (v & Ev & Hv & Hwin).
  exists v. split; [exact Hv|]. split; [exact Hwin|].
  cbn [place_chip_recursive_loop]. unfold bind at 1, ask_move_available at 1.
  rewrite Ea.
  pose proof (clone_and_place p b player col Hr Hok Hlegal) as Hclone.
  remember (snd (placed p (copy_of p b) player col)) as nb eqn:Enb.
  unfold bind in Hclone |- *.
  destruct (__deepcopy__ b p) as [p1 [e|nb0]]; [discriminate|].
  destruct (call nb0 (place_chip player col) p1) as [p2 [e|nb']]; [discriminate|].
  injection Hclone as -> ->.
  cbv zeta in Ev. rewrite Ev.
  now destruct (v =? __player_value player).
Qed.

Lemma place_chip_recursive_loop_total
    (p : Process) (b : Connect4Board) (player : Colour) (cols : list Z)
    (recurse : option (Connect4Board -> Colour -> M Process Z)) :
  static_ready p -> board_ok p b -> (forall c, c ∈ cols -> 0 <= c < COLUMNS) ->
  deeper_total p recurse ->
  forall values, (forall w, w ∈ values -> -1 <= w <= 1) ->
  exists v, place_chip_recursive_loop recurse b player cols values p = (p, inr v) /\
            -1 <= v <= 1.
Proof.
  intros Hr Hok Hcols Hdeep. induction cols as [|col rest IH]; intros values Hvalues.
  - eexists. split; [reflexivity|]. now apply node_value_range.
  - assert (Hc : 0 <= col < COLUMNS) by apply Hcols, list_elem_of_here.
    destruct (move_available_nonneg p b col (ok_avail_length p b Hok) Hc) as (a & _ & Ea).
    destruct a.
    + destruct (place_chip_recursive_loop_step p b player col rest values recurse
                  Hr Hok (conj Hc Ea) Hdeep) as (v & Hv & _ & ->).
      destruct (v =? __player_value player); [now exists v|].
      apply IH.
      * intros c Hin. apply Hcols. now apply list_elem_of_further.
      * intros w Hw. apply elem_of_app in Hw as [Hw|Hw]; [now apply Hvalues|].
        apply list_elem_of_singleton in Hw. now subst.
    + cbn [place_chip_recursive_loop]. unfold bind, ask_move_available. rewrite Ea.
      eexists. split; [reflexivity|]. now apply node_value_range.
Qed.

Lemma place_chip_recursive_levels_total (p : Process) (levels : nat) :
  static_ready p ->
  forall b player, board_ok p b ->
    exists v, place_chip_recursive_levels levels b player p = (p, inr v) /\ -1 <= v <= 1.
Proof.
  intros Hr. induction levels as [|levels IH]; intros b player Hok;
    cbn [place_chip_recursive_levels];
    apply place_chip_recursive_loop_total; try assumption.
  - intros c. apply range_elem.
  - intros deeper [=].
  - intros w Hw. inversion Hw.
  - intros c. apply range_elem.
  - intros deeper [= <-] nb pl Hnb. now apply IH.
  - intros w Hw. inversion Hw.
Qed.

Lemma levels_deeper_total (p : Process) (levels : nat) :
  static_ready p ->
  deeper_total p match levels with
                 | O => None
                 | S levels' => Some (place_chip_recursive_levels levels')
                 end.
Proof.
  intros Hr. destruct levels as [|levels]; intros deeper [=]. subst deeper.
  intros nb pl Hnb. now apply place_chip_recursive_levels_total.
Qed.

(** X14: on a well-formed board, for every colour and every depth, zero
    and negative depths included, [place_chip_recursive] does not raise,
    leaves the process as it is, and returns -1, 0 or 1. *)
Theorem place_chip_recursive_returns_sign
    (p : Process) (b : Connect4Board) (player : Colour) (depth : Z) :
  static_ready p -> board_ok p b ->
  exists v, place_chip_recursive b player depth p = (p, inr v) /\
            (v = -1 \/ v = 0 \/ v = 1).
Proof.
  intros Hr Hok. unfold place_chip_recursive.
  destruct (place_chip_recursive_levels_total p (Z.to_nat (depth - 1)) Hr b player Hok)
    as (v & Ev & Hv).
  exists v. split; [exact Ev|lia].
Qed.

Lemma place_chip_recursive_returns_sign_witness :
  exists p b,
    play_moves (three_in_a_row 1) process_start = (p, inr b) /\
    place_chip_recursive b RED 2 p = (p, inr 1) /\
    place_chip_recursive b YELLOW 0 p = (p, inr 0).
Proof.
  run_game false (three_in_a_row 1) p b E R.
  match type of R with
  | reachable _ ?p0 ?b0 =>
      destruct (reachable_ok _ _ _ R) as (Hok & _ & Hr);
      destruct (place_chip_recursive_returns_sign p0 b0 RED 2 Hr Hok) as (v1 & H1 & _);
      destruct (place_chip_recursive_returns_sign p0 b0 YELLOW 0 Hr Hok) as (v2 & H2 & _);
      exists p0, b0
  end.
  split; [exact E|]. split.
  - rewrite H1. vm_compute in H1. congruence.
  - rewrite H2. vm_compute in H2. congruence.
Defined.

Lemma range_split (lo c hi : Z) :
  lo <= c < hi -> range lo hi = range lo c ++ c :: range (c + 1) hi.
Proof.
  intros H. remember (Z.to_nat (c - lo)) as n eqn:En. revert lo H En.
  induction n as [|n IH]; intros lo H En.
  - assert (lo = c) as -> by lia. rewrite (range_nil c c) by lia.
    now rewrite range_cons by lia.
  - rewrite (range_cons lo hi) by lia. rewrite (range_cons lo c) by lia.
    cbn [app]. f_equal. apply IH; lia.
Qed.

Lemma place_chip_recursive_loop_ideal
    (p : Process) (b : Connect4Board) (player : Colour) (c : Z) (pre post : list Z)
    (recurse : option (Connect4Board -> Colour -> M Process Z)) :
  static_ready p -> board_ok p b -> deeper_total p recurse ->
  (forall j, j ∈ pre -> legal p b j) -> legal p b c ->
  immediate_win b player c = true ->
  forall values,
    place_chip_recursive_loop recurse b player (pre ++ c :: post) values p =
    (p, inr (__player_value player)).
Proof.
  intros Hr Hok Hdeep Hpre Hc Hwin. induction pre as [|j pre IH]; intros values.
  - cbn [app].
    destruct (place_chip_recursive_loop_step p b player c post values recurse
                Hr Hok Hc Hdeep) as (v & _ & Hv & ->).
    rewrite (Hv Hwin), Z.eqb_refl. reflexivity.
  - cbn [app].
    destruct (place_chip_recursive_loop_step p b player j (pre ++ c :: post) values recurse
                Hr Hok (Hpre j (list_elem_of_here _ _)) Hdeep) as (v & _ & _ & ->).
    destruct (Z.eqb_spec v (__player_value player)) as [->|_]; [reflexivity|].
    apply IH. intros j' Hj'. apply Hpre. now apply list_elem_of_further.
Qed.

(** X15: on a well-formed board, when the columns 0 to [c] are all
    available and the mover's chip in column [c] completes one of the
    lines that [generate_winning_lines] returns, [place_chip_recursive]
    returns the value that is ideal for the mover, +1 for RED and -1
    otherwise, at every depth.  A four in a row on one of the four rising
    diagonals the generator leaves out is not such a line. *)
Theorem place_chip_recursive_finds_immediate_win
    (p : Process) (b : Connect4Board) (player : Colour) (depth c : Z) :
  static_ready p -> board_ok p b -> 0 <= c < COLUMNS ->
  (forall j, 0 <= j <= c -> move_available p b j = inr true) ->
  completes_generated_line b player c ->
  place_chip_recursive b player depth p = (p, inr (__player_value player)) /\
  __player_value player = (if bool_decide (player = RED) then 1 else -1).
Proof.
  intros Hr Hok Hc Hopen Hline. apply immediate_win_generated in Hline as Hwin.
  split; [|reflexivity].
  unfold place_chip_recursive.
  destruct (Z.to_nat (depth - 1)) as [|levels] eqn:El;
    cbn [place_chip_recursive_levels];
    rewrite (range_split 0 c COLUMNS) by lia;
    apply place_chip_recursive_loop_ideal; try assumption.
  - apply (levels_deeper_total p 0 Hr).
  - intros j Hj. apply range_elem in Hj. split; [lia|]. apply Hopen. lia.
  - split; [exact Hc|]. apply Hopen. lia.
  - apply (levels_deeper_total p (S levels) Hr).
  - intros j Hj. apply range_elem in Hj. split; [lia|]. apply Hopen. lia.
  - split; [exact Hc|]. apply Hopen. lia.
Qed.

Lemma place_chip_recursive_finds_immediate_win_witness :
  exists p b,
    play_moves (three_in_a_row 1) process_start = (p, inr b) /\
    place_chip_recursive b RED 5 p = (p, inr 1).
Proof.
  run_game false (three_in_a_row 1) p b E R.
  match type of R with
  | reachable _ ?p0 ?b0 =>
      destruct (reachable_ok _ _ _ R) as (Hok & _ & Hr);
      assert (Hline : completes_generated_line b0 RED 0)
        by (apply immediate_win_generated; vm_compute; reflexivity);
      destruct (place_chip_recursive_finds_immediate_win p0 b0 RED 5 0 Hr Hok)
        as [Hrun _];
        [unfold COLUMNS; lia
        |intros j Hj; assert (j = 0) as -> by lia; vm_compute; reflexivity
        |exact Hline|];
      exists p0, b0
  end.
  split; [exact E|exact Hrun].
Defined.

Lemma solve_minimax_loop_shape
    (p : Process) (b : Connect4Board) (player : Colour) (depth : Z) (cols : list Z) :
  static_ready p -> board_ok p b -> (forall c, c ∈ cols -> 0 <= c < COLUMNS) ->
  forall acc, exists tail,
    solve_minimax_loop b player depth cols acc p = (p, inr (acc ++ tail)) /\
    Forall2 (minimax_entry p b player depth) cols tail.
Proof.
  intros Hr Hok. induction cols as [|col rest IH]; intros Hcols acc.
  - exists []. split; [cbn; now rewrite app_nil_r|constructor].
  - assert (Hc : 0 <= col < COLUMNS) by apply Hcols, list_elem_of_here.
    assert (Hrest : forall c, c ∈ rest -> 0 <= c < COLUMNS).
    { intros c Hin. apply Hcols. now apply list_elem_of_further. }
    cbn [solve_minimax_loop]. unfold bind at 1, ask_move_available at 1.
    destruct (move_available_nonneg p b col (ok_avail_length p b Hok) Hc) as (a & _ & Ea).
    rewrite Ea. destruct a; cbn [negb].
    + pose proof (clone_and_place p b player col Hr Hok (conj Hc Ea)) as Hclone.
      pose proof (placed_copy_ok p b player col Hr Hok (conj Hc Ea)) as Hok'.
      remember (snd (placed p (copy_of p b) player col)) as nb eqn:Enb.
      destruct (place_chip_recursive_levels_total p (Z.to_nat (depth - 1)) Hr nb
                  (__alternate_colour player) Hok') as (v & Ev & Hv).
      fold (place_chip_recursive nb (__alternate_colour player) depth) in Ev.
      assert (Hentry : minimax_entry p b player depth col (Num v)).
      { unfold minimax_entry. rewrite (proj2 (is_open_true p b col) Ea).
        exists nb, v. split; [exact Hclone|]. split; [exact Ev|]. split; [reflexivity|lia]. }
      unfold bind in Hclone |- *.
      destruct (__deepcopy__ b p) as [p1 [e|nb0]]; [discriminate|].
      destruct (call nb0 (place_chip player col) p1) as [p2 [e|nb']]; [discriminate|].
      injection Hclone as -> ->. rewrite Ev.
      destruct (IH Hrest (acc ++ [Num v])) as (tail & Erun & Hall).
      exists (Num v :: tail). split; [|now constructor].
      rewrite Erun. now rewrite <- app_assoc.
    + destruct (IH Hrest (acc ++ [neg_inf_times (__player_value player)]))
        as (tail & Erun & Hall).
      exists (neg_inf_times (__player_value player) :: tail). split.
      * rewrite Erun. now rewrite <- app_assoc.
      * constructor; [|exact Hall]. unfold minimax_entry.
        assert (Ho : is_open p b col = false) by (unfold is_open; now rewrite Ea).
        rewrite Ho. now destruct player.
Qed.

Lemma range_lookup (lo hi c : Z) :
  lo <= c < hi -> range lo hi !! Z.to_nat (c - lo) = Some c.
Proof.
  intros H. unfold range. rewrite list_lookup_fmap.
  rewrite lookup_seq_lt by lia. cbn. f_equal. lia.
Qed.

(** X16: on a well-formed board, for every colour and depth,
    [solve_minimax] does not raise, leaves the process as it is, and
    returns seven entries: for a column that is not available the float
    -inf for RED and +inf otherwise, and for an available column the
    integer -1, 0 or 1 that [place_chip_recursive] returns, with the
    opponent to move, on the board with the mover's chip dropped in it. *)
Theorem solve_minimax_entries
    (p : Process) (b : Connect4Board) (player : Colour) (depth : Z) :
  static_ready p -> board_ok p b ->
  exists values,
    solve_minimax b player depth p = (p, inr values) /\
    length values = 7%nat /\
    forall c, 0 <= c < COLUMNS ->
      exists x, values !! Z.to_nat c = Some x /\
        (move_available p b c = inr false ->
         x = (if bool_decide (player = RED) then NegInf else PosInf)) /\
        (move_available p b c = inr true ->
         exists nb v,
           (new_board <- __deepcopy__ b ; call new_board (place_chip player c)) p
             = (p, inr nb) /\
           place_chip_recursive nb (__alternate_colour player) depth p = (p, inr v) /\
           x = Num v /\ (v = -1 \/ v = 0 \/ v = 1)).
Proof.
  intros Hr Hok. unfold solve_minimax.
  destruct (solve_minimax_loop_shape p b player depth (range 0 COLUMNS) Hr Hok
              (fun c => range_elem 0 COLUMNS c) []) as (values & Erun & Hall).
  exists values. split; [exact Erun|].
  split; [now rewrite <- (Forall2_length _ _ _ Hall)|].
  intros c Hc.
  pose proof (range_lookup 0 COLUMNS c Hc) as Hlook. rewrite Z.sub_0_r in Hlook.
  destruct (Forall2_lookup_l _ _ _ _ _ Hall Hlook) as (x & Hx & Hentry).
  exists x. split; [exact Hx|]. unfold minimax_entry in Hentry.
  destruct (is_open p b c) eqn:Ho.
  - apply is_open_true in Ho. split; [congruence|]. intros _. exact Hentry.
  - split; [intros _; exact Hentry|]. intros Ha. apply is_open_true in Ha. congruence.
Qed.

Lemma solve_minimax_entries_witness :
  exists p b values,
    play_moves (fill_column_0 ++ three_in_a_row 1) process_start = (p, inr b) /\
    solve_minimax b RED 2 p = (p, inr values) /\ values !! 0%nat = Some NegInf.
Proof.
  run_game false (fill_column_0 ++ three_in_a_row 1) p b E R.
  match type of R with
  | reachable _ ?p0 ?b0 =>
      destruct (reachable_ok _ _ _ R) as (Hok & _ & Hr);
      destruct (solve_minimax_entries p0 b0 RED 2 Hr Hok) as (values & Hrun & _ & Hget);
      exists p0, b0, values
  end.
  split; [exact E|]. split; [exact Hrun|].
  destruct (Hget 0) as (x & Hx & Hclosed & _); [unfold COLUMNS; lia|].
  change (Z.to_nat 0) with 0%nat in Hx. rewrite Hx. f_equal.
  apply Hclosed. vm_compute. reflexivity.
Defined.

(** ** solveBoard *)

Lemma first_winning_column_found
    (p : Process) (b : Connect4Board) (player : Colour) (c : Z) :
  legal p b c -> immediate_win b player c = true ->
  let r := first_winning_column p b player in
  0 <= r <= c /\ legal p b r /\ immediate_win b player r = true.
Proof.
  intros [Hc Ha] Hwin r. unfold r, first_winning_column.
  pose proof (find_range_first
                (fun c => is_open p b c && immediate_win b player c) 0 COLUMNS) as Hfind.
  assert (Hfc : is_open p b c && immediate_win b player c = true).
  { rewrite Hwin, andb_true_r. now apply is_open_true. }
  destruct (find _ (range 0 COLUMNS)) as [r0|].
  - destruct Hfind as (Hr0 & Hf & Hmin). apply andb_true_iff in Hf as [Ho Hw].
    split; [|split; [split; [exact Hr0|now apply is_open_true]|exact Hw]].
    split; [lia|]. destruct (Z_le_dec r0 c); [assumption|].
    rewrite Hmin in Hfc by lia. discriminate.
  - rewrite Hfind in Hfc by exact Hc. discriminate.
Qed.

Lemma first_winning_column_none (p : Process) (b : Connect4Board) (player : Colour) :
  (forall j, legal p b j -> immediate_win b player j = false) ->
  first_winning_column p b player = -1.
Proof.
  intros Hnone. unfold first_winning_column.
  pose proof (find_range_first
                (fun c => is_open p b c && immediate_win b player c) 0 COLUMNS) as Hfind.
  destruct (find _ (range 0 COLUMNS)) as [r0|]; [|reflexivity].
  destruct Hfind as (Hr0 & Hf & _). apply andb_true_iff in Hf as [Ho Hw].
  rewrite Hnone in Hw; [discriminate|]. split; [exact Hr0|now apply is_open_true].
Qed.

(** X17: on a well-formed board, whatever is done when the minimax values
    tie, [solveBoard] returns the smallest available column in which the
    player's chip completes one of the lines that [generate_winning_lines]
    returns, when there is such a column; and when there is none but the
    opponent's chip would complete a generated line in some available
    column, it returns the smallest such column, blocking it.  In both
    cases the process is left as it is.  A four in a row on one of the
    four rising diagonals the generator leaves out is not such a line. *)
Theorem solveBoard_wins_else_blocks
    (tie_break : Connect4Board -> Colour -> list Z -> M Process Z)
    (p : Process) (b : Connect4Board) (player : Colour) (c : Z) :
  static_ready p -> board_ok p b -> legal p b c ->
  (completes_generated_line b player c ->
   exists r, solveBoard tie_break b player p = (p, inr r) /\
             0 <= r <= c /\ legal p b r /\ completes_generated_line b player r) /\
  ((forall j, legal p b j -> ~ completes_generated_line b player j) ->
   completes_generated_line b (__alternate_colour player) c ->
   exists r, solveBoard tie_break b player p = (p, inr r) /\
             0 <= r <= c /\ legal p b r /\
             completes_generated_line b (__alternate_colour player) r).
Proof.
  intros Hr Hok Hc. split.
  - intros Hline. apply immediate_win_generated in Hline as Hwin.
    destruct (first_winning_column_found p b player c Hc Hwin) as (Hrange & Hlegal & Hw).
    exists (first_winning_column p b player).
    split; [|split; [exact Hrange|split; [exact Hlegal|now apply immediate_win_generated]]].
    unfold solveBoard, bind.
    rewrite solveNaive_spec by assumption.
    destruct (Z.eqb_spec (first_winning_column p b player) (-1)); [lia|reflexivity].
  - intros Hnone Hline. apply immediate_win_generated in Hline as Hwin.
    assert (Hnone' : forall j, legal p b j -> immediate_win b player j = false).
    { intros j Hj. now apply not_immediate_win_generated, Hnone. }
    destruct (first_winning_column_found p b (__alternate_colour player) c Hc Hwin)
      as (Hrange & Hlegal & Hw).
    exists (first_winning_column p b (__alternate_colour player)).
    split; [|split; [exact Hrange|split; [exact Hlegal|now apply immediate_win_generated]]].
    unfold solveBoard, bind.
    rewrite solveNaive_spec by assumption.
    rewrite (first_winning_column_none p b player Hnone'), Z.eqb_refl.
    cbn [negb]. cbn beta.
    rewrite solveNaive_spec by assumption.
    destruct (Z.eqb_spec (first_winning_column p b (__alternate_colour player)) (-1));
      [lia|reflexivity].
Qed.

Lemma solveBoard_wins_else_blocks_witness :
  exists p b,
    play_moves (fill_column_0 ++ three_in_a_row 1) process_start = (p, inr b) /\
    solveBoard (fun _ _ _ => raise IndexError) b RED p = (p, inr 4) /\
    solveBoard (fun _ _ _ => raise IndexError) b YELLOW p = (p, inr 4).
Proof.
  run_game false (fill_column_0 ++ three_in_a_row 1) p b E R.
  match type of R with
  | reachable _ ?p0 ?b0 =>
      destruct (reachable_ok _ _ _ R) as (Hok & _ & Hr);
      assert (Hl : legal p0 b0 4)
        by (split; [unfold COLUMNS; lia|vm_compute; reflexivity]);
      assert (Hred : completes_generated_line b0 RED 4)
        by (apply immediate_win_generated; vm_compute; reflexivity);
      assert (Hnone : forall j, legal p0 b0 j -> ~ completes_generated_line b0 YELLOW j);
      [|destruct (proj1 (solveBoard_wins_else_blocks (fun _ _ _ => raise IndexError)
                           p0 b0 RED 4 Hr Hok Hl) Hred) as (r1 & Hrun1 & _);
        destruct (proj2 (solveBoard_wins_else_blocks (fun _ _ _ => raise IndexError)
                           p0 b0 YELLOW 4 Hr Hok Hl) Hnone Hred) as (r2 & Hrun2 & _);
        exists p0, b0]
  end.
  - intros j [Hj _] Hline. apply immediate_win_generated in Hline. revert Hline.
    unfold COLUMNS in Hj.
    assert (j = 0 \/ j = 1 \/ j = 2 \/ j = 3 \/ j = 4 \/ j = 5 \/ j = 6) as Hcases by lia.
    repeat destruct Hcases as [->|Hcases]; try subst j; vm_compute; discriminate.
  - split; [exact E|]. split.
    + rewrite Hrun1. vm_compute in Hrun1. congruence.
    + rewrite Hrun2. vm_compute in Hrun2. congruence.
Defined.

(** ** The input loop of play *)

(** X18: the loop of [play] that reads the human's column never raises,
    whatever integers are typed: it skips every input that is not one of
    the seven columns or names a closed column, negative indices included,
    and stops at the first legal column, on which [place_chip] then
    returns normally. *)
Theorem read_column_accepts_first_legal
    (p : Process) (b : Connect4Board) (inputs : list Z) :
  board_ok p b ->
  exists r, read_column p b inputs = inr r /\
    match r with
    | Some (column, rest) =>
        exists skipped, inputs = skipped ++ column :: rest /\
          (forall x, x ∈ skipped -> ~ legal p b x) /\ legal p b column /\
          forall player, exists p' b',
            place_chip player column (p, b) = ((p', b'), inr tt)
    | None => forall x, x ∈ inputs -> ~ legal p b x
    end.
Proof.
  intros Hok. induction inputs as [|x rest IH].
  - exists None. split; [reflexivity|]. intros x Hx. inversion Hx.
  - cbn [read_column].
    assert (Hvalid : exists v, and_then (inr (x >=? 0))
                       (and_then (inr (x <? COLUMNS)) (move_available p b x)) = inr v /\
                     (v = true <-> legal p b x)).
    { unfold and_then, rbind, legal.
      destruct (Z.geb_spec x 0) as [H0|H0].
      2:{ exists false. split; [reflexivity|]. split; [discriminate|]. intros [? _]. lia. }
      destruct (Z.ltb_spec x COLUMNS) as [H1|H1].
      2:{ exists false. split; [reflexivity|]. split; [discriminate|]. intros [? _]. lia. }
      destruct (move_available_nonneg p b x (ok_avail_length p b Hok)) as (a & _ & ->);
        [lia|].
      exists a. split; [reflexivity|]. split.
      - intros ->. split; [lia|reflexivity].
      - intros [_ [= ->]]. reflexivity. }
    destruct Hvalid as (v & -> & Hv). cbn [rbind].
    destruct v.
    1: assert (Hl : legal p b x) by now apply Hv.
    2: assert (Hl : ~ legal p b x) by (intros Hl; apply Hv in Hl; discriminate).
    + exists (Some (x, rest)). split; [reflexivity|].
      exists []. split; [reflexivity|]. split; [intros y Hy; inversion Hy|].
      split; [exact Hl|]. intros player.
      exists (fst (placed p b player x)), (snd (placed p b player x)).
      now apply placed_run.
    + destruct IH as (r & Erun & Hr). exists r. split; [exact Erun|].
      destruct r as [[column rest']|].
      * destruct Hr as (skipped & -> & Hskip & Hrest).
        exists (x :: skipped). split; [reflexivity|]. split; [|exact Hrest].
        intros y Hy. inversion Hy; subst; [exact Hl|now apply Hskip].
      * intros y Hy. inversion Hy; subst; [exact Hl|now apply Hr].
Qed.

Lemma read_column_accepts_first_legal_witness :
  exists p b,
    play_moves fill_column_0 process_start = (p, inr b) /\
    read_column p b [7; -1; 0; 3; 4] = inr (Some (3, [4])).
Proof.
  run_game false fill_column_0 p b E R.
  match type of R with
  | reachable _ ?p0 ?b0 =>
      destruct (read_column_accepts_first_legal p0 b0 [7; -1; 0; 3; 4]
                  (proj1 (reachable_ok _ _ _ R))) as (r & Hrun & _);
      exists p0, b0
  end.
  split; [exact E|]. rewrite Hrun. vm_compute in Hrun. congruence.
Defined.

(** ** Colours and signs *)

(** X19: [__alternate_colour] never returns EMPTY, swaps RED and YELLOW,
    and flips the sign [__player_value] gives a colour, which is +1 for
    RED and -1 for any other colour. *)
Theorem alternate_colour_flips_sign (c : Colour) :
  __alternate_colour c <> EMPTY /\ __alternate_colour c <> c /\
  (c <> EMPTY -> __alternate_colour (__alternate_colour c) = c) /\
  __player_value (__alternate_colour c) = - __player_value c /\
  (__player_value c = 1 <-> c = RED) /\ (__player_value c = -1 <-> c <> RED).
Proof. destruct c; repeat split; cbn; congruence || lia || discriminate. Qed.

Lemma alternate_colour_flips_sign_witness :
  __alternate_colour (__alternate_colour YELLOW) = YELLOW.
Proof.
  destruct (alternate_colour_flips_sign YELLOW) as (_ & _ & H & _).
  apply H. discriminate.
Defined.
